(** * The LaTeX rendering pipeline of [backend/app.py]

    A shallow embedding of [render_snippet], [compile_latex],
    [find_command], [pdf_to_png], [_trim_png_inplace], [readiness_report],
    [check_command] and [api_compile].

    The code talks to two things outside itself: the file system (through
    [pathlib], [open] and [shutil]) and external programs (through
    [subprocess.run]).  Both are made explicit.  The file system is a finite
    map from paths to nodes; external programs are an oracle that, for the
    n-th call of [subprocess.run], decides how the call ends and what it did
    to the file system.  A Python function becomes a computation that takes
    the world, returns a value or raises, leaves a world, and lists the
    calls of [subprocess.run] it made, each with the place in the source
    that made it. *)

From stdpp Require Import gmap strings list fin_maps pretty.
From Stdlib Require Import Ascii ZArith Lia.

Local Open Scope Z_scope.

(** ** Strings *)

Module Str.

Definition nl : string := String (ascii_of_nat 10) EmptyString.

(** [str.isspace()] on the code points below 256. *)
Definition isspace (c : ascii) : bool :=
  let n := nat_of_ascii c in
  ((9 <=? n) && (n <=? 13) || (28 <=? n) && (n <=? 32)
   || (n =? 133) || (n =? 160))%nat.

Fixpoint lstrip (s : string) : string :=
  match s with
  | String c s' => if isspace c then lstrip s' else s
  | EmptyString => EmptyString
  end.

(** [s.strip()] *)
Definition strip (s : string) : string :=
  String.rev (lstrip (String.rev (lstrip s))).

(** [s.endswith(suffix)] *)
Definition endswith (s suffix : string) : bool :=
  String.prefix (String.rev suffix) (String.rev s).

(** The part of [s] after its last occurrence of [sep], the whole of [s]
    when there is none; [acc] is the part read since the last [sep]. *)
Fixpoint after_last (sep : ascii) (acc : string) (s : string) : string :=
  match s with
  | EmptyString => String.rev acc
  | String c s' =>
      if Ascii.eqb c sep then after_last sep EmptyString s'
      else after_last sep (String c acc) s'
  end.

(** [os.path.basename(s)] *)
Definition basename (s : string) : string :=
  after_last "/"%char EmptyString s.

(** [needle in s] *)
Fixpoint contains (needle s : string) : bool :=
  String.prefix needle s ||
  match s with
  | EmptyString => false
  | String _ s' => contains needle s'
  end.

End Str.

(** ** Paths

    A [pathlib.Path] is its sequence of components.  An absolute path has
    the empty string as its first component, so that [str] puts the leading
    slash; the empty sequence is [Path('.')] and the sequence of the empty
    string alone is the root. *)

Abbreviation path := (list string).

Module Path.

(** [p / name], for a [name] that is one component. *)
Definition div (p : path) (name : string) : path := p ++ [name].

(** [p.parent]; the root is its own parent. *)
Definition parent (p : path) : path :=
  match p with
  | [""] => p
  | _ => removelast p
  end.

(** [str(p)] *)
Definition str (p : path) : string :=
  match p with
  | [] => "."
  | [""] => "/"
  | _ => String.concat "/" p
  end.

(** [p.name]: the last component, empty for [Path('.')] and for the
    root. *)
Definition name (p : path) : string := default "" (last p).

(** The index of the last ["."] of [s], counted from the left, when there
    is one ([s.rfind('.')]). *)
Fixpoint rfind_dot (s : string) : option nat :=
  match s with
  | EmptyString => None
  | String c s' =>
      match rfind_dot s' with
      | Some i => Some (S i)
      | None => if Ascii.eqb c "."%char then Some O else None
      end
  end.

(** A final component without its [PurePath.suffix], which goes from the
    last dot on unless that dot starts or ends the name. *)
Definition stem (name : string) : string :=
  match rfind_dot name with
  | Some i =>
      if ((0 <? i) && (i <? String.length name - 1))%nat
      then String.substring 0 i name
      else name
  | None => name
  end.

(** [p.with_suffix('')], which is a [ValueError] on an empty name. *)
Definition without_suffix (p : path) : option path :=
  if String.eqb (name p) "" then None
  else Some (removelast p ++ [stem (name p)]).

End Path.

Infix "//" := Path.div (at level 40, left associativity).

(** ** The file system *)

Inductive node :=
| Dir
| File (content : string).

Abbreviation filesystem := (gmap path node).

Module FS.

Definition exists_ (p : path) (fs : filesystem) : bool :=
  bool_decide (is_Some (fs !! p)).

(** [q] is [p] or lies below it. *)
Definition under (p : path) (q : path) : Prop := p `prefix_of` q.

(** The file system without [p] and what lies below it. *)
Definition remove_tree (p : path) (fs : filesystem) : filesystem :=
  filter (λ kv, ¬ under p kv.1) fs.

End FS.

(** ** Identifiers *)

Module UUID.

Definition hex_digit (n : N) : ascii :=
  default "0"%char (String.get (N.to_nat n) "0123456789abcdef").

(** The last [k] hexadecimal digits of [n], before [acc]. *)
Fixpoint hex (k : nat) (n : N) (acc : string) : string :=
  match k with
  | O => acc
  | S k' => hex k' (n / 16)%N (String (hex_digit (n mod 16)%N) acc)
  end.

(** [str(u)] for the UUID whose 128 bits are [n]: 32 hexadecimal digits in
    groups of 8, 4, 4, 4 and 12. *)
Definition str (n : N) : string :=
  let h := hex 32 n "" in
  String.substring 0 8 h +:+ "-" +:+ String.substring 8 4 h +:+ "-"
  +:+ String.substring 12 4 h +:+ "-" +:+ String.substring 16 4 h +:+ "-"
  +:+ String.substring 20 12 h.

End UUID.

(** ** External programs *)

(** How a call of [subprocess.run(..., capture_output=True, text=True)]
    ends: the process exits, the timeout expires, or the call raises another
    exception (the executable is not found, cannot be started, its output
    cannot be decoded), whose [str] is [msg]. *)
Inductive proc_outcome :=
| Completed (returncode : Z) (stdout stderr : string)
| TimedOut
| SpawnError (msg : string).

Record invocation := Invocation {
  args : list string;
  cwd : option path;
  timeout : Z
}.

(** The place in the source of a [subprocess.run]. *)
Inductive site :=
| find_which (command : string)
| check_which (command : string)
| check_version (command : string)
| compiler_pass (i : nat)
| bibliography_run
| pdfcrop_run
| pdftoppm_run
| imagemagick_run
| trim_run.

(** What a run leaves in its trace: the calls of [subprocess.run], each with
    its site, its arguments and the way it ended, and the entries into
    [_trim_png_inplace]. *)
Inductive event :=
| Run (s : site) (inv : invocation) (out : proc_outcome)
| TrimCalled (png_file : path).

#[global] Instance proc_outcome_eq_dec : EqDecision proc_outcome.
Proof. solve_decision. Defined.
#[global] Instance invocation_eq_dec : EqDecision invocation.
Proof. solve_decision. Defined.
#[global] Instance site_eq_dec : EqDecision site.
Proof. solve_decision. Defined.
#[global] Instance event_eq_dec : EqDecision event.
Proof. solve_decision. Defined.

(** What the code cannot decide: the behaviour of the external programs
    ([exec n inv fs] is the end of the [n]-th call of [subprocess.run] made
    since the start, and the file system it leaves), the 128 bits of the
    identifier drawn by [uuid.uuid4()], the scratch root, and the base64
    encoder. *)
Record environment := Environment {
  exec : nat → invocation → filesystem → proc_outcome * filesystem;
  uuid4 : N;
  TEMP_DIR : path;
  b64encode : string → string
}.

Record world := World {
  fs : filesystem;
  ticks : nat
}.

(** ** Computations *)

Inductive exn :=
| TimeoutExpired (cmd : list string) (seconds : Z)
| Exception (msg : string).

Inductive outcome (A : Type) :=
| Returns (a : A)
| Raises (e : exn).
Arguments Returns {A} a.
Arguments Raises {A} e.

Definition M (A : Type) : Type := world → outcome A * world * list event.

Definition ret {A} (a : A) : M A := λ w, (Returns a, w, []).

Definition raise {A} (e : exn) : M A := λ w, (Raises e, w, []).

Definition bind {A B} (c : M A) (k : A → M B) : M B :=
  λ w, match c w with
       | (Returns a, w', d) => let '(o, w'', d') := k a w' in (o, w'', d ++ d')
       | (Raises e, w', d) => (Raises e, w', d)
       end.

(** [try: c  except ...: h e] *)
Definition try_except {A} (c : M A) (h : exn → M A) : M A :=
  λ w, match c w with
       | (Returns a, w', d) => (Returns a, w', d)
       | (Raises e, w', d) => let '(o, w'', d') := h e w' in (o, w'', d ++ d')
       end.

(** What a run gives: its value, the world it leaves, the calls it made. *)
Definition value_of {A} (r : outcome A * world * list event) : outcome A := r.1.1.
Definition world_of {A} (r : outcome A * world * list event) : world := r.1.2.
Definition events_of {A} (r : outcome A * world * list event) : list event := r.2.

Notation "'let!' x ':=' c 'in' k" := (bind c (λ x, k))
  (at level 10, x pattern, c at level 100, k at level 200,
   format "'[v' 'let!'  x  ':='  c  'in' '/' k ']'").
Notation "c ';;' k" := (bind c (λ _, k))
  (at level 100, k at level 200, right associativity).

(** [str(e)] *)
Definition exn_str (e : exn) : string :=
  match e with
  | TimeoutExpired cmd seconds =>
      "Command '[" +:+ String.concat ", " ((λ a, "'" +:+ a +:+ "'") <$> cmd)
      +:+ "]' timed out after " +:+ pretty seconds +:+ " seconds"
  | Exception msg => msg
  end.

(** ** Primitives: [subprocess], [pathlib], [open], [shutil] *)

Record completed_process := CompletedProcess {
  returncode : Z;
  stdout : string;
  stderr : string
}.

Section Pipeline.

Context (E : environment).

(** [subprocess.run(cmd, cwd=cwd, capture_output=True, text=True,
    timeout=timeout)], made at site [s]. *)
Definition subprocess_run (s : site) (cmd : list string)
    (cwd : option path) (timeout : Z) : M completed_process :=
  λ w,
    let inv := Invocation cmd cwd timeout in
    let '(out, fs') := exec E (ticks w) inv (fs w) in
    let w' := World fs' (S (ticks w)) in
    match out with
    | Completed rc so se =>
        (Returns (CompletedProcess rc so se), w', [Run s inv out])
    | TimedOut => (Raises (TimeoutExpired cmd timeout), w', [Run s inv out])
    | SpawnError msg => (Raises (Exception msg), w', [Run s inv out])
    end.

Definition errno (n : string) (what : string) (p : path) : exn :=
  Exception ("[Errno " +:+ n +:+ "] " +:+ what +:+ ": '" +:+ Path.str p +:+ "'").

(** [p.exists()] *)
Definition path_exists (p : path) : M bool :=
  λ w, (Returns (FS.exists_ p (fs w)), w, []).

(** [p.mkdir(exist_ok=True)] *)
Definition mkdir_exist_ok (p : path) : M unit :=
  λ w,
    match fs w !! p with
    | Some Dir => (Returns (), w, [])
    | Some (File _) => (Raises (errno "17" "File exists" p), w, [])
    | None =>
        match fs w !! Path.parent p with
        | Some Dir => (Returns (), World (<[p := Dir]> (fs w)) (ticks w), [])
        | Some (File _) => (Raises (errno "20" "Not a directory" p), w, [])
        | None => (Raises (errno "2" "No such file or directory" p), w, [])
        end
    end.

(** [with open(p, 'w', encoding='utf-8') as f: f.write(content)] *)
Definition write_text (p : path) (content : string) : M unit :=
  λ w,
    match fs w !! p with
    | Some Dir => (Raises (errno "21" "Is a directory" p), w, [])
    | _ =>
        match fs w !! Path.parent p with
        | Some Dir =>
            (Returns (), World (<[p := File content]> (fs w)) (ticks w), [])
        | Some (File _) => (Raises (errno "20" "Not a directory" p), w, [])
        | None => (Raises (errno "2" "No such file or directory" p), w, [])
        end
    end.

(** [with open(p, 'rb') as f: f.read()] *)
Definition read_bytes (p : path) : M string :=
  λ w,
    match fs w !! p with
    | Some (File content) => (Returns content, w, [])
    | Some Dir => (Raises (errno "21" "Is a directory" p), w, [])
    | None => (Raises (errno "2" "No such file or directory" p), w, [])
    end.

(** [shutil.rmtree(p)] *)
Definition rmtree (p : path) : M unit :=
  λ w,
    match fs w !! p with
    | Some Dir => (Returns (), World (FS.remove_tree p (fs w)) (ticks w), [])
    | Some (File _) => (Raises (errno "20" "Not a directory" p), w, [])
    | None => (Raises (errno "2" "No such file or directory" p), w, [])
    end.

(** Puts an event in the trace. *)
Definition note (e : event) : M unit := λ w, (Returns (), w, [e]).

(** ** [find_command] and [check_command] *)

Definition find_command (command : string) : M string :=
  let! found :=
    try_except
      (let! result := subprocess_run (find_which command) ["which"; command] None 5 in
       if returncode result =? 0
       then ret (Some (Str.strip (stdout result)))
       else ret None)
      (λ _, ret None) in
  match found with
  | Some p => ret p
  | None => ret command
  end.

Definition check_command (command : string) : M bool :=
  try_except
    (let! result := subprocess_run (check_which command) ["which"; command] None 5 in
     if returncode result =? 0 then ret true
     else
       let! result := subprocess_run (check_version command) [command; "--version"] None 5 in
       ret (returncode result =? 0))
    (λ _, ret false).

(** ** [compile_latex] *)

Inductive compile_result :=
| CompileSuccess
| CompileFailure (error : string) (log : option string).

(** The body of [for i in range(passes)], over the indices still to run.
    [Some d] is a [return d] from inside the loop, [None] is the loop
    running to its end. *)
Fixpoint compile_latex_loop (tex_file : path) (use_biblatex : bool)
    (indices : list nat) : M (option compile_result) :=
  match indices with
  | [] => ret None
  | i :: indices' =>
      let temp_path := Path.parent tex_file in
      let! pdflatex_cmd := find_command "pdflatex" in
      let cmd := [pdflatex_cmd; "-interaction=nonstopmode"; Path.str tex_file] in
      let! result := subprocess_run (compiler_pass i) cmd (Some temp_path) 30 in
      if negb (returncode result =? 0)
      then ret (Some (CompileFailure "LaTeX compilation failed"
                        (Some (stdout result +:+ Str.nl +:+ stderr result))))
      else
        let! bib := if (i =? 0)%nat
                    then path_exists (temp_path // "references.bib")
                    else ret false in
        (if bib then
           let! bib_cmd :=
             if use_biblatex
             then let! biber_cmd := find_command "biber" in
                  ret [biber_cmd; "document"]
             else let! bibtex_cmd := find_command "bibtex" in
                  ret [bibtex_cmd; "document"] in
           let! bib_result := subprocess_run bibliography_run bib_cmd (Some temp_path) 30 in
           ret ()
         else ret ());;
        compile_latex_loop tex_file use_biblatex indices'
  end.

(** [range(n)] *)
Definition range (n : Z) : list nat := seq 0 (Z.to_nat n).

Definition compile_latex (tex_file : path) (passes : Z)
    (use_biblatex hide_warnings : bool) : M compile_result :=
  try_except
    (let! returned := compile_latex_loop tex_file use_biblatex (range passes) in
     match returned with
     | Some d => ret d
     | None => ret CompileSuccess
     end)
    (λ e,
       match e with
       | TimeoutExpired _ _ =>
           ret (CompileFailure "LaTeX compilation timed out" None)
       | Exception _ =>
           ret (CompileFailure ("Compilation error: " +:+ exn_str e) None)
       end).

(** ** [_trim_png_inplace] and [pdf_to_png] *)

Definition _trim_png_inplace (png_file : path) : M bool :=
  note (TrimCalled png_file);;
  try_except
    (let! magick := check_command "magick" in
     let! cmd :=
       if magick
       then let! c := find_command "magick" in
            ret (Some [c; Path.str png_file; "-trim"; "+repage"; Path.str png_file])
       else
         let! convert := check_command "convert" in
         if convert
         then let! c := find_command "convert" in
              ret (Some [c; Path.str png_file; "-trim"; "+repage"; Path.str png_file])
         else ret None in
     match cmd with
     | None => ret false
     | Some cmd => subprocess_run trim_run cmd None 20;; ret true
     end)
    (λ _, ret false).

Inductive convert_result :=
| ConvertSuccess
| ConvertFailure (error : string).

(** [p.with_suffix('')] *)
Definition with_suffix_empty (p : path) : M path :=
  match Path.without_suffix p with
  | Some q => ret q
  | None => raise (Exception ("PosixPath('" +:+ Path.str p +:+ "') has an empty name"))
  end.

(** Lines 213 to 241 of [pdf_to_png]: [pdftoppm], then ImageMagick, on the
    source that the crop step selected. *)
Definition rasterize (source_pdf png_file : path) (dpi : Z) (crop : bool)
    : M convert_result :=
  let! pdftoppm_cmd := find_command "pdftoppm" in
  let! stem_file := with_suffix_empty png_file in
  let cmd := [pdftoppm_cmd; "-png"; "-singlefile"; "-r"; pretty dpi;
              Path.str source_pdf; Path.str stem_file] in
  let! result := subprocess_run pdftoppm_run cmd None 30 in
  if returncode result =? 0 then
    (if crop && negb (Str.endswith (Path.str source_pdf) "document-cropped.pdf")
     then _trim_png_inplace png_file;; ret ()
     else ret ());;
    ret ConvertSuccess
  else
    let! has_convert := check_command "convert" in
    let! convert_cmd :=
      if has_convert then find_command "convert" else find_command "magick" in
    let cmd :=
      if String.eqb (Str.basename convert_cmd) "magick"
      then [convert_cmd; "-density"; pretty dpi; Path.str source_pdf; Path.str png_file]
      else [convert_cmd; "-density"; pretty dpi; Path.str source_pdf; Path.str png_file] in
    let! result := subprocess_run imagemagick_run cmd None 30 in
    if returncode result =? 0 then
      (if crop then _trim_png_inplace png_file;; ret () else ret ());;
      ret ConvertSuccess
    else
      ret (ConvertFailure
             ("Failed to convert PDF to PNG. pdftoppm result: "
              +:+ stderr result +:+ ", convert not available.")).

Definition pdf_to_png (pdf_file png_file : path) (dpi : Z) (crop : bool)
    : M convert_result :=
  try_except
    (let source_pdf := pdf_file in
     let! cropper := if crop then check_command "pdfcrop" else ret false in
     let! source_pdf :=
       if cropper then
         let cropped_pdf := Path.parent pdf_file // "document-cropped.pdf" in
         let! pdfcrop_cmd := find_command "pdfcrop" in
         let cmd := [pdfcrop_cmd; "--margins"; "3"; Path.str pdf_file; Path.str cropped_pdf] in
         subprocess_run pdfcrop_run cmd None 30;;
         let! made := path_exists cropped_pdf in
         ret (if made then cropped_pdf else source_pdf)
       else ret source_pdf in
     rasterize source_pdf png_file dpi crop)
    (λ e,
       match e with
       | TimeoutExpired _ _ => ret (ConvertFailure "PDF conversion timed out")
       | Exception _ => ret (ConvertFailure ("Conversion error: " +:+ exn_str e))
       end).

(** ** [readiness_report] *)

Record readiness := Readiness {
  ready : bool;
  tools : gmap string bool
}.

(** [d[k]] *)
Definition getitem (d : gmap string bool) (k : string) : M bool :=
  match d !! k with
  | Some v => ret v
  | None => raise (Exception ("'" +:+ k +:+ "'"))
  end.

Definition readiness_report : M readiness :=
  let! pdflatex := check_command "pdflatex" in
  let! biber := check_command "biber" in
  let! bibtex := check_command "bibtex" in
  let! pdftoppm := check_command "pdftoppm" in
  let! convert := check_command "convert" in
  let! convert := if convert then ret convert else check_command "magick" in
  let! pdfcrop := check_command "pdfcrop" in
  let tools : gmap string bool :=
    <["pdfcrop" := pdfcrop]> (<["convert" := convert]> (<["pdftoppm" := pdftoppm]>
    (<["bibtex" := bibtex]> (<["biber" := biber]> (<["pdflatex" := pdflatex]> ∅))))) in
  let! t_pdflatex := getitem tools "pdflatex" in
  let! verdict :=
    if t_pdflatex then
      let! t_pdftoppm := getitem tools "pdftoppm" in
      if t_pdftoppm then ret t_pdftoppm else getitem tools "convert"
    else ret t_pdflatex in
  ret (Readiness verdict tools).

(** ** [render_snippet] *)

Definition BASE_PREAMBLE : string := "
\documentclass[11pt]{article}
\usepackage[margin=0.5in]{geometry}
\usepackage{amsmath,amsfonts,amssymb}
\usepackage{siunitx}
\usepackage{booktabs}
\usepackage{graphicx}
\usepackage{float}
\usepackage[hidelinks]{hyperref}
\usepackage{microtype}
".

(** The truth value of an optional string: [None] and [''] are false. *)
Definition truthy (v : option string) : bool :=
  match v with
  | Some s => negb (String.eqb s "")
  | None => false
  end.

Inductive render_result :=
| RenderSuccess (image_data temp_id : string)
| RenderFailure (error : string) (log : option string).

Record workspace := Workspace {
  temp_id : string;
  temp_path : path;
  tex_file : path
}.

(** Lines 49 to 87 of [render_snippet]: the scratch directory, the
    document and the bibliography file. *)
Definition prepare_workspace (body preamble_extra : string)
    (bib_entries : option string) (use_biblatex : bool) : M workspace :=
  let temp_id := UUID.str (uuid4 E) in
  let temp_path := TEMP_DIR E // temp_id in
  mkdir_exist_ok temp_path;;
  let full_preamble := BASE_PREAMBLE +:+ Str.nl +:+ preamble_extra in
  let '(full_preamble, bib_command) :=
    if truthy bib_entries then
      if use_biblatex then
        (full_preamble +:+ "
\usepackage[style=numeric]{biblatex}" +:+ "
\addbibresource{references.bib}", "\printbibliography")
      else
        (full_preamble +:+ "
\usepackage{natbib}", "\bibliography{references}")
    else (full_preamble, "") in
  let latex_content := "
" +:+ full_preamble +:+ "

\begin{document}
" +:+ body +:+ "
" +:+ bib_command +:+ "
\end{document}
" in
  let tex_file := temp_path // "document.tex" in
  write_text tex_file latex_content;;
  (if truthy bib_entries then
     let bib_file := temp_path // "references.bib" in
     write_text bib_file (default "" bib_entries)
   else ret ());;
  ret (Workspace temp_id temp_path tex_file).

Definition render_snippet (body preamble_extra : string)
    (sanitize_graphics : bool) (passes : Z) (bib_entries : option string)
    (use_biblatex hide_warnings : bool) : M render_result :=
  try_except
    (let! ws := prepare_workspace body preamble_extra bib_entries use_biblatex in
     let! compile_result :=
       compile_latex (tex_file ws) passes use_biblatex hide_warnings in
     match compile_result with
     | CompileFailure error log =>
         ret (RenderFailure error (Some (default "" log)))
     | CompileSuccess =>
         let pdf_file := temp_path ws // "document.pdf" in
         let png_file := temp_path ws // "document.png" in
         let! convert_result := pdf_to_png pdf_file png_file 300 true in
         match convert_result with
         | ConvertFailure error => ret (RenderFailure error None)
         | ConvertSuccess =>
             let! data := read_bytes png_file in
             let png_data := b64encode E data in
             rmtree (temp_path ws);;
             ret (RenderSuccess png_data (temp_id ws))
         end
     end)
    (λ e, ret (RenderFailure ("Unexpected error: " +:+ exn_str e) None)).

(** ** [api_compile] *)

(** The JSON object of a request; [None] is an absent key. *)
Record request_data := RequestData {
  j_body : option string;
  j_preamble_extra : option string;
  j_sanitize_graphics : option bool;
  j_passes : option Z;
  j_bib_entries : option string;
  j_use_biblatex : option bool;
  j_hide_warnings : option bool
}.

(** The response and its HTTP status. *)
Definition api_compile (data : option request_data) : M (render_result * Z) :=
  match data with
  | Some {| j_body := Some body; j_preamble_extra := pe; j_sanitize_graphics := sg;
            j_passes := ps; j_bib_entries := be; j_use_biblatex := ub;
            j_hide_warnings := hw |} =>
      let! result :=
        render_snippet body (default "" pe) (default true sg) (default 1 ps)
          be (default false ub) (default false hw) in
      ret (result, 200)
  | _ => ret (RenderFailure "Missing 'body' parameter" None, 400)
  end.

(** What [request.get_json()] can give: any JSON value.  Of a number only
    its kind and whether it is zero matter here; an object is taken with
    fields of the types that [render_snippet] expects, as in
    [request_data]. *)
#[warnings="-register-all"]
Inductive json :=
| J_null
| J_bool (b : bool)
| J_int (n : Z)
| J_float (zero : bool)
| J_string (s : string)
| J_array (items : list json)
| J_object (d : request_data).

(** [type(v).__name__] *)
Definition type_name (v : json) : string :=
  match v with
  | J_null => "NoneType"
  | J_bool _ => "bool"
  | J_int _ => "int"
  | J_float _ => "float"
  | J_string _ => "str"
  | J_array _ => "list"
  | J_object _ => "dict"
  end.

(** [bool(v)], for a value that is not an object. *)
Definition json_truthy (v : json) : bool :=
  match v with
  | J_null => false
  | J_bool b => b
  | J_int n => negb (n =? 0)
  | J_float zero => negb zero
  | J_string s => negb (String.eqb s "")
  | J_array items => match items with [] => false | _ :: _ => true end
  | J_object _ => true
  end.

(** [v == 'body'] *)
Definition is_body_key (v : json) : bool :=
  match v with
  | J_string s => String.eqb s "body"
  | _ => false
  end.

(** ['body' in v]: a substring of a string, a member of an array, a key of
    an object; a [TypeError] for the rest. *)
Definition has_body (v : json) : M bool :=
  match v with
  | J_string s => ret (Str.contains "body" s)
  | J_array items => ret (existsb is_body_key items)
  | J_object d => ret (bool_decide (is_Some (j_body d)))
  | _ => raise (Exception ("argument of type '" +:+ type_name v +:+ "' is not iterable"))
  end.

(** [v['body']], for a value that is not an object: a [TypeError]. *)
Definition get_body (v : json) : M string :=
  match v with
  | J_string _ => raise (Exception "string indices must be integers, not 'str'")
  | J_array _ => raise (Exception "list indices must be integers or slices, not str")
  | _ => raise (Exception ("'" +:+ type_name v +:+ "' object is not subscriptable"))
  end.

(** [api_compile], from what [request.get_json()] gives or raises (Flask
    raises there when the request is not JSON).  The test [not data or
    'body' not in data] and the reads [data['body']] and [data.get(...)] are
    those of Python on the value at hand; for an object the rest is
    [api_compile] above. *)
Definition api_compile_payload (request : outcome json) : M (render_result * Z) :=
  match request with
  | Raises e => raise e
  | Returns (J_object d) => api_compile (Some d)
  | Returns data =>
      let! missing :=
        if negb (json_truthy data) then ret true
        else let! has := has_body data in ret (negb has) in
      if missing then ret (RenderFailure "Missing 'body' parameter" None, 400)
      else
        get_body data;;
        raise (Exception ("'" +:+ type_name data +:+ "' object has no attribute 'get'"))
  end.

End Pipeline.

(** * Reasoning about runs *)

(** [sat c w Q]: the run of [c] from [w] ends in a value or exception, a
    world and a list of events that satisfy [Q]. *)
Definition sat {A} (c : M A) (w : world)
    (Q : outcome A → world → list event → Prop) : Prop :=
  Q (value_of (c w)) (world_of (c w)) (events_of (c w)).

(** The value or exception of a call of [subprocess.run] that ends in
    [out]. *)
Definition reply (cmd : list string) (timeout : Z) (out : proc_outcome)
    : outcome completed_process :=
  match out with
  | Completed rc so se => Returns (CompletedProcess rc so se)
  | TimedOut => Raises (TimeoutExpired cmd timeout)
  | SpawnError msg => Raises (Exception msg)
  end.

(** The path [find_command] gives for [command] when its [which] ends in
    [out]. *)
Definition resolved (command : string) (out : proc_outcome) : string :=
  match out with
  | Completed rc so _ => if rc =? 0 then Str.strip so else command
  | _ => command
  end.

(** The calls made by [find_command] and [check_command]. *)
Definition is_probe (e : event) : bool :=
  match e with
  | Run (find_which _) _ _ | Run (check_which _) _ _ | Run (check_version _) _ _ => true
  | _ => false
  end.

(** A property of file systems that no external program breaks. *)
Definition stable (E : environment) (I : filesystem → Prop) : Prop :=
  ∀ n inv fs, I fs → I (exec E n inv fs).2.

(** [w'] comes after [w]: more calls were made, and what the external
    programs keep was kept. *)
Definition evolves (E : environment) (w w' : world) : Prop :=
  (ticks w ≤ ticks w')%nat ∧ ∀ I, stable E I → I (fs w) → I (fs w').

(** ** The calls that matter

    [find_command], [check_command] and the ImageMagick call inside
    [_trim_png_inplace] are auxiliary; the other events are the steps of
    the pipeline. *)
Definition is_aux (e : event) : bool :=
  is_probe e || match e with Run trim_run _ _ => true | _ => false end.

(** The events of [d] that are not auxiliary, in order. *)
Definition main_events (d : list event) : list event :=
  List.filter (λ e, negb (is_aux e)) d.

(** The process ran and exited. *)
Definition completed (out : proc_outcome) : bool :=
  match out with Completed _ _ _ => true | _ => false end.

(** The error that [pdf_to_png] reports when a call it makes ends in [out]
    without exiting. *)
Definition conversion_error (out : proc_outcome) : string :=
  match out with
  | SpawnError msg => "Conversion error: " +:+ msg
  | _ => "PDF conversion timed out"
  end.

(** The call of [pdftoppm] that [pdf_to_png] makes for an output path with
    a name. *)
Definition pdftoppm_call (cmd : string) (dpi : Z) (source_pdf png_file : path) : invocation :=
  Invocation [cmd; "-png"; "-singlefile"; "-r"; pretty dpi; Path.str source_pdf;
              Path.str (default png_file (Path.without_suffix png_file))] None 30.

(** The error that [pdf_to_png] reports for an output path without a
    name. *)
Definition no_name_error (png_file : path) : string :=
  "Conversion error: PosixPath('" +:+ Path.str png_file +:+ "') has an empty name".

(** The call of ImageMagick that [pdf_to_png] makes. *)
Definition imagemagick_call (cmd : string) (dpi : Z) (source_pdf png_file : path) : invocation :=
  Invocation [cmd; "-density"; pretty dpi; Path.str source_pdf; Path.str png_file] None 30.

(** The file that [pdfcrop] is asked to write. *)
Definition cropped_of (pdf_file : path) : path :=
  Path.parent pdf_file // "document-cropped.pdf".




(** The ways the vector-crop step of [pdf_to_png] can go when it does not
    raise, with the events it leaves and the source it selects for the
    rasterizer: skipped (no crop wanted, or no [pdfcrop]), or run, after
    which the source is the cropped file if it exists and the original
    otherwise. *)
Inductive crop_step (pdf_file : path) (crop : bool) : list event → path → Prop :=
| crop_skipped :
    crop_step pdf_file crop [] pdf_file
| crop_ran inv rc so se source_pdf :
    crop = true →
    source_pdf = pdf_file ∨ source_pdf = cropped_of pdf_file →
    crop_step pdf_file crop [Run pdfcrop_run inv (Completed rc so se)] source_pdf.

(** The ways a run of [pdf_to_png] can go: its result and its main events. *)
Inductive conversion (pdf_file png_file : path) (dpi : Z) (crop : bool)
    : convert_result → list event → Prop :=
| conv_crop_raised inv out :
    crop = true → completed out = false →
    conversion pdf_file png_file dpi crop
      (ConvertFailure (conversion_error out)) [Run pdfcrop_run inv out]
| conv_no_name pre source :
    crop_step pdf_file crop pre source → Path.without_suffix png_file = None →
    conversion pdf_file png_file dpi crop
      (ConvertFailure (no_name_error png_file)) pre
| conv_primary_raised pre source cmd out :
    crop_step pdf_file crop pre source → completed out = false →
    conversion pdf_file png_file dpi crop
      (ConvertFailure (conversion_error out))
      (pre ++ [Run pdftoppm_run (pdftoppm_call cmd dpi source png_file) out])
| conv_primary_done pre source cmd so se :
    crop_step pdf_file crop pre source →
    conversion pdf_file png_file dpi crop
      ConvertSuccess
      (pre ++ Run pdftoppm_run (pdftoppm_call cmd dpi source png_file) (Completed 0 so se)
           :: (if crop && negb (Str.endswith (Path.str source) "document-cropped.pdf")
               then [TrimCalled png_file] else []))
| conv_fallback_raised pre source cmd rc so se cmd' out :
    crop_step pdf_file crop pre source → rc ≠ 0 → completed out = false →
    conversion pdf_file png_file dpi crop
      (ConvertFailure (conversion_error out))
      (pre ++ [Run pdftoppm_run (pdftoppm_call cmd dpi source png_file) (Completed rc so se);
               Run imagemagick_run (imagemagick_call cmd' dpi source png_file) out])
| conv_fallback_done pre source cmd rc so se cmd' so' se' :
    crop_step pdf_file crop pre source → rc ≠ 0 →
    conversion pdf_file png_file dpi crop
      ConvertSuccess
      (pre ++ Run pdftoppm_run (pdftoppm_call cmd dpi source png_file) (Completed rc so se)
           :: Run imagemagick_run (imagemagick_call cmd' dpi source png_file) (Completed 0 so' se')
           :: (if crop then [TrimCalled png_file] else []))
| conv_fallback_failed pre source cmd rc so se cmd' rc' so' se' :
    crop_step pdf_file crop pre source → rc ≠ 0 → rc' ≠ 0 →
    conversion pdf_file png_file dpi crop
      (ConvertFailure ("Failed to convert PDF to PNG. pdftoppm result: "
                       +:+ se' +:+ ", convert not available."))
      (pre ++ [Run pdftoppm_run (pdftoppm_call cmd dpi source png_file) (Completed rc so se);
               Run imagemagick_run (imagemagick_call cmd' dpi source png_file)
                 (Completed rc' so' se')]).

(** The exception that a call [inv] raises when it ends in [out]. *)
Definition exception_of (inv : invocation) (out : proc_outcome) : option exn :=
  match out with
  | Completed _ _ _ => None
  | TimedOut => Some (TimeoutExpired (args inv) (timeout inv))
  | SpawnError msg => Some (Exception msg)
  end.

(** The ways a run of [rasterize] can go: its value or exception and its
    main events. *)
Inductive rasterization (source png_file : path) (dpi : Z) (crop : bool)
    : outcome convert_result → list event → Prop :=
| rast_no_name :
    Path.without_suffix png_file = None →
    rasterization source png_file dpi crop
      (Raises (Exception ("PosixPath('" +:+ Path.str png_file +:+ "') has an empty name")))
      []
| rast_primary_raised cmd out e :
    exception_of (pdftoppm_call cmd dpi source png_file) out = Some e →
    rasterization source png_file dpi crop
      (Raises e) [Run pdftoppm_run (pdftoppm_call cmd dpi source png_file) out]
| rast_primary_done cmd so se :
    rasterization source png_file dpi crop
      (Returns ConvertSuccess)
      (Run pdftoppm_run (pdftoppm_call cmd dpi source png_file) (Completed 0 so se)
       :: (if crop && negb (Str.endswith (Path.str source) "document-cropped.pdf")
           then [TrimCalled png_file] else []))
| rast_fallback_raised cmd rc so se cmd' out e :
    rc ≠ 0 →
    exception_of (imagemagick_call cmd' dpi source png_file) out = Some e →
    rasterization source png_file dpi crop
      (Raises e)
      [Run pdftoppm_run (pdftoppm_call cmd dpi source png_file) (Completed rc so se);
       Run imagemagick_run (imagemagick_call cmd' dpi source png_file) out]
| rast_fallback_done cmd rc so se cmd' so' se' :
    rc ≠ 0 →
    rasterization source png_file dpi crop
      (Returns ConvertSuccess)
      (Run pdftoppm_run (pdftoppm_call cmd dpi source png_file) (Completed rc so se)
       :: Run imagemagick_run (imagemagick_call cmd' dpi source png_file) (Completed 0 so' se')
       :: (if crop then [TrimCalled png_file] else []))
| rast_fallback_failed cmd rc so se cmd' rc' so' se' :
    rc ≠ 0 → rc' ≠ 0 →
    rasterization source png_file dpi crop
      (Returns (ConvertFailure ("Failed to convert PDF to PNG. pdftoppm result: "
                                +:+ se' +:+ ", convert not available.")))
      [Run pdftoppm_run (pdftoppm_call cmd dpi source png_file) (Completed rc so se);
       Run imagemagick_run (imagemagick_call cmd' dpi source png_file)
         (Completed rc' so' se')].

(** ** Concrete worlds

    External programs that follow a script: the [n]-th call of
    [subprocess.run] ends as the [n]-th entry says and changes the file
    system as it says; past the end of the script no program can be
    started. *)
Definition scripted (script : list (proc_outcome * (filesystem → filesystem)))
    : nat → invocation → filesystem → proc_outcome * filesystem :=
  λ n _ fs,
    match script !! n with
    | Some (out, effect) => (out, effect fs)
    | None => (SpawnError "[Errno 2] No such file or directory", fs)
    end.

Definition scratch_root : path := [""; "srv"; "temp"].

Definition scripted_env (script : list (proc_outcome * (filesystem → filesystem)))
    : environment :=
  Environment (scripted script) 2910 scratch_root (λ s, s).

Definition ws_id : string := "00000000-0000-0000-0000-000000000b5e".

(** A world with the scratch root and nothing else. *)
Definition empty_world : world := World {[ scratch_root := Dir ]} 0.

Definition found (p : string) : proc_outcome * (filesystem → filesystem) :=
  (Completed 0 (p +:+ Str.nl) "", λ fs, fs).

Definition exits (rc : Z) (so se : string) : proc_outcome * (filesystem → filesystem) :=
  (Completed rc so se, λ fs, fs).

(** [which] finds nothing. *)
Definition not_found : proc_outcome * (filesystem → filesystem) := exits 1 "" "".

(** The program is not installed: [subprocess.run] raises
    [FileNotFoundError]. *)
Definition missing (p : string) : proc_outcome * (filesystem → filesystem) :=
  (SpawnError ("[Errno 2] No such file or directory: '" +:+ p +:+ "'"), λ fs, fs).

Definition writes (p : path) (content : string) : proc_outcome * (filesystem → filesystem) :=
  (Completed 0 "" "", λ fs, <[p := File content]> fs).

(** The program does not come back within its timeout. *)
Definition hangs : proc_outcome * (filesystem → filesystem) := (TimedOut, λ fs, fs).

Definition ws_dir : path := scratch_root // ws_id.
Definition ws_pdf : path := ws_dir // "document.pdf".
Definition ws_png : path := ws_dir // "document.png".
Definition ws_tex : path := ws_dir // "document.tex".
Definition ws_bib : path := ws_dir // "references.bib".

(** A workspace in which a compiled document waits to be rasterized. *)
Definition compiled_world : world :=
  World (<[ws_pdf := File "%PDF"]> (<[ws_dir := Dir]> {[ scratch_root := Dir ]})) 0.

(** [pdfcrop] is found and runs, but exits with an error and leaves no
    cropped file; [pdftoppm] then succeeds, and ImageMagick trims the
    image. *)
Definition crop_fails_env : environment :=
  scripted_env
    [ found "/usr/bin/pdfcrop";                  (* check_command: which pdfcrop *)
      found "/usr/bin/pdfcrop";                  (* find_command: which pdfcrop *)
      exits 1 "" "pdfcrop: ghostscript missing"; (* pdfcrop *)
      found "/usr/bin/pdftoppm";                 (* find_command: which pdftoppm *)
      writes ws_png "PNG";                       (* pdftoppm *)
      found "/usr/bin/magick";                   (* check_command: which magick *)
      found "/usr/bin/magick";                   (* find_command: which magick *)
      writes ws_png "PNG, trimmed" ].            (* magick -trim *)

(** No [pdfcrop]; [pdftoppm] writes the image. *)
Definition primary_only_env : environment :=
  scripted_env
    [ not_found;                                 (* check_command: which pdfcrop *)
      missing "pdfcrop";                         (* check_command: pdfcrop --version *)
      found "/usr/bin/pdftoppm";                 (* find_command: which pdftoppm *)
      writes ws_png "PNG" ].                     (* pdftoppm *)

(** The workspace of [compiled_world], with a cropped file of an earlier
    run beside the document. *)
Definition stale_crop_world : world :=
  World (<[ws_dir // "document-cropped.pdf" := File "%PDF, older"]> (fs compiled_world)) 0.

(** [pdfcrop] writes the cropped file, [pdftoppm] exits with status 1, and
    ImageMagick's [convert] then writes the image. *)
Definition fallback_env : environment :=
  scripted_env
    [ found "/usr/bin/pdfcrop";                  (* check_command: which pdfcrop *)
      found "/usr/bin/pdfcrop";                  (* find_command: which pdfcrop *)
      writes (ws_dir // "document-cropped.pdf") "%PDF"; (* pdfcrop *)
      found "/usr/bin/pdftoppm";                 (* find_command: which pdftoppm *)
      exits 1 "" "Syntax Error";                 (* pdftoppm *)
      found "/usr/bin/convert";                  (* check_command: which convert *)
      found "/usr/bin/convert";                  (* find_command: which convert *)
      writes ws_png "PNG";                       (* convert *)
      not_found;                                 (* check_command: which magick *)
      missing "magick";                          (* check_command: magick --version *)
      found "/usr/bin/convert";                  (* check_command: which convert *)
      found "/usr/bin/convert";                  (* find_command: which convert *)
      exits 0 "" "" ].                           (* convert -trim *)

(** Neither [pdfcrop] nor a rasterizer is installed. *)
Definition no_rasterizer_env : environment :=
  scripted_env
    [ not_found;                                 (* check_command: which pdfcrop *)
      missing "pdfcrop";                         (* check_command: pdfcrop --version *)
      not_found;                                 (* find_command: which pdftoppm *)
      missing "pdftoppm" ].                      (* pdftoppm *)

(** From the words of the specification: the error of a conversion failure
    names the attempted tools.  Every rasterizer that [pdf_to_png] tried to
    run among the calls [d] is named in [error]: [pdftoppm] by its name,
    ImageMagick by one of its two names. *)
Definition names_attempted_tools (error : string) (d : list event) : bool :=
  forallb (λ e,
             match e with
             | Run pdftoppm_run _ _ => Str.contains "pdftoppm" error
             | Run imagemagick_run _ _ =>
                 Str.contains "convert" error || Str.contains "magick" error
             | _ => true
             end) d.

(** No [pdfcrop]; [pdftoppm] exits with status 1; ImageMagick is not
    installed under either name. *)
Definition fallback_missing_env : environment :=
  scripted_env
    [ not_found;                                 (* check_command: which pdfcrop *)
      missing "pdfcrop";                         (* check_command: pdfcrop --version *)
      found "/usr/bin/pdftoppm";                 (* find_command: which pdftoppm *)
      exits 1 "" "Syntax Error";                 (* pdftoppm *)
      not_found;                                 (* check_command: which convert *)
      missing "convert";                         (* check_command: convert --version *)
      not_found;                                 (* find_command: which magick *)
      missing "magick" ].                        (* magick *)

(** No [pdfcrop]; [pdftoppm] does not come back within its 30 seconds. *)
Definition pdftoppm_hangs_env : environment :=
  scripted_env
    [ not_found;                                 (* check_command: which pdfcrop *)
      missing "pdfcrop";                         (* check_command: pdfcrop --version *)
      found "/usr/bin/pdftoppm";                 (* find_command: which pdftoppm *)
      hangs ].                                   (* pdftoppm *)

(** ** The runs of [compile_latex] *)

(** A call made by [find_command]. *)
Definition is_find (e : event) : Prop :=
  ∃ command out, e = Run (find_which command) (Invocation ["which"; command] None 5) out.

(** What follows a compiler pass that exited with status zero: nothing, or
    (after pass 0 only) a bibliography run that exited, with whatever
    status. *)
Inductive bib_step : nat → list event → Prop :=
| bib_skipped i :
    bib_step i []
| bib_ran f inv rc so se :
    is_find f →
    bib_step 0 [f; Run bibliography_run inv (Completed rc so se)].

(** The ways a run of the loop of [compile_latex] over [indices] can go:
    what it returns or raises, and the calls it makes. *)
Inductive loop_run : list nat → outcome (option compile_result) → list event → Prop :=
| loop_end :
    loop_run [] (Returns None) []
| loop_pass_raised i rest f inv out e :
    is_find f → exception_of inv out = Some e →
    loop_run (i :: rest) (Raises e) [f; Run (compiler_pass i) inv out]
| loop_pass_failed i rest f inv rc so se :
    is_find f → rc ≠ 0 →
    loop_run (i :: rest)
      (Returns (Some (CompileFailure "LaTeX compilation failed"
                        (Some (so +:+ Str.nl +:+ se)))))
      [f; Run (compiler_pass i) inv (Completed rc so se)]
| loop_bib_raised rest f inv so se f' inv' out e :
    is_find f → is_find f' → exception_of inv' out = Some e →
    loop_run (0%nat :: rest) (Raises e)
      [f; Run (compiler_pass 0) inv (Completed 0 so se);
       f'; Run bibliography_run inv' out]
| loop_pass_done i rest f inv so se bibs o d :
    is_find f → bib_step i bibs → loop_run rest o d →
    loop_run (i :: rest) o
      (f :: Run (compiler_pass i) inv (Completed 0 so se) :: bibs ++ d).

(** The result that [compile_latex] makes of the end of its loop. *)
Definition compile_outcome (o : outcome (option compile_result)) : compile_result :=
  match o with
  | Returns None => CompileSuccess
  | Returns (Some d) => d
  | Raises (TimeoutExpired _ _) => CompileFailure "LaTeX compilation timed out" None
  | Raises (Exception msg) => CompileFailure ("Compilation error: " +:+ msg) None
  end.

(** A compiler pass that exited with a non-zero status. *)
Definition failed_pass (e : event) : Prop :=
  ∃ i inv rc so se, rc ≠ 0 ∧ e = Run (compiler_pass i) inv (Completed rc so se).

(** From the words of the specification: the log text holds the standard
    output and the standard error of every compiler pass that ran. *)
Definition covers_passes (log : string) (d : list event) : Prop :=
  ∀ i inv rc so se,
    Run (compiler_pass i) inv (Completed rc so se) ∈ d →
    Str.contains so log = true ∧ Str.contains se log = true.

(** A workspace with its document written. *)
Definition written_world : world :=
  World (<[ws_tex := File "\documentclass{article}"]>
           (<[ws_dir := Dir]> {[ scratch_root := Dir ]})) 0.

(** Two passes: the first succeeds, the second fails. *)
Definition second_pass_fails_env : environment :=
  scripted_env
    [ found "/usr/bin/pdflatex";                         (* which pdflatex *)
      exits 0 "pass 0: 1 page" "pass 0: label changed";  (* pdflatex, pass 0 *)
      found "/usr/bin/pdflatex";                         (* which pdflatex *)
      exits 1 "pass 1: ! Undefined control sequence." "pass 1: fatal" ].
                                                         (* pdflatex, pass 1 *)

(** The environment [E] with the exit status of its [k]-th call replaced by
    [rc]: the call ends the same way, prints the same and does the same to
    the file system, but if it exits, it exits with status [rc]. *)
Definition with_status (k : nat) (rc : Z) (E : environment) : environment :=
  Environment
    (λ n inv fs,
       let r := exec E n inv fs in
       if (n =? k)%nat
       then (match r.1 with
             | Completed _ so se => Completed rc so se
             | out => out
             end, r.2)
       else r)
    (uuid4 E) (TEMP_DIR E) (b64encode E).

(** [c'] is [c] run against external programs that behave the same from the
    [n0]-th call on: from any world that is at least that far, both run the
    same way, and leave a world that is at least that far. *)
Definition agrees {A} (E E' : environment) (n0 : nat) (c c' : M A) : Prop :=
  ∀ w, (n0 ≤ ticks w)%nat → c' w = c w ∧ (n0 ≤ ticks (world_of (c w)))%nat.

Definition agree_from (E E' : environment) (n0 : nat) : Prop :=
  ∀ n inv fs, (n0 ≤ n)%nat → exec E' n inv fs = exec E n inv fs.

(** Two runs that end with the same value or exception in the same world;
    the calls they made may differ. *)
Definition similar {A} (r r' : outcome A * world * list event) : Prop :=
  value_of r = value_of r' ∧ world_of r = world_of r'.

(** The number of bibliography runs among the calls [d]. *)
Definition is_bibliography_run (e : event) : bool :=
  match e with Run bibliography_run _ _ => true | _ => false end.

Definition bibliography_runs (d : list event) : nat :=
  length (List.filter is_bibliography_run d).

(** A workspace with its document and its bibliography file written. *)
Definition cited_world : world :=
  World (<[ws_bib := File "@book{knuth84}"]>
           (<[ws_tex := File "\documentclass{article}"]>
              (<[ws_dir := Dir]> {[ scratch_root := Dir ]}))) 0.

(** Two passes with a bibliography: [bibtex] exits with status 2, both
    compiler passes succeed. *)
Definition bibtex_fails_env : environment :=
  scripted_env
    [ found "/usr/bin/pdflatex";                        (* which pdflatex *)
      exits 0 "pass 0" "";                              (* pdflatex, pass 0 *)
      found "/usr/bin/bibtex";                          (* which bibtex *)
      exits 2 "" "I couldn't open database file";       (* bibtex *)
      found "/usr/bin/pdflatex";                        (* which pdflatex *)
      writes ws_pdf "%PDF" ].                           (* pdflatex, pass 1 *)

(** The first pass fails. *)
Definition first_pass_fails_env : environment :=
  scripted_env
    [ found "/usr/bin/pdflatex";                        (* which pdflatex *)
      exits 1 "! Undefined control sequence." "" ].     (* pdflatex, pass 0 *)

(** One pass that succeeds, no [pdfcrop], a [pdftoppm] that writes the
    image, no ImageMagick. *)
Definition all_well_env : environment :=
  scripted_env
    [ found "/usr/bin/pdflatex";      (* find_command: which pdflatex *)
      writes ws_pdf "%PDF";           (* pdflatex, pass 0 *)
      not_found;                      (* check_command: which pdfcrop *)
      missing "pdfcrop";              (* check_command: pdfcrop --version *)
      found "/usr/bin/pdftoppm";      (* find_command: which pdftoppm *)
      writes ws_png "PNG";            (* pdftoppm *)
      not_found;                      (* check_command: which magick *)
      missing "magick";               (* check_command: magick --version *)
      not_found;                      (* check_command: which convert *)
      missing "convert" ].            (* check_command: convert --version *)

(** The document compiles, and no rasterizer is installed. *)
Definition compiles_only_env : environment :=
  scripted_env
    [ found "/usr/bin/pdflatex";      (* find_command: which pdflatex *)
      writes ws_pdf "%PDF";           (* pdflatex, pass 0 *)
      not_found;                      (* check_command: which pdfcrop *)
      missing "pdfcrop";              (* check_command: pdfcrop --version *)
      not_found;                      (* find_command: which pdftoppm *)
      missing "pdftoppm" ].           (* pdftoppm *)

(** The document compiles and [pdftoppm] exits with status zero, but writes
    no image. *)
Definition no_image_env : environment :=
  scripted_env
    [ found "/usr/bin/pdflatex";      (* find_command: which pdflatex *)
      writes ws_pdf "%PDF";           (* pdflatex, pass 0 *)
      not_found;                      (* check_command: which pdfcrop *)
      missing "pdfcrop";              (* check_command: pdfcrop --version *)
      found "/usr/bin/pdftoppm";      (* find_command: which pdftoppm *)
      exits 0 "" "";                  (* pdftoppm *)
      not_found;                      (* check_command: which magick *)
      missing "magick";               (* check_command: magick --version *)
      not_found;                      (* check_command: which convert *)
      missing "convert" ].            (* check_command: convert --version *)

(** ** The probes of [check_command] *)

Definition which_call (command : string) : invocation :=
  Invocation ["which"; command] None 5.

Definition version_call (command : string) : invocation :=
  Invocation [command; "--version"] None 5.

(** The process ran and exited with status zero. *)
Definition exit_zero (out : proc_outcome) : bool :=
  match out with
  | Completed rc _ _ => rc =? 0
  | _ => false
  end.

(** The ways a run of [check_command command] can go: its answer and its
    calls. *)
Inductive probed (command : string) : bool → list event → Prop :=
| probed_which_raised out :
    completed out = false →
    probed command false [Run (check_which command) (which_call command) out]
| probed_found so se :
    probed command true
      [Run (check_which command) (which_call command) (Completed 0 so se)]
| probed_version rc so se out :
    rc ≠ 0 →
    probed command (exit_zero out)
      [Run (check_which command) (which_call command) (Completed rc so se);
       Run (check_version command) (version_call command) out].

(** One of the two probes of [command] in [d] exited with status zero. *)
Definition available (command : string) (d : list event) : Prop :=
  ∃ so se,
    Run (check_which command) (which_call command) (Completed 0 so se) ∈ d ∨
    Run (check_version command) (version_call command) (Completed 0 so se) ∈ d.

(** ** The runs of [_trim_png_inplace] *)

Definition trim_call (cmd : string) (png_file : path) : invocation :=
  Invocation [cmd; Path.str png_file; "-trim"; "+repage"; Path.str png_file] None 20.

(** [f] is the call of [find_command command], and [cmd] what it gave: the
    stripped output of [which], or the bare name. *)
Definition found_by (command : string) (f : event) (cmd : string) : Prop :=
  ∃ out, f = Run (find_which command) (which_call command) out ∧
         cmd = resolved command out.

Inductive trimmed (png_file : path) : bool → list event → Prop :=
| trimmed_magick dm f cmd out :
    probed "magick" true dm → found_by "magick" f cmd →
    trimmed png_file (completed out)
      (TrimCalled png_file :: dm ++ [f; Run trim_run (trim_call cmd png_file) out])
| trimmed_convert dm dc f cmd out :
    probed "magick" false dm → probed "convert" true dc → found_by "convert" f cmd →
    trimmed png_file (completed out)
      (TrimCalled png_file :: dm ++ dc ++ [f; Run trim_run (trim_call cmd png_file) out])
| trimmed_none dm dc :
    probed "magick" false dm → probed "convert" false dc →
    trimmed png_file false (TrimCalled png_file :: dm ++ dc).

(** ** The passes of [compile_latex] *)

Definition pass_of (e : event) : option (nat * proc_outcome) :=
  match e with
  | Run (compiler_pass i) _ out => Some (i, out)
  | _ => None
  end.

(** The compiler passes among the calls [d], in order: the index of each and
    how it ended. *)
Definition passes_run (d : list event) : list (nat * proc_outcome) := omap pass_of d.

(** A compiler pass ends well when it exits with status zero, a bibliography
    run when it exits at all. *)
Definition ended_well (e : event) : bool :=
  match e with
  | Run (compiler_pass _) _ out => exit_zero out
  | Run bibliography_run _ out => completed out
  | _ => true
  end.

(** What [compile_latex] makes of a call that did not run to its end. *)
Definition interrupted (out : proc_outcome) : compile_result :=
  match out with
  | SpawnError msg => CompileFailure ("Compilation error: " +:+ msg) None
  | _ => CompileFailure "LaTeX compilation timed out" None
  end.

(** ** The calls of [compile_latex] *)

Definition compiler_call (cmd : string) (tex_file : path) : invocation :=
  Invocation [cmd; "-interaction=nonstopmode"; Path.str tex_file]
    (Some (Path.parent tex_file)) 30.

Definition bibliography_tool (use_biblatex : bool) : string :=
  if use_biblatex then "biber" else "bibtex".

Definition bibliography_call (cmd : string) (tex_file : path) : invocation :=
  Invocation [cmd; "document"] (Some (Path.parent tex_file)) 30.

(** The calls of [compile_latex] come in pairs: a lookup by [find_command],
    and the call of what the lookup gave. *)
Inductive compile_calls (tex_file : path) (use_biblatex : bool) : list event → Prop :=
| compile_calls_nil :
    compile_calls tex_file use_biblatex []
| compile_calls_pass i f cmd out d :
    found_by "pdflatex" f cmd →
    compile_calls tex_file use_biblatex d →
    compile_calls tex_file use_biblatex
      (f :: Run (compiler_pass i) (compiler_call cmd tex_file) out :: d)
| compile_calls_bib f cmd out d :
    found_by (bibliography_tool use_biblatex) f cmd →
    compile_calls tex_file use_biblatex d →
    compile_calls tex_file use_biblatex
      (f :: Run bibliography_run (bibliography_call cmd tex_file) out :: d).

(** One pass with a bibliography: the compiler succeeds, [bibtex] does not
    come back within its 30 seconds. *)
Definition bibtex_hangs_env : environment :=
  scripted_env
    [ found "/usr/bin/pdflatex";                        (* which pdflatex *)
      exits 0 "pass 0" "";                              (* pdflatex, pass 0 *)
      found "/usr/bin/bibtex";                          (* which bibtex *)
      hangs ].                                          (* bibtex *)

(** ** The calls of [pdf_to_png], one by one *)

Definition pdfcrop_call (cmd : string) (pdf_file : path) : invocation :=
  Invocation [cmd; "--margins"; "3"; Path.str pdf_file; Path.str (cropped_of pdf_file)]
    None 30.

(** The vector-crop step: its calls, and the source it selects for the
    rasterizer or the exception it raises. *)
Inductive crop_trace (pdf_file : path) (crop : bool) : outcome path → list event → Prop :=
| crop_trace_off :
    crop = false →
    crop_trace pdf_file crop (Returns pdf_file) []
| crop_trace_unavailable dp :
    crop = true → probed "pdfcrop" false dp →
    crop_trace pdf_file crop (Returns pdf_file) dp
| crop_trace_ran dp f cmd rc so se source :
    crop = true → probed "pdfcrop" true dp → found_by "pdfcrop" f cmd →
    source = pdf_file ∨ source = cropped_of pdf_file →
    crop_trace pdf_file crop (Returns source)
      (dp ++ [f; Run pdfcrop_run (pdfcrop_call cmd pdf_file) (Completed rc so se)])
| crop_trace_raised dp f cmd out e :
    crop = true → probed "pdfcrop" true dp → found_by "pdfcrop" f cmd →
    exception_of (pdfcrop_call cmd pdf_file) out = Some e →
    crop_trace pdf_file crop (Raises e)
      (dp ++ [f; Run pdfcrop_run (pdfcrop_call cmd pdf_file) out]).

(** The trim pass after a rasterizer succeeded, when it is wanted. *)
Inductive trim_trace (png_file : path) : bool → list event → Prop :=
| trim_trace_off :
    trim_trace png_file false []
| trim_trace_on b dt :
    trimmed png_file b dt → trim_trace png_file true dt.

(** The tool of the ImageMagick fallback: [convert] when [check_command]
    finds it, and [magick] otherwise. *)
Definition fallback_tool (has_convert : bool) : string :=
  if has_convert then "convert" else "magick".

Inductive raster_trace (source png_file : path) (dpi : Z) (crop : bool)
    : outcome convert_result → list event → Prop :=
| raster_no_name f cmd :
    found_by "pdftoppm" f cmd → Path.without_suffix png_file = None →
    raster_trace source png_file dpi crop
      (Raises (Exception ("PosixPath('" +:+ Path.str png_file +:+ "') has an empty name")))
      [f]
| raster_primary_raised f cmd out e :
    found_by "pdftoppm" f cmd →
    exception_of (pdftoppm_call cmd dpi source png_file) out = Some e →
    raster_trace source png_file dpi crop (Raises e)
      [f; Run pdftoppm_run (pdftoppm_call cmd dpi source png_file) out]
| raster_primary_done f cmd so se dt :
    found_by "pdftoppm" f cmd →
    trim_trace png_file
      (crop && negb (Str.endswith (Path.str source) "document-cropped.pdf")) dt →
    raster_trace source png_file dpi crop (Returns ConvertSuccess)
      (f :: Run pdftoppm_run (pdftoppm_call cmd dpi source png_file) (Completed 0 so se)
         :: dt)
| raster_fallback_raised f cmd rc so se b dc f' cmd' out e :
    found_by "pdftoppm" f cmd → rc ≠ 0 →
    probed "convert" b dc → found_by (fallback_tool b) f' cmd' →
    exception_of (imagemagick_call cmd' dpi source png_file) out = Some e →
    raster_trace source png_file dpi crop (Raises e)
      (f :: Run pdftoppm_run (pdftoppm_call cmd dpi source png_file) (Completed rc so se)
         :: dc ++ [f'; Run imagemagick_run (imagemagick_call cmd' dpi source png_file) out])
| raster_fallback_done f cmd rc so se b dc f' cmd' so' se' dt :
    found_by "pdftoppm" f cmd → rc ≠ 0 →
    probed "convert" b dc → found_by (fallback_tool b) f' cmd' →
    trim_trace png_file crop dt →
    raster_trace source png_file dpi crop (Returns ConvertSuccess)
      (f :: Run pdftoppm_run (pdftoppm_call cmd dpi source png_file) (Completed rc so se)
         :: dc ++ f' :: Run imagemagick_run (imagemagick_call cmd' dpi source png_file)
                          (Completed 0 so' se')
                  :: dt)
| raster_fallback_failed f cmd rc so se b dc f' cmd' rc' so' se' :
    found_by "pdftoppm" f cmd → rc ≠ 0 →
    probed "convert" b dc → found_by (fallback_tool b) f' cmd' → rc' ≠ 0 →
    raster_trace source png_file dpi crop
      (Returns (ConvertFailure ("Failed to convert PDF to PNG. pdftoppm result: "
                                +:+ se' +:+ ", convert not available.")))
      (f :: Run pdftoppm_run (pdftoppm_call cmd dpi source png_file) (Completed rc so se)
         :: dc ++ [f'; Run imagemagick_run (imagemagick_call cmd' dpi source png_file)
                         (Completed rc' so' se')]).

(** What the handlers of [pdf_to_png] make of the end of its body. *)
Definition conversion_result (o : outcome convert_result) : convert_result :=
  match o with
  | Returns r => r
  | Raises (TimeoutExpired _ _) => ConvertFailure "PDF conversion timed out"
  | Raises (Exception msg) => ConvertFailure ("Conversion error: " +:+ msg)
  end.

Inductive convert_trace (pdf_file png_file : path) (dpi : Z) (crop : bool)
    : convert_result → list event → Prop :=
| convert_crop_raised pre e :
    crop_trace pdf_file crop (Raises e) pre →
    convert_trace pdf_file png_file dpi crop (conversion_result (Raises e)) pre
| convert_rasterized pre source o d :
    crop_trace pdf_file crop (Returns source) pre →
    raster_trace source png_file dpi crop o d →
    convert_trace pdf_file png_file dpi crop (conversion_result o) (pre ++ d).

(** The calls of the vector-crop step. *)
Definition crop_event (e : event) : bool :=
  match e with
  | Run (find_which c) _ _ | Run (check_which c) _ _ | Run (check_version c) _ _ =>
      String.eqb c "pdfcrop"
  | Run pdfcrop_run _ _ => true
  | _ => false
  end.

(** The calls of [_trim_png_inplace]. *)
Definition trim_event (e : event) : bool :=
  match e with
  | TrimCalled _ | Run trim_run _ _ => true
  | Run (find_which c) _ _ | Run (check_which c) _ _ | Run (check_version c) _ _ =>
      String.eqb c "magick" || String.eqb c "convert"
  | _ => false
  end.

(** [pdfcrop] is installed but does not come back within its 30 seconds. *)
Definition pdfcrop_hangs_env : environment :=
  scripted_env
    [ found "/usr/bin/pdfcrop";                  (* check_command: which pdfcrop *)
      found "/usr/bin/pdfcrop";                  (* find_command: which pdfcrop *)
      hangs ].                                   (* pdfcrop *)

(** ** The probes of [readiness_report] *)

(** A sequence of runs of [check_command], with the command and the answer
    of each. *)
Inductive probes : list (string * bool) → list event → Prop :=
| probes_nil :
    probes [] []
| probes_cons command b l d d' :
    probed command b d → probes l d' → probes ((command, b) :: l) (d ++ d').

(** ** The stages of [render_snippet] *)

(** The calls of [pdf_to_png]. *)
Definition convert_event (e : event) : bool :=
  crop_event e || trim_event e ||
  match e with
  | Run (find_which c) _ _ => String.eqb c "pdftoppm"
  | Run pdftoppm_run _ _ | Run imagemagick_run _ _ => true
  | _ => false
  end.

(** ** The payloads of [api_compile] *)

(** The JSON values, other than objects, at which ['body' in data] or
    [data['body']] raises a [TypeError]: true; a number that is not zero; a
    string that contains "body"; an array with the member "body". *)
Definition refused (data : json) : Prop :=
  data = J_bool true ∨
  (∃ n, n ≠ 0 ∧ data = J_int n) ∨
  data = J_float false ∨
  (∃ s, Str.contains "body" s = true ∧ data = J_string s) ∨
  (∃ items, J_string "body" ∈ items ∧ data = J_array items).

(** ** Computations that leave the file system to the external programs *)

(** [c] changes the world only through the external programs it runs: after
    it, every property of the file system that these programs keep is
    kept. *)
Definition passive {A} (E : environment) (c : M A) : Prop :=
  ∀ w, evolves E w (world_of (c w)).

(** A property of the file system that does not look at [p] or below. *)
Definition outside (p : path) (I : filesystem → Prop) : Prop :=
  ∀ m m' : filesystem, (∀ q, ¬ FS.under p q → m !! q = m' !! q) → I m → I m'.

(** * Lemmas *)

#[global] Arguments sat : simpl never.

Section Rules.

Context {A B : Type}.

Lemma sat_ret (a : A) w Q : Q (Returns a) w [] → sat (ret a) w Q.
Proof. done. Qed.

Lemma sat_raise (e : exn) w (Q : outcome A → world → list event → Prop) :
  Q (Raises e) w [] → sat (raise e) w Q.
Proof. done. Qed.

Lemma sat_mono (c : M A) w (Q Q' : outcome A → world → list event → Prop) :
  sat c w Q → (∀ o w' d, Q o w' d → Q' o w' d) → sat c w Q'.
Proof. unfold sat. auto. Qed.

Lemma sat_bind (c : M A) (k : A → M B) w Q :
  sat c w (λ o w' d,
    match o with
    | Returns a => sat (k a) w' (λ o' w'' d', Q o' w'' (d ++ d'))
    | Raises e => Q (Raises e) w' d
    end) →
  sat (bind c k) w Q.
Proof.
  unfold sat, bind, value_of, world_of, events_of.
  destruct (c w) as [[[a|e] w'] d]; simpl; [|done].
  by destruct (k a w') as [[o w''] d'].
Qed.

Lemma sat_try (c : M A) (h : exn → M A) w Q :
  sat c w (λ o w' d,
    match o with
    | Returns a => Q (Returns a) w' d
    | Raises e => sat (h e) w' (λ o' w'' d', Q o' w'' (d ++ d'))
    end) →
  sat (try_except c h) w Q.
Proof.
  unfold sat, try_except, value_of, world_of, events_of.
  destruct (c w) as [[[a|e] w'] d]; simpl; [done|].
  by destruct (h e w') as [[o w''] d'].
Qed.

End Rules.

Lemma subprocess_run_eq E s cmd cwd t w :
  subprocess_run E s cmd cwd t w =
    let r := exec E (ticks w) (Invocation cmd cwd t) (fs w) in
    (reply cmd t r.1, World r.2 (S (ticks w)), [Run s (Invocation cmd cwd t) r.1]).
Proof.
  unfold subprocess_run.
  destruct (exec E (ticks w) (Invocation cmd cwd t) (fs w)) as [[rc so se| |msg] fs'];
    reflexivity.
Qed.

Lemma sat_run E s cmd cwd t w Q :
  (∀ out fs', exec E (ticks w) (Invocation cmd cwd t) (fs w) = (out, fs') →
     Q (reply cmd t out) (World fs' (S (ticks w))) [Run s (Invocation cmd cwd t) out]) →
  sat (subprocess_run E s cmd cwd t) w Q.
Proof.
  intros H. unfold sat. rewrite subprocess_run_eq. simpl.
  apply H. by destruct (exec E _ _ _).
Qed.

(** ** The probes: [find_command] and [check_command] *)

Lemma find_command_eq E command w :
  find_command E command w =
    let inv := Invocation ["which"; command] None 5 in
    let r := exec E (ticks w) inv (fs w) in
    (Returns (resolved command r.1), World r.2 (S (ticks w)),
     [Run (find_which command) inv r.1]).
Proof.
  unfold find_command, bind, try_except. rewrite subprocess_run_eq. simpl.
  destruct (exec E (ticks w) _ (fs w)) as [[rc so se| |msg] fs']; simpl; try done.
  by destruct (rc =? 0).
Qed.

Lemma evolves_refl E w : evolves E w w.
Proof. split; [lia|done]. Qed.

Lemma evolves_trans E w1 w2 w3 : evolves E w1 w2 → evolves E w2 w3 → evolves E w1 w3.
Proof. intros [? H1] [? H2]. split; [lia|]. intros I HI ?. by apply H2, H1. Qed.

Lemma evolves_exec E w inv out fs' :
  exec E (ticks w) inv (fs w) = (out, fs') → evolves E w (World fs' (S (ticks w))).
Proof.
  intros Hx. split; simpl; [lia|]. intros I HI Hw.
  specialize (HI (ticks w) inv (fs w) Hw). by rewrite Hx in HI.
Qed.

Lemma find_command_sat E command w :
  sat (find_command E command) w (λ o w' d,
    (∃ p, o = Returns p) ∧ Forall is_probe d ∧ evolves E w w').
Proof.
  unfold sat. rewrite find_command_eq. simpl.
  split; [eauto|split]; [by repeat constructor|].
  eapply evolves_exec. apply surjective_pairing.
Qed.

Lemma check_command_sat E command w :
  sat (check_command E command) w (λ o w' d,
    (∃ b, o = Returns b) ∧ Forall is_probe d ∧ evolves E w w').
Proof.
  unfold check_command. apply sat_try, sat_bind, sat_run.
  intros out fs' Hx.
  pose proof (evolves_exec _ _ _ _ _ Hx) as Hev.
  destruct out as [rc so se| |msg]; simpl;
    try (apply sat_ret; split; [eauto|split]; [by repeat constructor|done]).
  destruct (rc =? 0).
  { apply sat_ret; split; [eauto|split]; [by repeat constructor|done]. }
  apply sat_bind, sat_run. intros out fs'' Hx'.
  assert (evolves E w (World fs'' (S (S (ticks w))))) as Hev'.
  { eapply evolves_trans; [done|].
    exact (evolves_exec E (World fs' (S (ticks w))) _ _ _ Hx'). }
  destruct out; simpl; apply sat_ret; (split; [eauto|split]);
    try done; by repeat constructor.
Qed.

(** ** Main events *)

Lemma main_app d1 d2 : main_events (d1 ++ d2) = main_events d1 ++ main_events d2.
Proof. apply List.filter_app. Qed.

Lemma main_probes d : Forall is_probe d → main_events d = [].
Proof.
  induction 1 as [|e d He _ IH]; [done|].
  unfold main_events, is_aux in *. simpl. rewrite IH.
  by destruct (is_probe e).
Qed.

Lemma elem_of_main e d : e ∈ main_events d ↔ e ∈ d ∧ is_aux e = false.
Proof.
  unfold main_events. rewrite !list_elem_of_In, List.filter_In.
  by rewrite negb_true_iff.
Qed.

Ltac probe :=
  apply sat_bind;
  (eapply sat_mono; [first [apply check_command_sat | apply find_command_sat]|]);
  intros ? ? ? ([? ->] & ? & ?).

Lemma main_cons e d :
  main_events (e :: d) = if is_aux e then main_events d else e :: main_events d.
Proof. unfold main_events. simpl. by destruct (is_aux e). Qed.

Lemma main_nil : main_events [] = [].
Proof. done. Qed.

Ltac main_simpl :=
  repeat first [rewrite main_app | rewrite main_cons | rewrite main_nil];
  repeat match goal with
         | H : Forall _ ?d |- _ => rewrite (main_probes d H); clear H
         end;
  simpl; rewrite ?app_nil_r.

(** ** [_trim_png_inplace] *)

Lemma sat_note e w Q : Q (Returns ()) w [e] → sat (note e) w Q.
Proof. done. Qed.

Lemma trim_png_inplace_sat E png_file w :
  sat (_trim_png_inplace E png_file) w (λ o _ d,
    (∃ b, o = Returns b) ∧ main_events d = [TrimCalled png_file]).
Proof.
  unfold _trim_png_inplace. apply sat_bind, sat_note.
  apply sat_try. probe. rename x into magick.
  destruct magick.
  - apply sat_bind. probe. apply sat_ret, sat_bind, sat_run. intros out fs' _.
    destruct out; simpl; apply sat_ret; main_simpl; eauto.
  - apply sat_bind. probe. destruct x.
    + probe. apply sat_ret, sat_bind, sat_run. intros out fs' _.
      destruct out; simpl; apply sat_ret; main_simpl; eauto.
    + apply sat_ret, sat_ret. main_simpl; eauto.
Qed.

(** ** [pdf_to_png] *)

Lemma reply_raises cmd cwd t out e :
  reply cmd t out = Raises e ↔ exception_of (Invocation cmd cwd t) out = Some e.
Proof. destruct out; simpl; naive_solver. Qed.

Lemma exception_completed inv out e :
  exception_of inv out = Some e → completed out = false.
Proof. by destruct out. Qed.

Lemma trim_then_success_sat E (b : bool) png_file w :
  sat ((if b then _trim_png_inplace E png_file;; ret () else ret ());;
       ret ConvertSuccess) w (λ o _ d,
    o = Returns ConvertSuccess ∧
    main_events d = if b then [TrimCalled png_file] else []).
Proof.
  apply sat_bind. destruct b.
  - apply sat_bind. eapply sat_mono; [apply trim_png_inplace_sat|].
    intros o w' d [[t ->] Hd]. apply sat_ret, sat_ret.
    by rewrite !app_nil_r.
  - by apply sat_ret, sat_ret.
Qed.

Lemma rasterize_sat E source png_file dpi crop w :
  sat (rasterize E source png_file dpi crop) w (λ o _ d,
    rasterization source png_file dpi crop o (main_events d)).
Proof.
  unfold rasterize. probe. rename x into cmd.
  apply sat_bind. unfold with_suffix_empty.
  destruct (Path.without_suffix png_file) as [stem_file|] eqn:Hstem;
    [apply sat_ret|apply sat_raise; main_simpl; by apply rast_no_name].
  assert (∀ c, Invocation [c; "-png"; "-singlefile"; "-r"; pretty dpi; Path.str source;
                           Path.str stem_file] None 30
               = pdftoppm_call c dpi source png_file) as Hcall
    by (intros; unfold pdftoppm_call; by rewrite Hstem).
  apply sat_bind, sat_run. intros out fs' _. rewrite Hcall.
  destruct out as [rc so se| |msg]; simpl.
  - destruct (rc =? 0) eqn:Hrc.
    { apply Z.eqb_eq in Hrc as ->.
      eapply sat_mono; [apply trim_then_success_sat|].
      intros o w3 d' [-> Hd']. main_simpl. rewrite Hd'. constructor. }
    apply Z.eqb_neq in Hrc.
    probe. apply sat_bind.
    assert (∀ w0, sat (if x then find_command E "convert" else find_command E "magick") w0
              (λ o _ d, (∃ p, o = Returns p) ∧ Forall is_probe d)) as Hf.
    { intros w0. destruct x; (eapply sat_mono; [apply find_command_sat|]);
        by intros ? ? ? (? & ? & ?). }
    eapply sat_mono; [apply Hf|]. clear Hf. intros ? w2 d2 [[cmd' ->] Hd2].
    replace (if String.eqb (Str.basename cmd') "magick"
             then [cmd'; "-density"; pretty dpi; Path.str source; Path.str png_file]
             else [cmd'; "-density"; pretty dpi; Path.str source; Path.str png_file])
      with [cmd'; "-density"; pretty dpi; Path.str source; Path.str png_file]
      by (by destruct (String.eqb _ _)).
    apply sat_bind, sat_run. intros out fs'' _.
    destruct out as [rc' so' se'| |msg]; simpl.
    + destruct (rc' =? 0) eqn:Hrc'.
      { apply Z.eqb_eq in Hrc' as ->.
        eapply sat_mono; [apply trim_then_success_sat|].
        intros o w3 d' [-> Hd']. main_simpl. rewrite Hd'. by constructor. }
      apply Z.eqb_neq in Hrc'. apply sat_ret. main_simpl. by constructor.
    + main_simpl. by apply rast_fallback_raised.
    + main_simpl. by apply rast_fallback_raised.
  - main_simpl. apply rast_primary_raised. unfold pdftoppm_call. by rewrite Hstem.
  - main_simpl. apply rast_primary_raised. unfold pdftoppm_call. by rewrite Hstem.
Qed.

Lemma handler_sat inv out (e : exn) w :
  exception_of inv out = Some e →
  sat (match e with
       | TimeoutExpired _ _ => ret (ConvertFailure "PDF conversion timed out")
       | Exception _ => ret (ConvertFailure ("Conversion error: " +:+ exn_str e))
       end) w (λ o _ d, o = Returns (ConvertFailure (conversion_error out)) ∧ d = []).
Proof. destruct out; intros [= <-]; by apply sat_ret. Qed.

Lemma conversion_returns pdf_file png_file dpi crop pre source r m :
  crop_step pdf_file crop pre source →
  rasterization source png_file dpi crop (Returns r) m →
  conversion pdf_file png_file dpi crop r (pre ++ m).
Proof. intros Hpre Hr. inversion Hr; subst; by econstructor. Qed.

Lemma conversion_raises pdf_file png_file dpi crop pre source e m w :
  crop_step pdf_file crop pre source →
  rasterization source png_file dpi crop (Raises e) m →
  sat (match e with
       | TimeoutExpired _ _ => ret (ConvertFailure "PDF conversion timed out")
       | Exception _ => ret (ConvertFailure ("Conversion error: " +:+ exn_str e))
       end) w (λ o _ d,
    ∃ r, o = Returns r ∧ d = [] ∧ conversion pdf_file png_file dpi crop r (pre ++ m)).
Proof.
  intros Hpre Hr. inversion Hr as [Hn|? ? ? Hx| |? ? ? ? ? ? ? ? Hx| |]; subst.
  - apply sat_ret. eexists; split_and!; try done.
    rewrite app_nil_r. by eapply conv_no_name.
  - eapply sat_mono; [by eapply handler_sat|].
    intros ? ? ? [-> ->]; eexists; split_and!; try done;
      econstructor; eauto using exception_completed.
  - eapply sat_mono; [by eapply handler_sat|].
    intros ? ? ? [-> ->]; eexists; split_and!; try done;
      econstructor; eauto using exception_completed.
Qed.

Lemma pdf_to_png_sat E pdf_file png_file dpi crop w :
  sat (pdf_to_png E pdf_file png_file dpi crop) w (λ o _ d,
    ∃ r, o = Returns r ∧ conversion pdf_file png_file dpi crop r (main_events d)).
Proof.
  unfold pdf_to_png. apply sat_try, sat_bind.
  assert (sat (if crop then check_command E "pdfcrop" else ret false) w (λ o _ d,
    ∃ cropper, o = Returns cropper ∧ Forall is_probe d ∧ (cropper = true → crop = true)))
    as Hc.
  { destruct crop; [|by eexists].
    eapply sat_mono; [apply check_command_sat|].
    intros ? ? ? ([b ->] & ? & ?). eauto. }
  eapply sat_mono; [apply Hc|]. clear Hc.
  intros ? w1 d1 (cropper & -> & Hd1 & Hcrop).
  apply sat_bind. destruct cropper.
  - specialize (Hcrop eq_refl) as ->.
    probe. apply sat_bind, sat_run. intros out fs' _.
    destruct out as [rc so se| |msg]; simpl.
    + apply sat_bind. unfold sat at 1. simpl. apply sat_ret.
      eapply sat_mono; [apply rasterize_sat|].
      intros [r|e] w2 d2 Hr.
      * exists r. split; [done|]. main_simpl.
        eapply (conversion_returns _ _ _ _ [_]); [|done].
        constructor; [done|]. destruct (FS.exists_ _ _); auto.
      * eapply sat_mono; [eapply (conversion_raises _ _ _ _ [_]); [|done]|].
        { constructor; [done|]. destruct (FS.exists_ _ _); auto. }
        intros ? ? ? (r & -> & -> & Hconv). exists r. split; [done|].
        by main_simpl.
    + apply sat_ret. main_simpl. eexists; split; [done|].
      by apply (conv_crop_raised _ _ _ _ _ TimedOut).
    + apply sat_ret. main_simpl. eexists; split; [done|].
      by apply (conv_crop_raised _ _ _ _ _ (SpawnError msg)).
  - apply sat_ret. eapply sat_mono; [apply rasterize_sat|].
    intros [r|e] w2 d2 Hr.
    + exists r. split; [done|]. main_simpl.
      eapply (conversion_returns _ _ _ _ []); [|done]. constructor.
    + eapply sat_mono; [eapply (conversion_raises _ _ _ _ []); [|done]|].
      { constructor. }
      intros ? ? ? (r & -> & -> & Hconv). exists r. split; [done|].
      by main_simpl.
Qed.

Lemma pdf_to_png_conversion E pdf_file png_file dpi crop w :
  ∃ r, value_of (pdf_to_png E pdf_file png_file dpi crop w) = Returns r ∧
       conversion pdf_file png_file dpi crop r
         (main_events (events_of (pdf_to_png E pdf_file png_file dpi crop w))).
Proof. apply pdf_to_png_sat. Qed.

(** Case analysis on a run of [pdf_to_png], down to its list of main
    events. *)
Ltac conversion_cases H :=
  inversion H; subst; clear H;
  repeat match goal with
         | Hc : crop_step _ _ _ _ |- _ => inversion Hc; subst; clear Hc
         end;
  simpl in *.

Ltac elem_cases :=
  repeat first
    [ progress simplify_eq
    | match goal with
      | H : _ ∈ _ ++ _ |- _ => apply elem_of_app in H
      | H : _ ∈ _ :: _ |- _ => apply elem_of_cons in H
      | H : _ ∈ [] |- _ => by apply elem_of_nil in H
      | H : _ ∈ (if ?b then _ else _) |- _ => destruct b eqn:?
      | H : _ ∨ _ |- _ => destruct H
      end ].

(** ** The name of the cropped file *)

Section StringLemmas.

#[local] Arguments String.append !_ _ / : simpl nomatch.

Lemma string_app_assoc (a b c : string) : (a +:+ b) +:+ c = a +:+ b +:+ c.
Proof. induction a as [|x a IH]; simpl; [done|]. by rewrite IH. Qed.

Lemma rev_app_app a b c : String.rev_app (a +:+ b) c = String.rev_app b (String.rev_app a c).
Proof. revert c. induction a as [|x a IH]; intros c; simpl; [done|]. apply IH. Qed.

Lemma rev_app_spec s t : String.rev_app s t = String.rev s +:+ t.
Proof.
  unfold String.rev. revert t. induction s as [|x s IH]; intros t; simpl; [done|].
  rewrite IH, (IH (String x "")). by rewrite string_app_assoc.
Qed.

Lemma prefix_app x y : String.prefix x (x +:+ y) = true.
Proof. induction x as [|a x IH]; simpl; [by destruct y|]. by destruct (ascii_dec a a). Qed.

Lemma endswith_app a x : Str.endswith (a +:+ x) x = true.
Proof.
  unfold Str.endswith, String.rev at 2.
  rewrite rev_app_app, rev_app_spec. apply prefix_app.
Qed.




End StringLemmas.

(** ** [compile_latex] *)

Lemma find_command_exact E command w :
  sat (find_command E command) w (λ o w' d,
    ∃ out, o = Returns (resolved command out) ∧
           d = [Run (find_which command) (Invocation ["which"; command] None 5) out] ∧
           is_find (Run (find_which command) (Invocation ["which"; command] None 5) out) ∧
           ticks w' = S (ticks w) ∧ evolves E w w').
Proof.
  unfold sat. rewrite find_command_eq. simpl.
  eexists. split_and!; try done.
  - by eexists _, _.
  - eapply evolves_exec. apply surjective_pairing.
Qed.

Ltac find_step :=
  apply sat_bind; (eapply sat_mono; [apply find_command_exact|]);
  intros ? ? ? (? & -> & -> & ? & ? & ?).

Lemma loop_sat E tex_file use_biblatex indices w :
  sat (compile_latex_loop E tex_file use_biblatex indices) w (λ o _ d,
    loop_run indices o d).
Proof.
  revert w. induction indices as [|i rest IH]; intros w.
  { apply sat_ret. constructor. }
  simpl. find_step. apply sat_bind, sat_run. intros out fs' _.
  destruct out as [rc so se| |msg]; simpl;
    [|by eapply loop_pass_raised..].
  destruct (rc =? 0) eqn:Hrc; simpl.
  2: { apply Z.eqb_neq in Hrc. apply sat_ret. by apply loop_pass_failed. }
  apply Z.eqb_eq in Hrc as ->.
  apply sat_bind.
  assert (∀ w0, sat (if (i =? 0)%nat
                     then path_exists (Path.parent tex_file // "references.bib")
                     else ret false) w0
            (λ o w1 d, ∃ bib : bool, o = Returns bib ∧ d = [] ∧ (bib = true → i = 0%nat)))
    as Hbib.
  { intros w0. destruct (i =? 0)%nat eqn:Hi.
    - apply Nat.eqb_eq in Hi. by eexists.
    - by exists false. }
  eapply sat_mono; [apply Hbib|]. clear Hbib.
  intros ? w1 ? (bib & -> & -> & Hi). apply sat_bind. destruct bib.
  - rewrite Hi by done. apply sat_bind.
    assert (∀ w0, sat (if use_biblatex
                       then let! biber_cmd := find_command E "biber" in
                            ret [biber_cmd; "document"]
                       else let! bibtex_cmd := find_command E "bibtex" in
                            ret [bibtex_cmd; "document"]) w0
              (λ o w2 d, ∃ cmd f, o = Returns cmd ∧ d = [f] ∧ is_find f)) as Hcmd.
    { intros w0. destruct use_biblatex; find_step; apply sat_ret; eauto. }
    eapply sat_mono; [apply Hcmd|]. clear Hcmd.
    intros ? w2 ? (cmd & f & -> & -> & Hf).
    apply sat_bind, sat_run. intros out fs'' _.
    destruct out as [rc so' se'| |msg]; simpl;
      [|by eapply loop_bib_raised..].
    apply sat_ret. eapply sat_mono; [apply IH|].
    intros o w3 d Hrun. simpl.
    eapply (loop_pass_done 0 rest _ _ _ _ [_; _]); eauto. by constructor.
  - apply sat_ret. eapply sat_mono; [apply IH|].
    intros o w3 d Hrun. simpl.
    eapply (loop_pass_done i rest _ _ _ _ []); eauto. constructor.
Qed.

Lemma compile_latex_run E tex_file passes use_biblatex hide_warnings w :
  ∃ o,
    loop_run (range passes) o
      (events_of (compile_latex E tex_file passes use_biblatex hide_warnings w)) ∧
    value_of (compile_latex E tex_file passes use_biblatex hide_warnings w)
      = Returns (compile_outcome o).
Proof.
  assert (sat (compile_latex E tex_file passes use_biblatex hide_warnings) w
    (λ v _ d, ∃ o, loop_run (range passes) o d ∧ v = Returns (compile_outcome o))) as H;
    [|exact H].
  unfold compile_latex. apply sat_try, sat_bind.
  eapply sat_mono; [apply loop_sat|].
  intros [[r|]|[cmd t|msg]] w' d Hrun; repeat apply sat_ret;
    rewrite ?app_nil_r; eauto.
Qed.

Ltac failed_inv :=
  repeat match goal with
         | H : failed_pass _ |- _ => destruct H as (? & ? & ? & ? & ? & ? & ?)
         | H : is_find _ |- _ => destruct H as (? & ? & ?)
         end;
  simplify_eq/=.

Lemma is_find_not_failed f : is_find f → ¬ failed_pass f.
Proof. intros ? ?. failed_inv. Qed.

Lemma bib_step_not_failed i bibs e : bib_step i bibs → e ∈ bibs → ¬ failed_pass e.
Proof. intros Hb He ?. inversion Hb; subst; elem_cases; failed_inv. Qed.

Lemma loop_run_aborts indices o d e :
  loop_run indices o d → failed_pass e → e ∈ d →
  (∃ i inv rc so se,
     e = Run (compiler_pass i) inv (Completed rc so se) ∧
     o = Returns (Some (CompileFailure "LaTeX compilation failed"
                          (Some (so +:+ Str.nl +:+ se))))) ∧
  ∃ d0, d = d0 ++ [e] ∧ ∀ e', e' ∈ d0 → ¬ failed_pass e'.
Proof.
  intros Hrun He. induction Hrun as
    [|i rest f inv out x Hf Hx|i rest f inv rc so se Hf Hrc
     |rest f inv so se f' inv' out x Hf Hf' Hx
     |i rest f inv so se bibs o d Hf Hb Hrun IH]; intros Hin.
  - by apply elem_of_nil in Hin.
  - exfalso. elem_cases; failed_inv.
  - elem_cases; [failed_inv|].
    split; [by eexists _, _, _, _, _|]. exists [f]. split; [done|].
    intros e' ->%list_elem_of_singleton. by apply is_find_not_failed.
  - exfalso. elem_cases; failed_inv.
  - apply elem_of_cons in Hin as [->|Hin]; [by destruct (is_find_not_failed _ Hf)|].
    apply elem_of_cons in Hin as [->|Hin]; [failed_inv|].
    apply elem_of_app in Hin as [Hin|Hin];
      [by destruct (bib_step_not_failed _ _ _ Hb Hin)|].
    destruct (IH Hin) as [Ho (d0 & -> & Hd0)]. split; [done|].
    exists (f :: Run (compiler_pass i) inv (Completed 0 so se) :: bibs ++ d0).
    split; [by rewrite <- !app_comm_cons, app_assoc|].
    intros e' He'. apply elem_of_cons in He' as [->|He'];
      [by apply is_find_not_failed|].
    apply elem_of_cons in He' as [->|He']; [intros ?; failed_inv|].
    apply elem_of_app in He' as [He'|He']; [by eapply bib_step_not_failed|auto].
Qed.

Lemma loop_run_later indices o d :
  loop_run indices o d → 0%nat ∉ indices →
  ∀ e, e ∈ d →
    (∀ inv out, e ≠ Run bibliography_run inv out) ∧
    (∀ inv out, e ≠ Run (compiler_pass 0) inv out).
Proof.
  induction 1 as
    [|i rest f inv out x Hf Hx|i rest f inv rc so se Hf Hrc
     |rest f inv so se f' inv' out x Hf Hf' Hx
     |i rest f inv so se bibs o d Hf Hb Hrun IH]; intros Hi e He.
  - by apply elem_of_nil in He.
  - apply not_elem_of_cons in Hi as [Hi _].
    elem_cases; failed_inv; split; intros ? ? ?; simplify_eq.
  - apply not_elem_of_cons in Hi as [Hi _].
    elem_cases; failed_inv; split; intros ? ? ?; simplify_eq.
  - by apply not_elem_of_cons in Hi as [Hi _].
  - apply not_elem_of_cons in Hi as [Hi Hrest].
    inversion Hb; subst; [|done]. simpl in He.
    apply elem_of_cons in He as [->|He];
      [failed_inv; split; intros ? ? ?; simplify_eq|].
    apply elem_of_cons in He as [->|He];
      [split; intros ? ? ?; simplify_eq|].
    by apply IH.
Qed.

Lemma loop_run_head i rest o d :
  loop_run (i :: rest) o d →
  ∃ f inv out d', d = f :: Run (compiler_pass i) inv out :: d' ∧ is_find f.
Proof. inversion 1; subst; eauto 10. Qed.

Lemma stable_exec (E : environment) (I : filesystem → Prop) (w : world) inv out fs' :
  stable E I → I (fs w) → exec E (ticks w) inv (fs w) = (out, fs') → I fs'.
Proof. intros HI Hw Hx. specialize (HI (ticks w) inv (fs w) Hw). by rewrite Hx in HI. Qed.

Lemma loop_unfold E tex_file use_biblatex i rest :
  compile_latex_loop E tex_file use_biblatex (i :: rest) =
    let temp_path := Path.parent tex_file in
    let! pdflatex_cmd := find_command E "pdflatex" in
    let cmd := [pdflatex_cmd; "-interaction=nonstopmode"; Path.str tex_file] in
    let! result := subprocess_run E (compiler_pass i) cmd (Some temp_path) 30 in
    if negb (returncode result =? 0)
    then ret (Some (CompileFailure "LaTeX compilation failed"
                      (Some (stdout result +:+ Str.nl +:+ stderr result))))
    else
      let! bib := if (i =? 0)%nat
                  then path_exists (temp_path // "references.bib")
                  else ret false in
      (if bib then
         let! bib_cmd :=
           if use_biblatex
           then let! biber_cmd := find_command E "biber" in
                ret [biber_cmd; "document"]
           else let! bibtex_cmd := find_command E "bibtex" in
                ret [bibtex_cmd; "document"] in
         let! bib_result := subprocess_run E bibliography_run bib_cmd (Some temp_path) 30 in
         ret ()
       else ret ());;
      compile_latex_loop E tex_file use_biblatex rest.
Proof. reflexivity. Qed.

Lemma compile_latex_events E tex_file passes use_biblatex hide_warnings w :
  events_of (compile_latex E tex_file passes use_biblatex hide_warnings w)
  = events_of (compile_latex_loop E tex_file use_biblatex (range passes) w).
Proof.
  unfold compile_latex, try_except, bind, events_of.
  destruct (compile_latex_loop _ _ _ _ w) as [[[[r|]|[cmd t|msg]] w'] d]; simpl;
    by rewrite ?app_nil_r.
Qed.

Lemma first_pass_then_bibliography E tex_file use_biblatex rest w :
  0%nat ∉ rest →
  FS.exists_ (Path.parent tex_file // "references.bib") (fs w) = true →
  stable E (λ fs, is_Some (fs !! (Path.parent tex_file // "references.bib"))) →
  sat (compile_latex_loop E tex_file use_biblatex (0%nat :: 1%nat :: rest)) w (λ _ _ d,
    (∃ inv so se, Run (compiler_pass 0) inv (Completed 0 so se) ∈ d) →
    ∃ f0 inv0 so se fb invb outb rest,
      d = f0 :: Run (compiler_pass 0) inv0 (Completed 0 so se)
          :: fb :: Run bibliography_run invb outb :: rest ∧
      is_find f0 ∧ is_find fb ∧
      (∀ inv out, Run bibliography_run inv out ∉ rest) ∧
      (∀ inv out, Run (compiler_pass 0) inv out ∉ rest) ∧
      (completed outb = true →
       ∃ f1 inv1 out1 rest',
         rest = f1 :: Run (compiler_pass 1) inv1 out1 :: rest' ∧ is_find f1)).
Proof.
  intros Hrest Hbib Hst.
  unfold FS.exists_ in Hbib. apply bool_decide_eq_true in Hbib.
  rewrite loop_unfold. cbn zeta.
  find_step. apply sat_bind, sat_run. intros out fs' Hx.
  assert (is_Some (fs' !! (Path.parent tex_file // "references.bib"))) as Hbib'.
  { eapply (stable_exec E (λ fs, is_Some (fs !! (Path.parent tex_file // "references.bib"))) w');
      [done| |done].
    destruct H1 as [_ Hev]. by apply (Hev _ Hst). }
  destruct out as [rc so se| |msg]; simpl;
    [|intros (? & ? & ? & ?); elem_cases..].
  destruct (rc =? 0) eqn:Hrc; simpl.
  2: { apply sat_ret. apply Z.eqb_neq in Hrc.
       intros (? & ? & ? & ?); elem_cases. }
  apply Z.eqb_eq in Hrc as ->.
  apply sat_bind. unfold sat at 1, path_exists, FS.exists_. simpl.
  rewrite bool_decide_eq_true_2 by done.
  apply sat_bind, sat_bind.
  assert (∀ w0, sat (if use_biblatex
                     then let! biber_cmd := find_command E "biber" in
                          ret [biber_cmd; "document"]
                     else let! bibtex_cmd := find_command E "bibtex" in
                          ret [bibtex_cmd; "document"]) w0
            (λ o w2 d, ∃ cmd f, o = Returns cmd ∧ d = [f] ∧ is_find f)) as Hcmd.
  { intros w0. destruct use_biblatex; find_step; apply sat_ret; eauto. }
  eapply sat_mono; [apply Hcmd|]. clear Hcmd.
  intros ? w2 ? (cmd & f & -> & -> & Hf).
  apply sat_bind, sat_run. intros out fs'' _.
  destruct out as [rc so' se'| |msg]; simpl.
  - apply sat_ret.
    eapply sat_mono; [apply (loop_sat E tex_file use_biblatex (1%nat :: rest))|].
    intros o w3 d Hrun _. simpl.
    eexists _, _, _, _, _, _, _, _. split; [reflexivity|].
    split_and!; try done.
    + intros inv out Hin.
      by destruct (loop_run_later _ _ _ Hrun ltac:(set_solver) _ Hin) as [Hb _];
        destruct (Hb inv out).
    + intros inv out Hin.
      by destruct (loop_run_later _ _ _ Hrun ltac:(set_solver) _ Hin) as [_ Hb];
        destruct (Hb inv out).
    + intros _. destruct (loop_run_head _ _ _ _ Hrun) as (f1 & inv1 & out1 & d' & -> & ?).
      eauto 10.
  - intros _. eexists _, _, _, _, _, _, _, _. split; [reflexivity|].
    split_and!; try done; intros ? ? ?; elem_cases.
  - intros _. eexists _, _, _, _, _, _, _, _. split; [reflexivity|].
    split_and!; try done; intros ? ? ?; elem_cases.
Qed.

(** ** Programs that behave the same from some call on *)

Section Agreement.

Context (E E' : environment) (n0 : nat) (Hagree : agree_from E E' n0).

Lemma agrees_ret {A} (a : A) : agrees E E' n0 (ret a) (ret a).
Proof. by intros w Hw. Qed.

Lemma agrees_bind {A B} (c c' : M A) (k k' : A → M B) :
  agrees E E' n0 c c' → (∀ a, agrees E E' n0 (k a) (k' a)) →
  agrees E E' n0 (bind c k) (bind c' k').
Proof.
  intros Hc Hk w Hw. destruct (Hc w Hw) as [Heq Hmono].
  unfold bind. rewrite Heq. unfold world_of in *.
  destruct (c w) as [[[a|e] w1] d]; simpl in *; [|done].
  destruct (Hk a w1 Hmono) as [-> Hm2]. unfold world_of in *.
  by destruct (k a w1) as [[o w2] d2].
Qed.

Lemma agrees_try {A} (c c' : M A) (h h' : exn → M A) :
  agrees E E' n0 c c' → (∀ e, agrees E E' n0 (h e) (h' e)) →
  agrees E E' n0 (try_except c h) (try_except c' h').
Proof.
  intros Hc Hh w Hw. destruct (Hc w Hw) as [Heq Hmono].
  unfold try_except. rewrite Heq. unfold world_of in *.
  destruct (c w) as [[[a|e] w1] d]; simpl in *; [done|].
  destruct (Hh e w1 Hmono) as [-> Hm2]. unfold world_of in *.
  by destruct (h e w1) as [[o w2] d2].
Qed.

Lemma agrees_run s cmd cwd t :
  agrees E E' n0 (subprocess_run E s cmd cwd t) (subprocess_run E' s cmd cwd t).
Proof.
  intros w Hw. rewrite !subprocess_run_eq. simpl.
  rewrite Hagree by done. split; [done|]. simpl. lia.
Qed.

Lemma agrees_find command :
  agrees E E' n0 (find_command E command) (find_command E' command).
Proof.
  intros w Hw. rewrite !find_command_eq. simpl.
  rewrite Hagree by done. split; [done|]. simpl. lia.
Qed.

Lemma agrees_exists p : agrees E E' n0 (path_exists p) (path_exists p).
Proof. by intros w Hw. Qed.

Lemma agrees_loop tex_file use_biblatex indices :
  agrees E E' n0 (compile_latex_loop E tex_file use_biblatex indices)
                 (compile_latex_loop E' tex_file use_biblatex indices).
Proof.
  induction indices as [|i rest IH]; [apply agrees_ret|].
  rewrite !loop_unfold. cbn zeta.
  apply agrees_bind; [apply agrees_find|]. intros cmd.
  apply agrees_bind; [apply agrees_run|]. intros result.
  destruct (negb _); [apply agrees_ret|].
  apply agrees_bind; [destruct (i =? 0)%nat; [apply agrees_exists|apply agrees_ret]|].
  intros bib. apply agrees_bind; [|done].
  destruct bib; [|apply agrees_ret].
  apply agrees_bind.
  - destruct use_biblatex; (apply agrees_bind; [apply agrees_find|]);
      intros; apply agrees_ret.
  - intros bib_cmd. apply agrees_bind; [apply agrees_run|]. intros; apply agrees_ret.
Qed.

End Agreement.

(** ** The exit status of the bibliography run *)

Lemma compile_latex_value E tex_file passes use_biblatex hide_warnings w :
  value_of (compile_latex E tex_file passes use_biblatex hide_warnings w)
  = Returns (compile_outcome
               (value_of (compile_latex_loop E tex_file use_biblatex (range passes) w))).
Proof.
  unfold compile_latex, try_except, bind, value_of.
  by destruct (compile_latex_loop _ _ _ _ w) as [[[[r|]|[cmd t|msg]] w'] d].
Qed.

Lemma with_status_ne k rc E n inv fs :
  n ≠ k → exec (with_status k rc E) n inv fs = exec E n inv fs.
Proof. intros Hn. simpl. by rewrite (proj2 (Nat.eqb_neq n k) Hn). Qed.

Lemma with_status_agree k rc E : agree_from E (with_status k rc E) (S k).
Proof. intros n inv fs Hn. apply with_status_ne. lia. Qed.

Lemma with_status_eq k rc E inv fs :
  exec (with_status k rc E) k inv fs
  = (match (exec E k inv fs).1 with
     | Completed _ so se => Completed rc so se
     | out => out
     end, (exec E k inv fs).2).
Proof. simpl. by rewrite Nat.eqb_refl. Qed.

Lemma similar_refl {A} (r : outcome A * world * list event) : similar r r.
Proof. done. Qed.

Lemma bind_similar {A B} (c c' : M A) (k k' : A → M B) w :
  similar (c' w) (c w) →
  (∀ a, value_of (c w) = Returns a →
        similar (k' a (world_of (c w))) (k a (world_of (c w)))) →
  similar (bind c' k' w) (bind c k w).
Proof.
  unfold similar, bind, value_of, world_of.
  destruct (c' w) as [[o' w1'] d'], (c w) as [[o w1] d]. simpl.
  intros [-> ->] Hk. destruct o as [a|e]; [|done].
  specialize (Hk a eq_refl).
  by destruct (k' a w1) as [[? ?] ?], (k a w1) as [[? ?] ?].
Qed.

Lemma find_similar E E' command w :
  (∀ inv fs, exec E' (ticks w) inv fs = exec E (ticks w) inv fs) →
  similar (find_command E' command w) (find_command E command w).
Proof. intros Hx. rewrite !find_command_eq. simpl. by rewrite Hx. Qed.

Lemma run_similar E E' s cmd cwd t w :
  (∀ inv fs, exec E' (ticks w) inv fs = exec E (ticks w) inv fs) →
  similar (subprocess_run E' s cmd cwd t w) (subprocess_run E s cmd cwd t w).
Proof. intros Hx. rewrite !subprocess_run_eq. simpl. by rewrite Hx. Qed.

(** A call whose result is dropped runs the same whatever its exit
    status. *)
Lemma dropped_run_similar E k rc s cmd cwd t w :
  ticks w = k →
  similar ((subprocess_run (with_status k rc E) s cmd cwd t;; ret ()) w)
          ((subprocess_run E s cmd cwd t;; ret ()) w).
Proof.
  intros <-. unfold bind. rewrite !subprocess_run_eq. cbn zeta. rewrite with_status_eq.
  by destruct (exec E (ticks w) _ (fs w)) as [[rc0 so se| |msg] fs'].
Qed.

Lemma find_world E command w :
  world_of (find_command E command w)
  = World (exec E (ticks w) (Invocation ["which"; command] None 5) (fs w)).2 (S (ticks w)).
Proof. by rewrite find_command_eq. Qed.

Lemma run_world E s cmd cwd t w :
  world_of (subprocess_run E s cmd cwd t w)
  = World (exec E (ticks w) (Invocation cmd cwd t) (fs w)).2 (S (ticks w)).
Proof. by rewrite subprocess_run_eq. Qed.

#[local] Arguments compile_latex_loop : simpl never.

Lemma bibliography_status_irrelevant E tex_file use_biblatex rest w rc' :
  FS.exists_ (Path.parent tex_file // "references.bib") (fs w) = true →
  stable E (λ fs, is_Some (fs !! (Path.parent tex_file // "references.bib"))) →
  similar
    (compile_latex_loop (with_status (3 + ticks w) rc' E) tex_file use_biblatex
       (0%nat :: rest) w)
    (compile_latex_loop E tex_file use_biblatex (0%nat :: rest) w).
Proof.
  intros Hbib Hst.
  unfold FS.exists_ in Hbib. apply bool_decide_eq_true in Hbib.
  rewrite !loop_unfold. cbn zeta.
  apply bind_similar.
  { apply find_similar. intros. apply with_status_ne. lia. }
  intros pdflatex_cmd _. rewrite find_world.
  set (fs1 := (exec E (ticks w) _ (fs w)).2).
  assert (is_Some (fs1 !! (Path.parent tex_file // "references.bib"))) as Hbib1
    by by apply Hst.
  apply bind_similar.
  { apply run_similar. intros. apply with_status_ne. simpl. lia. }
  intros result _. rewrite run_world. simpl.
  set (fs2 := (exec E (S (ticks w)) _ fs1).2).
  assert (is_Some (fs2 !! (Path.parent tex_file // "references.bib"))) as Hbib2
    by by apply Hst.
  destruct (negb _); [done|].
  apply bind_similar; [done|].
  intros bib [= <-]. unfold world_of, path_exists, FS.exists_. simpl.
  rewrite bool_decide_eq_true_2 by done.
  apply bind_similar.
  - apply bind_similar.
    + destruct use_biblatex; (apply bind_similar; [|done]);
        apply find_similar; intros; apply with_status_ne; simpl; lia.
    + intros bib_cmd Hcmd.
      assert (ticks (world_of
                ((if use_biblatex
                  then let! biber_cmd := find_command E "biber" in
                       ret [biber_cmd; "document"]
                  else let! bibtex_cmd := find_command E "bibtex" in
                       ret [bibtex_cmd; "document"])
                   (World fs2 (S (S (ticks w)))))) = (3 + ticks w)%nat) as Ht.
      { destruct use_biblatex; unfold bind; rewrite find_command_eq; done. }
      by apply dropped_run_similar.
  - intros [] Hv.
    set (w3 := world_of _).
    assert (4 + ticks w ≤ ticks w3)%nat as Hw3.
    { subst w3.
      match goal with
      | |- (_ ≤ ticks (world_of (?c ?w0)))%nat =>
          change (sat c w0 (λ _ w' _, (4 + ticks w ≤ ticks w')%nat))
      end.
      apply sat_bind.
      assert (∀ w0, sat (if use_biblatex
                         then let! biber_cmd := find_command E "biber" in
                              ret [biber_cmd; "document"]
                         else let! bibtex_cmd := find_command E "bibtex" in
                              ret [bibtex_cmd; "document"]) w0
                (λ o w2 d, (∃ cmd, o = Returns cmd) ∧ ticks w2 = S (ticks w0))) as Hcmd.
      { intros w0. destruct use_biblatex; find_step; apply sat_ret; eauto. }
      eapply sat_mono; [apply Hcmd|]. clear Hcmd.
      intros ? w2 ? [[cmd ->] Hw2]. simpl in Hw2.
      apply sat_bind, sat_run. intros out fs' _.
      destruct out; simpl; try apply sat_ret; simpl; lia. }
    destruct (agrees_loop E (with_status (3 + ticks w) rc' E) (4 + ticks w)
                (with_status_agree _ _ _) tex_file use_biblatex rest w3 Hw3)
      as [Heq _].
    split; [exact (f_equal value_of Heq)|exact (f_equal world_of Heq)].
Qed.

Lemma bibliography_runs_none d :
  (∀ inv out, Run bibliography_run inv out ∉ d) → bibliography_runs d = 0%nat.
Proof.
  unfold bibliography_runs. induction d as [|e d IH]; intros Hd; [done|].
  simpl. destruct e as [[] inv out|]; simpl;
    try (apply IH; intros ? ? ?; eapply Hd; by right).
  destruct (Hd inv out). by left.
Qed.

Lemma is_find_not_bibliography f : is_find f → is_bibliography_run f = false.
Proof. by intros (? & ? & ->). Qed.

(** ** Scripts that only add files *)

Lemma scripted_stable (script : list (proc_outcome * (filesystem → filesystem)))
    (uuid : N) (root : path) (enc : string → string) (I : filesystem → Prop) :
  Forall (λ entry, ∀ fs, I fs → I (entry.2 fs)) script →
  stable (Environment (scripted script) uuid root enc) I.
Proof.
  intros Hs n inv fs Hfs. simpl. unfold scripted.
  destruct (script !! n) as [[out effect]|] eqn:Hn; [|done].
  simpl. eapply Forall_lookup_1 in Hs; [|done]. by apply Hs.
Qed.

(** * Properties of the pipeline *)

(** ** Tool resolution *)

(** C7. [find_command] never raises, whatever the name and whatever its
    [which] does.  It makes one call; when that call does not exit with
    status zero (it exits with another status, times out, or cannot be
    started) the result is the bare name unchanged, and otherwise it is the
    stripped output of [which]. *)
Theorem find_command_never_raises E command w :
  ∃ p out,
    value_of (find_command E command w) = Returns p ∧
    events_of (find_command E command w)
      = [Run (find_which command) (Invocation ["which"; command] None 5) out] ∧
    ((∀ so se, out ≠ Completed 0 so se) → p = command) ∧
    (∀ so se, out = Completed 0 so se → p = Str.strip so).
Proof.
  rewrite find_command_eq. simpl.
  destruct (exec E (ticks w) _ (fs w)) as [out fs'] eqn:Hx. simpl.
  exists (resolved command out), out. split_and!; try done.
  - intros Hne. destruct out as [rc so se| |msg]; simpl; try done.
    destruct (rc =? 0) eqn:Hrc; [|done].
    apply Z.eqb_eq in Hrc as ->. by destruct (Hne so se).
  - by intros so se ->.
Qed.

(** ** Readiness *)

Lemma readiness_formula E w :
  ∃ r compiler primary fallback,
    value_of (readiness_report E w) = Returns r ∧
    tools r !! "pdflatex" = Some compiler ∧
    tools r !! "pdftoppm" = Some primary ∧
    tools r !! "convert" = Some fallback ∧
    dom (tools r) = {["pdflatex"; "biber"; "bibtex"; "pdftoppm"; "convert"; "pdfcrop"]} ∧
    ready r = compiler && (primary || fallback).
Proof.
  assert (sat (readiness_report E) w (λ o _ _,
    ∃ r a b c, o = Returns r ∧ tools r !! "pdflatex" = Some a ∧
      tools r !! "pdftoppm" = Some b ∧ tools r !! "convert" = Some c ∧
      dom (tools r) = {["pdflatex"; "biber"; "bibtex"; "pdftoppm"; "convert"; "pdfcrop"]} ∧
      ready r = a && (b || c))) as H; [|exact H].
  unfold readiness_report.
  probe. rename x into pdflatex. probe. rename x into biber.
  probe. rename x into bibtex. probe. rename x into pdftoppm.
  probe. rename x into convert.
  apply sat_bind.
  assert (∀ w0, sat (if convert then ret convert else check_command E "magick") w0
            (λ o _ _, ∃ b, o = Returns b)) as Hc.
  { intros w0. destruct convert; [by eexists|].
    eapply sat_mono; [apply check_command_sat|]. by intros ? ? ? (? & _ & _). }
  eapply sat_mono; [apply Hc|]. clear Hc. intros ? ? ? [fallback ->].
  probe. rename x into pdfcrop.
  set (t := <["pdfcrop" := pdfcrop]> _).
  assert (dom t = {["pdflatex"; "biber"; "bibtex"; "pdftoppm"; "convert"; "pdfcrop"]})
    as Hdom.
  { subst t. rewrite !dom_insert_L, dom_empty_L. set_solver. }
  assert (t !! "pdflatex" = Some pdflatex) as Ha by (subst t; by simplify_map_eq).
  assert (t !! "pdftoppm" = Some pdftoppm) as Hb by (subst t; by simplify_map_eq).
  assert (t !! "convert" = Some fallback) as Hc by (subst t; by simplify_map_eq).
  clearbody t. unfold getitem. rewrite Ha.
  apply sat_bind, sat_ret.
  destruct pdflatex.
  - apply sat_bind. rewrite Hb. apply sat_bind, sat_ret. destruct pdftoppm.
    + apply sat_ret, sat_ret. by eexists _, true, true, fallback.
    + rewrite Hc. apply sat_ret, sat_ret. by eexists _, true, false, fallback.
  - apply sat_bind, sat_ret, sat_ret. by eexists _, false, pdftoppm, fallback.
Qed.

(** C5. [readiness_report] always returns a mapping over the six tools, and
    its verdict is the conjunction of the [pdflatex] entry with the
    disjunction of the [pdftoppm] and [convert] entries: ready if and only
    if the compiler and at least one of the two rasterizers are available.
    The entries of the bibliography engines and of the cropper do not count:
    any other report with the same three entries has the same verdict. *)
Theorem readiness_verdict E w :
  ∃ r,
    value_of (readiness_report E w) = Returns r ∧
    dom (tools r) = {["pdflatex"; "biber"; "bibtex"; "pdftoppm"; "convert"; "pdfcrop"]} ∧
    (ready r = true ↔
       tools r !! "pdflatex" = Some true ∧
       (tools r !! "pdftoppm" = Some true ∨ tools r !! "convert" = Some true)) ∧
    (∀ E' w' r',
       value_of (readiness_report E' w') = Returns r' →
       tools r' !! "pdflatex" = tools r !! "pdflatex" →
       tools r' !! "pdftoppm" = tools r !! "pdftoppm" →
       tools r' !! "convert" = tools r !! "convert" →
       ready r' = ready r).
Proof.
  destruct (readiness_formula E w) as (r & a & b & c & Hv & Ha & Hb & Hc & Hdom & Hr).
  exists r. split_and!; try done.
  - rewrite Hr, Ha, Hb, Hc. destruct a, b, c; naive_solver.
  - intros E' w' r' Hv' Ha' Hb' Hc'.
    destruct (readiness_formula E' w') as (r2 & a' & b' & c' & Hv2 & Ha2 & Hb2 & Hc2 & _ & Hr2).
    rewrite Hv' in Hv2. injection Hv2 as <-.
    rewrite Hr, Hr2. congruence.
Qed.

(** With the compiler and ImageMagick installed and [pdftoppm] missing, the
    system is ready; with the compiler alone it is not. *)
Example readiness_with_fallback_only :
  (∃ r,
     value_of (readiness_report
                 (scripted_env
                    [ found "/usr/bin/pdflatex";   (* which pdflatex *)
                      not_found; missing "biber";  (* which biber, biber --version *)
                      not_found; missing "bibtex"; (* which bibtex, bibtex --version *)
                      not_found; missing "pdftoppm";
                      not_found; missing "convert";
                      found "/usr/bin/magick";     (* which magick *)
                      not_found; missing "pdfcrop" ])
                 empty_world) = Returns r ∧
     ready r = true ∧
     tools r !! "pdftoppm" = Some false ∧
     tools r !! "convert" = Some true) ∧
  (∃ r,
     value_of (readiness_report
                 (scripted_env
                    [ found "/usr/bin/pdflatex";   (* which pdflatex *)
                      found "/usr/bin/biber";      (* which biber *)
                      found "/usr/bin/bibtex";     (* which bibtex *)
                      not_found; missing "pdftoppm";
                      not_found; missing "convert";
                      not_found; missing "magick";
                      found "/usr/bin/pdfcrop" ])  (* which pdfcrop *)
                 empty_world) = Returns r ∧
     ready r = false).
Proof.
  split; (eexists; split; [vm_compute; reflexivity|]);
    split_and?; vm_compute; reflexivity.
Qed.

(** ** Flags without effect, and the unchecked pass count *)

(** C9. [sanitize_graphics] and [hide_warnings] are accepted and never
    read: two calls of [render_snippet] that differ only in them run the
    same way, with the same result, the same final world and the same
    calls. *)
Theorem render_snippet_ignores_flags E body preamble_extra passes bib_entries
    use_biblatex (sanitize_graphics sanitize_graphics' hide_warnings hide_warnings' : bool) w :
  render_snippet E body preamble_extra sanitize_graphics passes bib_entries
      use_biblatex hide_warnings w
  = render_snippet E body preamble_extra sanitize_graphics' passes bib_entries
      use_biblatex hide_warnings' w.
Proof. reflexivity. Qed.

(** C10. Nothing checks that the pass count is at least one.  [api_compile]
    hands the [passes] of the request to [render_snippet] as it is, and
    for a count of zero or less [compile_latex] makes no call at all (no
    compiler pass, no bibliography run), leaves the world as it was, and
    reports success. *)
Theorem compile_latex_without_passes E (passes : Z) :
  passes ≤ 0 →
  (∀ tex_file use_biblatex hide_warnings w,
     compile_latex E tex_file passes use_biblatex hide_warnings w
     = (Returns CompileSuccess, w, [])) ∧
  (∀ body pe sg be ub hw w,
     api_compile E (Some (RequestData (Some body) pe sg (Some passes) be ub hw)) w
     = (let! result :=
          render_snippet E body (default "" pe) (default true sg) passes be
            (default false ub) (default false hw) in
        ret (result, 200)) w).
Proof.
  intros Hp. split; [|done].
  intros. unfold compile_latex, range.
  replace (Z.to_nat passes) with 0%nat by lia. reflexivity.
Qed.

Lemma compile_latex_without_passes_witness :
  compile_latex (scripted_env []) ws_tex 0 false false written_world
  = (Returns CompileSuccess, written_world, []).
Proof.
  refine (proj1 (compile_latex_without_passes (scripted_env []) 0 _) ws_tex false false
            written_world).
  lia.
Defined.

(** ** Rasterization *)

Lemma conversion_interrupted pdf_file png_file dpi crop r m s inv out :
  conversion pdf_file png_file dpi crop r m →
  Run s inv out ∈ m → completed out = false →
  r = ConvertFailure (conversion_error out).
Proof. intros Hc Hin Hout. conversion_cases Hc; elem_cases; done. Qed.

Lemma conversion_failure pdf_file png_file dpi crop error m :
  conversion pdf_file png_file dpi crop (ConvertFailure error) m →
  (∃ inv rc so se inv' rc' so' se',
     Run pdftoppm_run inv (Completed rc so se) ∈ m ∧
     Run imagemagick_run inv' (Completed rc' so' se') ∈ m ∧
     rc ≠ 0 ∧ rc' ≠ 0 ∧
     error = "Failed to convert PDF to PNG. pdftoppm result: " +:+ se'
             +:+ ", convert not available.") ∨
  (∃ s inv out,
     (s = pdfcrop_run ∨ s = pdftoppm_run ∨ s = imagemagick_run) ∧
     Run s inv out ∈ m ∧ completed out = false ∧ error = conversion_error out) ∨
  (Path.without_suffix png_file = None ∧ error = no_name_error png_file).
Proof.
  intros Hc. conversion_cases Hc.
  all: try (right; right; by split).
  all: try match goal with
           | |- context [Run pdftoppm_run ?i (Completed ?rc ?so ?se)
                         :: Run imagemagick_run ?i' (Completed ?rc' ?so' ?se') :: []] =>
               left; exists i, rc, so, se, i', rc', so', se'; split_and!; try done;
               rewrite ?elem_of_app, ?elem_of_cons; by eauto 10
           end.
  all: match goal with
       | H : completed ?o = false |- context [Run ?s ?i ?o] =>
           right; left; exists s, i, o
       end.
  all: split_and!; [by eauto| |done..].
  all: rewrite ?elem_of_app, ?elem_of_cons; by eauto 10.
Qed.

(** C6, as the code has it.  [pdf_to_png] never raises: every run returns a
    result.  When no rasterizer call exits with status zero (each one exits
    with another status, times out, or cannot be started because the tool
    is missing), that result is a failure.  The error of the failure names
    the tools only when [pdftoppm] and then ImageMagick both exit with a
    non-zero status: it is then "Failed to convert PDF to PNG. pdftoppm
    result: ..., convert not available." around the standard error of the
    ImageMagick call.  When a call of [pdfcrop], [pdftoppm] or ImageMagick
    does not run to its end, the error is "PDF conversion timed out" if it
    timed out, and "Conversion error: " followed by the text of the
    exception if it could not be started; whatever tool that text names, it
    is not by the doing of [pdf_to_png].  There is no other failure, but for
    an output path without a name. *)
Theorem pdf_to_png_reports_failure E pdf_file png_file dpi crop w :
  ∃ r,
    value_of (pdf_to_png E pdf_file png_file dpi crop w) = Returns r ∧
    ((∀ s inv so se,
        Run s inv (Completed 0 so se) ∈ events_of (pdf_to_png E pdf_file png_file dpi crop w) →
        s ≠ pdftoppm_run ∧ s ≠ imagemagick_run) →
     ∃ error, r = ConvertFailure error) ∧
    (∀ inv rc so se inv' rc' so' se',
       Run pdftoppm_run inv (Completed rc so se)
         ∈ events_of (pdf_to_png E pdf_file png_file dpi crop w) →
       Run imagemagick_run inv' (Completed rc' so' se')
         ∈ events_of (pdf_to_png E pdf_file png_file dpi crop w) →
       rc ≠ 0 → rc' ≠ 0 →
       ∃ error, r = ConvertFailure error ∧
                Str.contains "pdftoppm" error = true ∧
                Str.contains "convert" error = true) ∧
    (∀ inv msg,
       Run pdftoppm_run inv (SpawnError msg)
         ∈ events_of (pdf_to_png E pdf_file png_file dpi crop w) →
       r = ConvertFailure ("Conversion error: " +:+ msg)) ∧
    (∀ s inv,
       s = pdfcrop_run ∨ s = pdftoppm_run ∨ s = imagemagick_run →
       (Run s inv TimedOut ∈ events_of (pdf_to_png E pdf_file png_file dpi crop w) →
        r = ConvertFailure "PDF conversion timed out") ∧
       (∀ msg,
          Run s inv (SpawnError msg)
            ∈ events_of (pdf_to_png E pdf_file png_file dpi crop w) →
          r = ConvertFailure ("Conversion error: " +:+ msg))) ∧
    (∀ error,
       r = ConvertFailure error →
       (∃ inv rc so se inv' rc' so' se',
          Run pdftoppm_run inv (Completed rc so se)
            ∈ events_of (pdf_to_png E pdf_file png_file dpi crop w) ∧
          Run imagemagick_run inv' (Completed rc' so' se')
            ∈ events_of (pdf_to_png E pdf_file png_file dpi crop w) ∧
          rc ≠ 0 ∧ rc' ≠ 0 ∧
          error = "Failed to convert PDF to PNG. pdftoppm result: " +:+ se'
                  +:+ ", convert not available.") ∨
       (∃ s inv out,
          (s = pdfcrop_run ∨ s = pdftoppm_run ∨ s = imagemagick_run) ∧
          Run s inv out ∈ events_of (pdf_to_png E pdf_file png_file dpi crop w) ∧
          completed out = false ∧ error = conversion_error out) ∨
       (Path.without_suffix png_file = None ∧ error = no_name_error png_file)).
Proof.
  destruct (pdf_to_png_conversion E pdf_file png_file dpi crop w) as (r & Hr & Hc).
  exists r. split; [done|].
  set (d := events_of _) in *. clearbody d.
  pose proof (λ e, elem_of_main e d) as Hmain.
  set (m := main_events d) in *. clearbody m.
  assert (∀ e, is_aux e = false → e ∈ d → e ∈ m) as Hin by (intros; by apply Hmain).
  split_and!.
  - intros Hnone.
    assert (∀ s inv so se, Run s inv (Completed 0 so se) ∈ m →
              s ≠ pdftoppm_run ∧ s ≠ imagemagick_run) as Hm.
    { intros ? ? ? ? Hi. eapply Hnone. by apply Hmain in Hi as [Hi _]. }
    clear Hnone. destruct r as [|error]; [|by eexists]. exfalso.
    conversion_cases Hc;
      match type of Hm with
      | ∀ s inv so se, _ ∈ ?l → _ =>
          match l with
          | context [Run imagemagick_run ?i (Completed 0 ?a ?b)] =>
              destruct (Hm imagemagick_run i a b) as [_ ?]
          | context [Run pdftoppm_run ?i (Completed 0 ?a ?b)] =>
              destruct (Hm pdftoppm_run i a b) as [? _]
          end
      end; try done; rewrite ?elem_of_app, ?elem_of_cons; eauto 10.
  - intros inv rc so se inv' rc' so' se' H1 H2 Hrc Hrc'.
    apply Hin in H1, H2; [|done..].
    conversion_cases Hc; elem_cases; try done.
    all: eexists; split; [done|]; split; reflexivity.
  - intros inv msg H1. apply Hin in H1; [|done].
    by apply (conversion_interrupted _ _ _ _ _ _ _ _ _ Hc H1).
  - intros s inv Hs. split.
    + intros H1. apply Hin in H1; [|by destruct Hs as [->|[->| ->]]].
      by apply (conversion_interrupted _ _ _ _ _ _ _ _ _ Hc H1).
    + intros msg H1. apply Hin in H1; [|by destruct Hs as [->|[->| ->]]].
      by apply (conversion_interrupted _ _ _ _ _ _ _ _ _ Hc H1).
  - intros error ->.
    destruct (conversion_failure _ _ _ _ _ _ Hc)
      as [(inv & rc & so & se & inv' & rc' & so' & se' & H1 & H2 & ? & ? & ->)
         |[(s & inv & out & Hs & H1 & ? & ->)|[? ->]]].
    + left. exists inv, rc, so, se, inv', rc', so', se'.
      apply Hmain in H1 as [H1 _]. apply Hmain in H2 as [H2 _]. done.
    + right. left. exists s, inv, out. by apply Hmain in H1 as [H1 _].
    + right. by right.
Qed.

Lemma pdf_to_png_reports_failure_witness :
  value_of (pdf_to_png no_rasterizer_env ws_pdf ws_png 300 true compiled_world)
  = Returns (ConvertFailure
               "Conversion error: [Errno 2] No such file or directory: 'pdftoppm'").
Proof.
  destruct (pdf_to_png_reports_failure no_rasterizer_env ws_pdf ws_png 300 true
              compiled_world) as (r & Hr & _ & _ & Hmissing & _).
  rewrite Hr. f_equal.
  apply (Hmissing (pdftoppm_call "pdftoppm" 300 ws_pdf ws_png)).
  apply (list_elem_of_lookup_2 _ 3). vm_compute. reflexivity.
Defined.

(** C6, as stated, fails: the failure does not always name the attempted
    tools.  In the first run [pdftoppm] exits with status 1 and ImageMagick
    is not installed: both were tried, and the error is the text of the
    exception of the second, without the name of [pdftoppm].  In the second
    run [pdftoppm] times out, and the error names no tool at all. *)
Lemma failure_without_tool_names :
  (value_of (pdf_to_png fallback_missing_env ws_pdf ws_png 300 true compiled_world)
     = Returns (ConvertFailure
                  "Conversion error: [Errno 2] No such file or directory: 'magick'") ∧
   main_events
     (events_of (pdf_to_png fallback_missing_env ws_pdf ws_png 300 true compiled_world))
     = [ Run pdftoppm_run (pdftoppm_call "/usr/bin/pdftoppm" 300 ws_pdf ws_png)
           (Completed 1 "" "Syntax Error");
         Run imagemagick_run (imagemagick_call "magick" 300 ws_pdf ws_png)
           (SpawnError "[Errno 2] No such file or directory: 'magick'") ] ∧
   names_attempted_tools
     "Conversion error: [Errno 2] No such file or directory: 'magick'"
     (events_of (pdf_to_png fallback_missing_env ws_pdf ws_png 300 true compiled_world))
     = false) ∧
  (value_of (pdf_to_png pdftoppm_hangs_env ws_pdf ws_png 300 true compiled_world)
     = Returns (ConvertFailure "PDF conversion timed out") ∧
   main_events
     (events_of (pdf_to_png pdftoppm_hangs_env ws_pdf ws_png 300 true compiled_world))
     = [ Run pdftoppm_run (pdftoppm_call "/usr/bin/pdftoppm" 300 ws_pdf ws_png)
           TimedOut ] ∧
   names_attempted_tools "PDF conversion timed out"
     (events_of (pdf_to_png pdftoppm_hangs_env ws_pdf ws_png 300 true compiled_world))
     = false).
Proof. repeat split; vm_compute; reflexivity. Qed.


(** *** The source of the rasterizer *)



















(** What the crop step leaves is looked for in the file system, not in what
    [pdfcrop] says.  In the first run [pdfcrop] exits with an error and
    writes nothing, but a cropped file of an earlier run lies beside the
    document: it is rasterized, and the image is not trimmed.  In the second
    run there is no [pdfcrop], the crop step does not run, and the document
    is itself named [document-cropped.pdf]: the image is not trimmed
    either. *)
Example cropped_file_decides :
  main_events (events_of (pdf_to_png crop_fails_env ws_pdf ws_png 300 true stale_crop_world))
    = [ Run pdfcrop_run
          (Invocation ["/usr/bin/pdfcrop"; "--margins"; "3"; Path.str ws_pdf;
                       Path.str (cropped_of ws_pdf)] None 30)
          (Completed 1 "" "pdfcrop: ghostscript missing");
        Run pdftoppm_run (pdftoppm_call "/usr/bin/pdftoppm" 300 (cropped_of ws_pdf) ws_png)
          (Completed 0 "" "") ] ∧
  main_events (events_of (pdf_to_png primary_only_env (cropped_of ws_pdf) ws_png 300 true
                            stale_crop_world))
    = [ Run pdftoppm_run (pdftoppm_call "/usr/bin/pdftoppm" 300 (cropped_of ws_pdf) ws_png)
          (Completed 0 "" "") ].
Proof. split; vm_compute; reflexivity. Qed.

(** The fallback path does not look at the source: here the cropped file is
    the source of both rasterizers, [pdftoppm] fails, [convert] succeeds,
    and the image is trimmed. *)
Example fallback_trims_cropped_source :
  value_of (pdf_to_png fallback_env ws_pdf ws_png 300 true compiled_world)
    = Returns ConvertSuccess ∧
  main_events (events_of (pdf_to_png fallback_env ws_pdf ws_png 300 true compiled_world))
    = [ Run pdfcrop_run
          (Invocation ["/usr/bin/pdfcrop"; "--margins"; "3"; Path.str ws_pdf;
                       Path.str (cropped_of ws_pdf)] None 30)
          (Completed 0 "" "");
        Run pdftoppm_run (pdftoppm_call "/usr/bin/pdftoppm" 300 (cropped_of ws_pdf) ws_png)
          (Completed 1 "" "Syntax Error");
        Run imagemagick_run
          (imagemagick_call "/usr/bin/convert" 300 (cropped_of ws_pdf) ws_png)
          (Completed 0 "" "");
        TrimCalled ws_png ].
Proof. split; vm_compute; reflexivity. Qed.

(** ** Compilation *)

(** C3, as the code has it.  When a compiler pass exits with a non-zero
    status, [compile_latex] stops there: that call is the last one it makes,
    no earlier pass had failed, and the result is the failure "LaTeX
    compilation failed" whose log is the standard output of that pass, a
    newline, and its standard error.  The output of the earlier passes is
    not in the log. *)
Theorem compile_latex_aborts E tex_file passes use_biblatex hide_warnings w
    i inv rc so se :
  rc ≠ 0 →
  Run (compiler_pass i) inv (Completed rc so se)
    ∈ events_of (compile_latex E tex_file passes use_biblatex hide_warnings w) →
  value_of (compile_latex E tex_file passes use_biblatex hide_warnings w)
    = Returns (CompileFailure "LaTeX compilation failed"
                 (Some (so +:+ Str.nl +:+ se))) ∧
  ∃ d0,
    events_of (compile_latex E tex_file passes use_biblatex hide_warnings w)
      = d0 ++ [Run (compiler_pass i) inv (Completed rc so se)] ∧
    ∀ e, e ∈ d0 → ¬ failed_pass e.
Proof.
  intros Hrc Hin.
  destruct (compile_latex_run E tex_file passes use_biblatex hide_warnings w)
    as (o & Hrun & Hv).
  destruct (loop_run_aborts _ _ _ _ Hrun (ltac:(by eexists _, _, _, _, _)) Hin)
    as [(? & ? & ? & ? & ? & [= <- <- <- <- <-] & ->) Hd0].
  by rewrite Hv.
Qed.

Lemma compile_latex_aborts_witness :
  value_of (compile_latex second_pass_fails_env ws_tex 2 false false written_world)
  = Returns (CompileFailure "LaTeX compilation failed"
               (Some ("pass 1: ! Undefined control sequence." +:+ Str.nl +:+ "pass 1: fatal"))).
Proof.
  refine (proj1 (compile_latex_aborts second_pass_fails_env ws_tex 2 false false
                   written_world 1
                   (Invocation ["/usr/bin/pdflatex"; "-interaction=nonstopmode";
                                "/srv/temp/00000000-0000-0000-0000-000000000b5e/document.tex"] (Some ws_dir) 30)
                   1 "pass 1: ! Undefined control sequence." "pass 1: fatal" _ _)).
  - lia.
  - apply (list_elem_of_lookup_2 _ 3). vm_compute. reflexivity.
Defined.

(** C3, as stated, fails: with two passes of which the second exits with
    status 1, the log of the failure is the output of the second pass only;
    the standard output of pass 0 is nowhere in it. *)
Lemma log_drops_earlier_passes :
  ∃ log,
    value_of (compile_latex second_pass_fails_env ws_tex 2 false false written_world)
      = Returns (CompileFailure "LaTeX compilation failed" (Some log)) ∧
    ¬ covers_passes log
        (events_of (compile_latex second_pass_fails_env ws_tex 2 false false written_world)).
Proof.
  eexists. split; [vm_compute; reflexivity|].
  intros Hcov.
  destruct (Hcov 0%nat
              (Invocation ["/usr/bin/pdflatex"; "-interaction=nonstopmode";
                           "/srv/temp/00000000-0000-0000-0000-000000000b5e/document.tex"] (Some ws_dir) 30)
              0 "pass 0: 1 page" "pass 0: label changed") as [Hso _].
  - apply (list_elem_of_lookup_2 _ 1). vm_compute. reflexivity.
  - vm_compute in Hso. discriminate Hso.
Qed.

Lemma loop_run_first_failed rest o d inv out :
  loop_run (0%nat :: rest) o d → 0%nat ∉ rest →
  Run (compiler_pass 0) inv out ∈ d →
  (∀ so se, out ≠ Completed 0 so se) →
  ∃ f0, is_find f0 ∧ d = [f0; Run (compiler_pass 0) inv out] ∧
        ∃ error log, compile_outcome o = CompileFailure error log.
Proof.
  intros Hrun Hrest Hin Hout.
  inversion Hrun as
    [|i rest0 f inv0 out0 x Hf Hx|i rest0 f inv0 rc so se Hf Hrc
     |rest0 f inv0 so se f' inv' out' x Hf Hf' Hx
     |i rest0 f inv0 so se bibs o0 d0 Hf Hb Hrun0]; subst.
  - elem_cases; [by failed_inv|]. exists f. split_and!; [done..|].
    destruct x; by eexists _, _.
  - elem_cases; [by failed_inv|]. exists f. split_and!; [done..|]. by eexists _, _.
  - exfalso. elem_cases; try (by failed_inv). by eapply Hout.
  - exfalso.
    apply elem_of_cons in Hin as [<-|Hin]; [by failed_inv|].
    apply elem_of_cons in Hin as [?|Hin]; [simplify_eq; by eapply Hout|].
    apply elem_of_app in Hin as [Hin|Hin].
    + inversion Hb; subst; elem_cases; by failed_inv.
    + by destruct (loop_run_later _ _ _ Hrun0 Hrest _ Hin) as [_ Hno];
        destruct (Hno inv out).
Qed.

(** C2, as the code has it.  Take a call of [compile_latex] with at least
    two passes, a bibliography file in the workspace that no external
    program removes, and a pass 0 that exits with status zero.  Then its
    calls are: the lookup of the compiler, pass 0, the lookup of the
    bibliography tool, the bibliography run, and then the rest, in which
    there is no bibliography run and no pass 0, and which starts with the
    lookup of the compiler and pass 1 unless the bibliography run timed out
    or could not be started.  So the bibliography tool runs exactly once,
    after pass 0 and before pass 1.  Its exit status does not matter:
    replacing the exit status of that call (the fourth since the start of
    [compile_latex]) by any other leaves the result unchanged.

    In every call, whatever the workspace holds and however many passes are
    asked for: when pass 0 does not exit with status zero (it exits with
    another status, times out, or cannot be started), the calls are the
    lookup of the compiler and pass 0 and nothing else, so [compile_latex]
    returns at once and the bibliography tool is not invoked; the result is
    a failure. *)
Theorem bibliography_runs_once E tex_file passes use_biblatex hide_warnings w :
  (2 ≤ passes →
   FS.exists_ (Path.parent tex_file // "references.bib") (fs w) = true →
   stable E (λ fs, is_Some (fs !! (Path.parent tex_file // "references.bib"))) →
   (∃ inv so se,
      Run (compiler_pass 0) inv (Completed 0 so se)
        ∈ events_of (compile_latex E tex_file passes use_biblatex hide_warnings w)) →
   (∃ f0 inv0 so se fb invb outb rest,
      events_of (compile_latex E tex_file passes use_biblatex hide_warnings w)
        = f0 :: Run (compiler_pass 0) inv0 (Completed 0 so se)
          :: fb :: Run bibliography_run invb outb :: rest ∧
      is_find f0 ∧ is_find fb ∧
      (∀ inv out, Run bibliography_run inv out ∉ rest) ∧
      (∀ inv out, Run (compiler_pass 0) inv out ∉ rest) ∧
      (completed outb = true →
       ∃ f1 inv1 out1 rest',
         rest = f1 :: Run (compiler_pass 1) inv1 out1 :: rest' ∧ is_find f1)) ∧
   bibliography_runs
     (events_of (compile_latex E tex_file passes use_biblatex hide_warnings w)) = 1%nat ∧
   (∀ rc,
      value_of (compile_latex (with_status (3 + ticks w) rc E) tex_file passes
                  use_biblatex hide_warnings w)
      = value_of (compile_latex E tex_file passes use_biblatex hide_warnings w))) ∧
  (∀ inv out,
     Run (compiler_pass 0) inv out
       ∈ events_of (compile_latex E tex_file passes use_biblatex hide_warnings w) →
     (∀ so se, out ≠ Completed 0 so se) →
     (∃ f0,
        is_find f0 ∧
        events_of (compile_latex E tex_file passes use_biblatex hide_warnings w)
          = [f0; Run (compiler_pass 0) inv out]) ∧
     (∀ invb outb,
        Run bibliography_run invb outb
          ∉ events_of (compile_latex E tex_file passes use_biblatex hide_warnings w)) ∧
     bibliography_runs
       (events_of (compile_latex E tex_file passes use_biblatex hide_warnings w)) = 0%nat ∧
     ∃ error log,
       value_of (compile_latex E tex_file passes use_biblatex hide_warnings w)
         = Returns (CompileFailure error log)).
Proof.
  split.
  - intros Hp Hbib Hst Hok.
    assert (∃ rest, range passes = 0%nat :: 1%nat :: rest ∧ 0%nat ∉ rest)
      as (later & Hrange & Hlater).
    { unfold range. destruct (Z.to_nat passes) as [|[|n]] eqn:Hn; [lia..|].
      exists (seq 2 n). split; [done|]. rewrite list_elem_of_In, in_seq. lia. }
    rewrite compile_latex_events, Hrange in *.
    pose proof (first_pass_then_bibliography E tex_file use_biblatex later w
                  Hlater Hbib Hst Hok) as Hshape.
    split; [exact Hshape|]. split.
    + destruct Hshape as (f0 & inv0 & so & se & fb & invb & outb & rest & -> & Hf0 & Hfb
                          & Hnone & _).
      unfold bibliography_runs. simpl.
      rewrite (is_find_not_bibliography _ Hf0), (is_find_not_bibliography _ Hfb). simpl.
      f_equal. by apply bibliography_runs_none.
    + intros rc. rewrite !compile_latex_value, Hrange. do 2 f_equal.
      by apply bibliography_status_irrelevant.
  - intros inv out Hin Hout.
    destruct (compile_latex_run E tex_file passes use_biblatex hide_warnings w)
      as (o & Hrun & Hv).
    set (d := events_of _) in *. clearbody d.
    assert (∃ rest, range passes = 0%nat :: rest ∧ 0%nat ∉ rest) as (rest & Hrange & Hrest).
    { unfold range in *. destruct (Z.to_nat passes) as [|n].
      - inversion Hrun; subst. by apply elem_of_nil in Hin.
      - exists (seq 1 n). split; [done|]. rewrite list_elem_of_In, in_seq. lia. }
    rewrite Hrange in Hrun.
    destruct (loop_run_first_failed _ _ _ _ _ Hrun Hrest Hin Hout)
      as (f0 & Hf0 & -> & error & log & Ho).
    assert (∀ invb outb, Run bibliography_run invb outb ∉ [f0; Run (compiler_pass 0) inv out])
      as Hnone by (intros invb outb Hb; elem_cases; by failed_inv).
    split_and!.
    + by exists f0.
    + done.
    + by apply bibliography_runs_none.
    + exists error, log. by rewrite Hv, Ho.
Qed.

Lemma bibliography_runs_once_witness :
  bibliography_runs
    (events_of (compile_latex bibtex_fails_env ws_tex 2 false false cited_world)) = 1%nat ∧
  (∀ rc,
     value_of (compile_latex (with_status 3 rc bibtex_fails_env) ws_tex 2 false false
                 cited_world)
     = value_of (compile_latex bibtex_fails_env ws_tex 2 false false cited_world)).
Proof.
  refine (proj2 (proj1 (bibliography_runs_once bibtex_fails_env ws_tex 2 false false
                          cited_world) _ _ _ _)).
  - lia.
  - vm_compute. reflexivity.
  - apply scripted_stable. repeat constructor; simpl; try done.
    intros fs Hfs. by rewrite lookup_insert_ne.
  - eexists _, _, _. apply (list_elem_of_lookup_2 _ 1). vm_compute. reflexivity.
Defined.

(** C2, as stated, fails: with a bibliography file in the workspace and two
    passes asked for, a pass 0 that exits with status 1 ends the call, and
    the bibliography tool is not invoked at all. *)
Lemma no_bibliography_after_failed_pass :
  FS.exists_ (Path.parent ws_tex // "references.bib") (fs cited_world) = true ∧
  bibliography_runs
    (events_of (compile_latex first_pass_fails_env ws_tex 2 false false cited_world))
  = 0%nat.
Proof. split; vm_compute; reflexivity. Qed.

(** ** The workspace *)

Lemma truthy_spec v : truthy v = true ↔ ∃ s, v = Some s ∧ s ≠ "".
Proof.
  destruct v as [s|]; simpl; [|naive_solver].
  rewrite negb_true_iff, String.eqb_neq. naive_solver.
Qed.

Lemma under_div p name : FS.under p (p // name).
Proof. by apply prefix_app_r. Qed.

Lemma div_ne p name : p // name ≠ p.
Proof.
  unfold Path.div. intros H. apply (f_equal length) in H.
  rewrite length_app in H. simpl in H. lia.
Qed.

Lemma div_inj p a b : p // a = p // b → a = b.
Proof. unfold Path.div. intros H. by apply app_inj_tail in H as [_ ->]. Qed.

Lemma mkdir_sat p w (Q : outcome () → world → list event → Prop) :
  (fs w !! p = Some Dir → Q (Returns ()) w []) →
  (fs w !! p = None → fs w !! Path.parent p = Some Dir →
   Q (Returns ()) (World (<[p := Dir]> (fs w)) (ticks w)) []) →
  (∀ e, Q (Raises e) w []) →
  sat (mkdir_exist_ok p) w Q.
Proof.
  intros Hdir Hnew Hraise. unfold sat, mkdir_exist_ok, value_of, world_of, events_of.
  destruct (fs w !! p) as [[|c0]|]; simpl.
  - by apply Hdir.
  - apply Hraise.
  - destruct (fs w !! Path.parent p) as [[|c1]|]; simpl;
      [by apply Hnew|apply Hraise..].
Qed.

Lemma write_text_sat p content w (Q : outcome () → world → list event → Prop) :
  (fs w !! p ≠ Some Dir → fs w !! Path.parent p = Some Dir →
   Q (Returns ()) (World (<[p := File content]> (fs w)) (ticks w)) []) →
  (∀ e, Q (Raises e) w []) →
  sat (write_text p content) w Q.
Proof.
  intros Hnew Hraise. unfold sat, write_text, value_of, world_of, events_of.
  destruct (fs w !! p) as [[|c0]|]; simpl; [apply Hraise|..];
    (destruct (fs w !! Path.parent p) as [[|c1]|]; simpl;
       [by apply Hnew|apply Hraise..]).
Qed.

(** C8, as the code has it.  When the scratch directory of the request is
    new (nothing exists at its path or below) and the set-up of
    [render_snippet] goes through, the file [references.bib] exists in that
    directory, at the moment [compile_latex] is called, if and only if
    [bib_entries] was supplied and is not the empty string. *)
Theorem bibliography_file_iff_nonempty E body preamble_extra bib_entries use_biblatex w ws :
  (∀ q, FS.under (TEMP_DIR E // UUID.str (uuid4 E)) q → fs w !! q = None) →
  value_of (prepare_workspace E body preamble_extra bib_entries use_biblatex w)
    = Returns ws →
  temp_path ws = TEMP_DIR E // UUID.str (uuid4 E) ∧
  tex_file ws = temp_path ws // "document.tex" ∧
  (FS.exists_ (temp_path ws // "references.bib")
     (fs (world_of (prepare_workspace E body preamble_extra bib_entries use_biblatex w)))
   = true
   ↔ ∃ s, bib_entries = Some s ∧ s ≠ "").
Proof.
  intros Hfresh. rewrite <- truthy_spec.
  assert (sat (prepare_workspace E body preamble_extra bib_entries use_biblatex) w
    (λ o w' _, ∀ ws, o = Returns ws →
       temp_path ws = TEMP_DIR E // UUID.str (uuid4 E) ∧
       tex_file ws = temp_path ws // "document.tex" ∧
       (FS.exists_ (temp_path ws // "references.bib") (fs w') = true
        ↔ truthy bib_entries = true))) as H; [|by apply H].
  unfold prepare_workspace.
  set (tp := TEMP_DIR E // UUID.str (uuid4 E)).
  assert (fs w !! tp = None) as Htp by by apply Hfresh.
  assert (fs w !! (tp // "references.bib") = None) as Hbib by apply Hfresh, under_div.
  apply sat_bind, mkdir_sat; [by rewrite Htp| |done]. intros _ _.
  destruct (truthy bib_entries) eqn:Htruthy; [destruct use_biblatex|].
  1,2: apply sat_bind, write_text_sat; [|done]; intros _ _.
  1,2: apply sat_bind, write_text_sat; [|done]; intros _ _.
  1,2: apply sat_ret; intros ws0 [= <-]; simpl; split_and!; try done.
  1,2: unfold FS.exists_; simpl; rewrite lookup_insert_eq.
  1,2: by rewrite bool_decide_eq_true_2.
  apply sat_bind, write_text_sat; [|done]; intros _ _.
  apply sat_bind, sat_ret, sat_ret. intros ws0 [= <-]; simpl; split_and!; try done.
  unfold FS.exists_; simpl.
  rewrite lookup_insert_ne by (by intros [=]%div_inj).
  rewrite lookup_insert_ne by (symmetry; apply div_ne).
  rewrite Hbib. split; [|done]. by intros [? [=]]%bool_decide_eq_true.
Qed.

Lemma bibliography_file_iff_nonempty_witness :
  FS.exists_ ws_bib
    (fs (world_of (prepare_workspace (scripted_env []) "$E=mc^2$" ""
                     (Some "@book{knuth84}") false empty_world)))
  = true.
Proof.
  refine (proj2 (proj2 (proj2
    (bibliography_file_iff_nonempty (scripted_env []) "$E=mc^2$" ""
       (Some "@book{knuth84}") false empty_world (Workspace ws_id ws_dir ws_tex) _ _))) _).
  - intros q [k ->]. apply lookup_singleton_ne. intros H.
    apply (f_equal length) in H. simpl in H. lia.
  - vm_compute. reflexivity.
  - exists "@book{knuth84}". split; [reflexivity|discriminate].
Defined.

(** C8, as stated, fails: an empty string supplied as [bib_entries] is a
    supplied value, and no bibliography file is written for it. *)
Lemma empty_bibliography_not_written :
  value_of (prepare_workspace (scripted_env []) "$E=mc^2$" "" (Some "") false empty_world)
    = Returns (Workspace ws_id ws_dir ws_tex) ∧
  ¬ (FS.exists_ ws_bib
       (fs (world_of (prepare_workspace (scripted_env []) "$E=mc^2$" "" (Some "") false
                        empty_world))) = true
     ↔ is_Some (Some "" : option string)).
Proof.
  split; [vm_compute; reflexivity|].
  intros [_ H]. specialize (H (ltac:(by eexists))).
  vm_compute in H. discriminate H.
Qed.

(** C1 does not hold of the code.  When everything goes well the scratch
    directory is removed before [render_snippet] returns.  On the three
    other ways out it is not: when the compiler exits with status 1, when
    no rasterizer can be started, and when reading the image raises, the
    failure is returned with the directory still on disk. *)
Theorem workspace_left_after_failure :
  (value_of (render_snippet all_well_env "$E=mc^2$" "" true 1 None false false empty_world)
     = Returns (RenderSuccess "PNG" ws_id) ∧
   FS.exists_ ws_dir
     (fs (world_of (render_snippet all_well_env "$E=mc^2$" "" true 1 None false false
                      empty_world))) = false) ∧
  (FS.exists_ ws_dir (fs empty_world) = false ∧
   value_of (render_snippet first_pass_fails_env "\badcommand{x}" "" true 1 None false
               false empty_world)
     = Returns (RenderFailure "LaTeX compilation failed"
                  (Some ("! Undefined control sequence." +:+ Str.nl))) ∧
   FS.exists_ ws_dir
     (fs (world_of (render_snippet first_pass_fails_env "\badcommand{x}" "" true 1 None
                      false false empty_world))) = true ∧
   FS.exists_ ws_tex
     (fs (world_of (render_snippet first_pass_fails_env "\badcommand{x}" "" true 1 None
                      false false empty_world))) = true) ∧
  (value_of (render_snippet compiles_only_env "$E=mc^2$" "" true 1 None false false
               empty_world)
     = Returns (RenderFailure
                  "Conversion error: [Errno 2] No such file or directory: 'pdftoppm'"
                  None) ∧
   FS.exists_ ws_dir
     (fs (world_of (render_snippet compiles_only_env "$E=mc^2$" "" true 1 None false false
                      empty_world))) = true) ∧
  (value_of (render_snippet no_image_env "$E=mc^2$" "" true 1 None false false empty_world)
     = Returns (RenderFailure
                  ("Unexpected error: [Errno 2] No such file or directory: '"
                   +:+ Path.str ws_png +:+ "'")
                  None) ∧
   FS.exists_ ws_dir
     (fs (world_of (render_snippet no_image_env "$E=mc^2$" "" true 1 None false false
                      empty_world))) = true).
Proof. split_and!; vm_compute; reflexivity. Qed.

(** * More of the pipeline *)

(** ** [check_command] *)

Lemma check_command_exact E command w :
  sat (check_command E command) w (λ o _ d,
    ∃ b, o = Returns b ∧ probed command b d).
Proof.
  unfold check_command. apply sat_try, sat_bind, sat_run.
  intros out fs' _.
  destruct out as [rc so se| |msg]; simpl;
    try (apply sat_ret; eexists; split; [done|]; by apply probed_which_raised).
  destruct (rc =? 0) eqn:Hrc.
  { apply Z.eqb_eq in Hrc as ->. apply sat_ret. eexists; split; [done|].
    apply probed_found. }
  apply Z.eqb_neq in Hrc.
  apply sat_bind, sat_run. intros out fs'' _.
  destruct out as [rc' so' se'| |msg]; simpl; apply sat_ret;
    (eexists; split; [done|]).
  - by apply (probed_version command rc so se (Completed rc' so' se')).
  - by apply (probed_version command rc so se TimedOut).
  - by apply (probed_version command rc so se (SpawnError msg)).
Qed.

Lemma probed_available command b d :
  probed command b d → (b = true ↔ available command d).
Proof.
  unfold available. intros Hp. inversion Hp as [out Hout|so se|rc so se out Hrc]; subst.
  - split; [done|]. intros (so & se & [Hin|Hin]); elem_cases.
  - split; [|done]. intros _. exists so, se. left. by left.
  - split.
    + destruct out as [rc' so' se'| |msg]; simpl; try done.
      intros ->%Z.eqb_eq. exists so', se'. right. right. by left.
    + intros (so0 & se0 & [Hin|Hin]); elem_cases; done.
Qed.

(** X1. [check_command] never raises and makes one or two calls, each with
    a timeout of 5 seconds.  It first runs [which]; if that exits with status
    zero the answer is true; if it exits with another status the command is
    run with [--version], and the answer is whether that exits with status
    zero; if [which] times out or cannot be started the answer is false and
    [--version] is not tried.  So the answer is true exactly when one of the
    probes exited with status zero. *)
Theorem check_command_verdict E command w :
  ∃ b out,
    value_of (check_command E command w) = Returns b ∧
    (b = true ↔ available command (events_of (check_command E command w))) ∧
    match out with
    | Completed rc _ _ =>
        if rc =? 0
        then events_of (check_command E command w)
             = [Run (check_which command) (which_call command) out] ∧ b = true
        else ∃ out',
             events_of (check_command E command w)
             = [Run (check_which command) (which_call command) out;
                Run (check_version command) (version_call command) out'] ∧
             b = exit_zero out'
    | _ =>
        events_of (check_command E command w)
        = [Run (check_which command) (which_call command) out] ∧ b = false
    end.
Proof.
  destruct (check_command_exact E command w) as (b & Hv & Hp).
  pose proof (probed_available _ _ _ Hp) as Hav.
  set (d := events_of _) in *. clearbody d.
  inversion Hp as [out Hout|so se|rc so se out Hrc]; subst.
  - exists false, out. split_and!; try done. by destruct out.
  - exists true, (Completed 0 so se). by split_and!.
  - exists (exit_zero out), (Completed rc so se). split_and!; try done.
    rewrite (proj2 (Z.eqb_neq rc 0) Hrc). eauto.
Qed.

(** ** [_trim_png_inplace] *)

Ltac check_step :=
  apply sat_bind; (eapply sat_mono; [apply check_command_exact|]);
  intros ? ? ? (? & -> & ?).

Lemma find_command_found E command w :
  sat (find_command E command) w (λ o _ d,
    ∃ f cmd, o = Returns cmd ∧ d = [f] ∧ found_by command f cmd).
Proof.
  unfold sat. rewrite find_command_eq. simpl.
  eexists _, _. split_and!; try done. by eexists.
Qed.

Ltac found_step :=
  apply sat_bind; (eapply sat_mono; [apply find_command_found|]);
  intros ? ? ? (? & ? & -> & -> & ?).

Lemma trim_png_inplace_exact E png_file w :
  sat (_trim_png_inplace E png_file) w (λ o _ d,
    ∃ b, o = Returns b ∧ trimmed png_file b d).
Proof.
  unfold _trim_png_inplace. apply sat_bind, sat_note. apply sat_try.
  check_step. destruct x.
  - apply sat_bind. found_step. apply sat_ret, sat_bind, sat_run.
    intros out fs' _. rewrite !app_nil_r.
    destruct out; simpl; apply sat_ret; rewrite ?app_nil_r;
      (eexists; split; [done|]);
      [eapply (trimmed_magick _ _ _ _ (Completed _ _ _))
      |eapply (trimmed_magick _ _ _ _ TimedOut)
      |eapply (trimmed_magick _ _ _ _ (SpawnError _))]; eauto.
  - apply sat_bind. check_step. destruct x.
    + found_step. apply sat_ret, sat_bind, sat_run.
      intros out fs' _.
      destruct out; simpl; apply sat_ret; rewrite ?app_nil_r, <- ?app_assoc;
        (eexists; split; [done|]);
        [eapply (trimmed_convert _ _ _ _ _ (Completed _ _ _))
        |eapply (trimmed_convert _ _ _ _ _ TimedOut)
        |eapply (trimmed_convert _ _ _ _ _ (SpawnError _))]; eauto.
    + apply sat_ret, sat_ret. rewrite ?app_nil_r. eexists; split; [done|].
      simpl. apply trimmed_none; assumption.
Qed.

Lemma probed_probes command b d : probed command b d → Forall (λ e, is_probe e) d.
Proof. intros Hp. inversion Hp; subst; repeat constructor. Qed.

Lemma probed_unavailable command command' b d :
  probed command' b d → command ≠ command' → ¬ available command d.
Proof.
  intros Hp Hne (so & se & [Hin|Hin]); inversion Hp; subst; elem_cases; done.
Qed.

Lemma available_app command d1 d2 :
  available command (d1 ++ d2) ↔ available command d1 ∨ available command d2.
Proof.
  unfold available. setoid_rewrite elem_of_app. naive_solver.
Qed.

Lemma available_cons command e d :
  available command (e :: d) ↔ available command [e] ∨ available command d.
Proof. apply (available_app command [e] d). Qed.

Lemma unavailable_other command e :
  (∀ inv out, e ≠ Run (check_which command) inv out) →
  (∀ inv out, e ≠ Run (check_version command) inv out) →
  ¬ available command [e].
Proof.
  intros H1 H2 (so & se & [Hin|Hin]); apply list_elem_of_singleton in Hin;
    [by eapply H1|by eapply H2].
Qed.

Lemma last_two {A} (l : list A) x y : last (l ++ [x; y]) = Some y.
Proof. change [x; y] with ([x] ++ [y]). rewrite app_assoc. apply last_snoc. Qed.

(** X2. [_trim_png_inplace] never raises.  It makes at most one trimming
    call, which is its last call: [<tool> <png> -trim +repage <png>] with a
    timeout of 20 seconds, where the tool is what [find_command] gave for
    "magick" if [check_command] found magick, and otherwise for "convert" if
    [check_command] found convert.  It answers true exactly when that call
    ran to its end, whatever its exit status; when neither tool is found it
    makes no trimming call and answers false. *)
Theorem trim_png_inplace_outcome E png_file w :
  ∃ b,
    value_of (_trim_png_inplace E png_file w) = Returns b ∧
    head (events_of (_trim_png_inplace E png_file w)) = Some (TrimCalled png_file) ∧
    (∀ inv out,
       Run trim_run inv out ∈ events_of (_trim_png_inplace E png_file w) →
       b = completed out ∧
       last (events_of (_trim_png_inplace E png_file w)) = Some (Run trim_run inv out) ∧
       ∃ tool fout,
         Run (find_which tool) (which_call tool) fout
           ∈ events_of (_trim_png_inplace E png_file w) ∧
         inv = trim_call (resolved tool fout) png_file ∧
         (tool = "magick" ∧
            available "magick" (events_of (_trim_png_inplace E png_file w)) ∨
          tool = "convert" ∧
            ¬ available "magick" (events_of (_trim_png_inplace E png_file w)) ∧
            available "convert" (events_of (_trim_png_inplace E png_file w)))) ∧
    ((∀ inv out,
        Run trim_run inv out ∉ events_of (_trim_png_inplace E png_file w)) ↔
     ¬ available "magick" (events_of (_trim_png_inplace E png_file w)) ∧
     ¬ available "convert" (events_of (_trim_png_inplace E png_file w))) ∧
    ((∀ inv out,
        Run trim_run inv out ∉ events_of (_trim_png_inplace E png_file w)) →
     b = false).
Proof.
  destruct (trim_png_inplace_exact E png_file w) as (b & Hv & Ht).
  exists b. split; [done|].
  set (d := events_of _) in *. clearbody d. clear Hv.
  inversion Ht as [dm f cmd out Hm (fout & -> & ->)
                  |dm dc f cmd out Hm Hc (fout & -> & ->)
                  |dm dc Hm Hc]; subst; (split; [done|]).
  - pose proof (probed_probes _ _ _ Hm) as Hpm.
    pose proof (proj1 (probed_available _ _ _ Hm) eq_refl) as Ham.
    assert (available "magick"
              (TrimCalled png_file :: dm ++
               [Run (find_which "magick") (which_call "magick") fout;
                Run trim_run (trim_call (resolved "magick" fout) png_file) out]))
      as Hav by (apply available_cons; right; apply available_app; by left).
    split_and!.
    + intros inv out' Hin.
      apply elem_of_cons in Hin as [?|Hin]; [done|].
      apply elem_of_app in Hin as [Hin|Hin].
      { rewrite Forall_forall in Hpm. by apply Hpm in Hin. }
      elem_cases. split; [done|]. split.
      { apply (last_two (TrimCalled png_file :: dm)). }
      exists "magick", fout. split_and!; [|done|by left].
      right. apply elem_of_app. right. by left.
    + split; [|intros [? _]; done].
      intros Hno. exfalso. eapply Hno. right. apply elem_of_app. right. right. by left.
    + intros Hno. exfalso. eapply Hno. right. apply elem_of_app. right. right. by left.
  - pose proof (probed_probes _ _ _ Hm) as Hpm.
    pose proof (probed_probes _ _ _ Hc) as Hpc.
    pose proof (proj1 (probed_available _ _ _ Hc) eq_refl) as Hac.
    assert (¬ available "magick" dm) as Hnm
      by (intros Ha; by apply (probed_available _ _ _ Hm) in Ha).
    assert (¬ available "magick" dc) as Hnc by by eapply probed_unavailable.
    split_and!.
    + intros inv out' Hin.
      apply elem_of_cons in Hin as [?|Hin]; [done|].
      apply elem_of_app in Hin as [Hin|Hin].
      { rewrite Forall_forall in Hpm. by apply Hpm in Hin. }
      apply elem_of_app in Hin as [Hin|Hin].
      { rewrite Forall_forall in Hpc. by apply Hpc in Hin. }
      elem_cases. split; [done|]. split.
      { rewrite app_assoc. apply (last_two (TrimCalled png_file :: dm ++ dc)). }
      exists "convert", fout. split_and!; [|done|right; split_and!; [done| |]].
      * right. apply elem_of_app. right. apply elem_of_app. right. by left.
      * intros Ha. apply available_cons in Ha as [Ha|Ha];
          [revert Ha; by apply unavailable_other|].
        apply available_app in Ha as [Ha|Ha]; [done|].
        apply available_app in Ha as [Ha|Ha]; [done|].
        apply available_cons in Ha as [Ha|Ha]; revert Ha; by apply unavailable_other.
      * apply available_cons; right. apply available_app; right.
        apply available_app; by left.
    + split.
      * intros Hno. exfalso. eapply Hno. right. apply elem_of_app. right.
        apply elem_of_app. right. right. by left.
      * intros [_ Hno]. exfalso. apply Hno.
        apply available_cons; right. apply available_app; right.
        apply available_app; by left.
    + intros Hno. exfalso. eapply Hno. right. apply elem_of_app. right.
      apply elem_of_app. right. right. by left.
  - pose proof (probed_probes _ _ _ Hm) as Hpm.
    pose proof (probed_probes _ _ _ Hc) as Hpc.
    assert (∀ inv out, Run trim_run inv out ∉ TrimCalled png_file :: dm ++ dc) as Hno.
    { intros inv out Hin.
      apply elem_of_cons in Hin as [?|Hin]; [done|].
      apply elem_of_app in Hin as [Hin|Hin].
      - rewrite Forall_forall in Hpm. by apply Hpm in Hin.
      - rewrite Forall_forall in Hpc. by apply Hpc in Hin. }
    split_and!; [|split|done].
    + intros inv out Hin. by apply Hno in Hin.
    + intros _. split.
      * intros Ha. apply available_cons in Ha as [Ha|Ha];
          [|apply available_app in Ha as [Ha|Ha]].
        -- revert Ha; by apply unavailable_other.
        -- by apply (probed_available _ _ _ Hm) in Ha.
        -- revert Ha. by eapply probed_unavailable.
      * intros Ha. apply available_cons in Ha as [Ha|Ha];
          [|apply available_app in Ha as [Ha|Ha]].
        -- revert Ha; by apply unavailable_other.
        -- revert Ha. by eapply probed_unavailable.
        -- by apply (probed_available _ _ _ Hc) in Ha.
    + done.
Qed.

(** ** [compile_latex]: the passes *)

Lemma passes_run_app d1 d2 : passes_run (d1 ++ d2) = passes_run d1 ++ passes_run d2.
Proof. apply omap_app. Qed.

Lemma is_find_pass f : is_find f → pass_of f = None.
Proof. by intros (? & ? & ->). Qed.

Lemma is_find_ended_well f : is_find f → ended_well f = true.
Proof. by intros (? & ? & ->). Qed.

Lemma bib_step_passes i bibs : bib_step i bibs → passes_run bibs = [].
Proof. inversion 1; subst; [done|]. unfold passes_run. simpl. by rewrite is_find_pass. Qed.

Lemma bib_step_ended_well i bibs : bib_step i bibs → Forall (λ e, ended_well e = true) bibs.
Proof.
  inversion 1; subst; [done|]. repeat constructor. by apply is_find_ended_well.
Qed.

Lemma exception_exit_zero inv out e : exception_of inv out = Some e → exit_zero out = false.
Proof. by destruct out. Qed.

Lemma loop_run_passes indices o d :
  loop_run indices o d →
  (passes_run d).*1 `prefix_of` indices ∧
  (∀ p, p ∈ passes_run d → exit_zero p.2 = false → last (passes_run d) = Some p) ∧
  (compile_outcome o = CompileSuccess ↔
   (passes_run d).*1 = indices ∧ Forall (λ e, ended_well e = true) d).
Proof.
  induction 1 as
    [|i rest f inv out x Hf Hx|i rest f inv rc so se Hf Hrc
     |rest f inv so se f' inv' out x Hf Hf' Hx
     |i rest f inv so se bibs o d Hf Hb Hrun (IHp & IHl & IHs)];
    unfold passes_run in *; simpl; rewrite ?is_find_pass by done; simpl.
  - split_and!; [done|by intros ? ?%elem_of_nil|]. split; [done|]. by intros _.
  - split_and!.
    + by exists rest.
    + by intros p ->%list_elem_of_singleton _.
    + split; [by destruct x|]. intros [_ Hw].
      apply Forall_cons in Hw as [_ [Hw _]%Forall_cons]. simpl in Hw.
      by rewrite (exception_exit_zero _ _ _ Hx) in Hw.
  - split_and!.
    + by exists rest.
    + by intros p ->%list_elem_of_singleton _.
    + split; [done|]. intros [_ Hw].
      apply Forall_cons in Hw as [_ [Hw _]%Forall_cons]. simpl in Hw.
      by apply Z.eqb_eq in Hw.
  - split_and!.
    + by exists rest.
    + by intros p ->%list_elem_of_singleton _.
    + split; [by destruct x|]. intros [_ Hw].
      do 3 apply Forall_cons in Hw as [_ Hw]. apply Forall_cons in Hw as [Hw _].
      simpl in Hw. by rewrite (exception_completed _ _ _ Hx) in Hw.
  - rewrite omap_app. fold (passes_run bibs). rewrite (bib_step_passes _ _ Hb). simpl.
    split_and!.
    + by apply prefix_cons.
    + intros p [->|Hp]%elem_of_cons Hz; [done|].
      destruct (omap pass_of d) as [|q l] eqn:Hd; [by apply elem_of_nil in Hp|].
      by apply IHl.
    + split.
      * intros [Hi Hw]%IHs. split; [by rewrite <- Hi|].
        apply Forall_cons; split; [by apply is_find_ended_well|].
        apply Forall_cons; split; [done|].
        apply Forall_app; split; [by eapply bib_step_ended_well|done].
      * intros [Hi Hw]. apply IHs. split; [by simplify_eq/=|].
        do 2 apply Forall_cons in Hw as [_ Hw]. by apply Forall_app in Hw as [_ Hw].
Qed.

Lemma loop_run_interrupted indices o d :
  loop_run indices o d →
  ∀ s inv out,
    Run s inv out ∈ d → is_probe (Run s inv out) = false → completed out = false →
    last d = Some (Run s inv out) ∧ compile_outcome o = interrupted out.
Proof.
  induction 1 as
    [|i rest f inv out x Hf Hx|i rest f inv rc so se Hf Hrc
     |rest f inv so se f' inv' out x Hf Hf' Hx
     |i rest f inv so se bibs o d Hf Hb Hrun IH]; intros s inv0 out0 Hin Hp Hc.
  - by apply elem_of_nil in Hin.
  - elem_cases; [by failed_inv|].
    split; [done|]. by destruct out; simplify_eq/=.
  - elem_cases; try done; by failed_inv.
  - elem_cases; try done; try (by failed_inv).
    split; [done|]. by destruct out; simplify_eq/=.
  - apply elem_of_cons in Hin as [<-|Hin]; [by failed_inv|].
    apply elem_of_cons in Hin as [?|Hin]; [by simplify_eq|].
    apply elem_of_app in Hin as [Hin|Hin].
    { inversion Hb; subst; elem_cases; try done; by failed_inv. }
    destruct (IH _ _ _ Hin Hp Hc) as [Hl ->]. split; [|done].
    rewrite !last_cons, last_app, Hl. done.
Qed.

Lemma range_zero_once n k : List.filter (λ i, i =? 0)%nat (seq (S k) n) = [].
Proof. revert k. induction n as [|n IH]; intros k; [done|]. simpl. apply IH. Qed.

Lemma loop_run_bibliography indices o d :
  loop_run indices o d →
  (bibliography_runs d ≤ length (List.filter (λ i, i =? 0)%nat indices))%nat.
Proof.
  unfold bibliography_runs.
  induction 1 as
    [|i rest f inv out x Hf Hx|i rest f inv rc so se Hf Hrc
     |rest f inv so se f' inv' out x Hf Hf' Hx
     |i rest f inv so se bibs o d Hf Hb Hrun IH]; simpl;
    rewrite ?is_find_not_bibliography by done; simpl;
    try (destruct (i =? 0)%nat; simpl; lia); try lia.
  rewrite List.filter_app, length_app.
  inversion Hb; subst; simpl; rewrite ?is_find_not_bibliography by done; simpl;
    [destruct (i =? 0)%nat; simpl; lia|lia].
Qed.

(** X3. [compile_latex] never raises.  The compiler passes it runs are
    passes 0, 1, 2, ... in order, without gaps, and no more of them than
    asked for; every pass but the last one run exited with status zero; the
    bibliography tool is run at most once.  The result is success exactly
    when all the passes asked for were run, each exited with status zero,
    and the bibliography run, if there was one, ran to its end (whatever
    its exit status). *)
Theorem compile_latex_passes E tex_file passes use_biblatex hide_warnings w :
  ∃ r,
    value_of (compile_latex E tex_file passes use_biblatex hide_warnings w) = Returns r ∧
    (passes_run (events_of (compile_latex E tex_file passes use_biblatex hide_warnings w))).*1
      `prefix_of` range passes ∧
    (∀ i out,
       (i, out) ∈ passes_run
                    (events_of (compile_latex E tex_file passes use_biblatex hide_warnings w)) →
       exit_zero out = false →
       last (passes_run
               (events_of (compile_latex E tex_file passes use_biblatex hide_warnings w)))
       = Some (i, out)) ∧
    (bibliography_runs
       (events_of (compile_latex E tex_file passes use_biblatex hide_warnings w)) ≤ 1)%nat ∧
    (r = CompileSuccess ↔
     (passes_run (events_of (compile_latex E tex_file passes use_biblatex hide_warnings w))).*1
       = range passes ∧
     Forall (λ e, ended_well e = true)
       (events_of (compile_latex E tex_file passes use_biblatex hide_warnings w))).
Proof.
  destruct (compile_latex_run E tex_file passes use_biblatex hide_warnings w)
    as (o & Hrun & Hv).
  exists (compile_outcome o). split; [done|].
  destruct (loop_run_passes _ _ _ Hrun) as (Hp & Hl & Hs).
  split_and!; try done.
  - intros i out. apply (Hl (i, out)).
  - etrans; [by eapply loop_run_bibliography|].
    unfold range. destruct (Z.to_nat passes) as [|n]; simpl; [lia|].
    rewrite range_zero_once. simpl. lia.
Qed.

(** X4. In [compile_latex], a call of the compiler or of the bibliography
    tool that does not run to its end is the last call made: when it timed
    out the result is the failure "LaTeX compilation timed out", and when it
    could not be started the result is the failure "Compilation error: "
    followed by the text of the exception; in both cases without a log.  The
    lookups made through [find_command] are not concerned: they may time out
    without ending the compilation. *)
Theorem compile_latex_interrupted E tex_file passes use_biblatex hide_warnings w s inv out :
  Run s inv out ∈ events_of (compile_latex E tex_file passes use_biblatex hide_warnings w) →
  is_probe (Run s inv out) = false →
  completed out = false →
  last (events_of (compile_latex E tex_file passes use_biblatex hide_warnings w))
    = Some (Run s inv out) ∧
  value_of (compile_latex E tex_file passes use_biblatex hide_warnings w)
    = Returns (interrupted out).
Proof.
  intros Hin Hp Hc.
  destruct (compile_latex_run E tex_file passes use_biblatex hide_warnings w)
    as (o & Hrun & Hv).
  destruct (loop_run_interrupted _ _ _ Hrun _ _ _ Hin Hp Hc) as [Hl Ho].
  split; [done|]. by rewrite Hv, Ho.
Qed.

Lemma compile_latex_interrupted_witness :
  value_of (compile_latex bibtex_hangs_env ws_tex 1 false false cited_world)
  = Returns (CompileFailure "LaTeX compilation timed out" None).
Proof.
  refine (proj2 (compile_latex_interrupted bibtex_hangs_env ws_tex 1 false false
                   cited_world bibliography_run
                   (Invocation ["/usr/bin/bibtex"; "document"] (Some ws_dir) 30)
                   TimedOut _ _ _)).
  - apply (list_elem_of_lookup_2 _ 3). vm_compute. reflexivity.
  - reflexivity.
  - reflexivity.
Defined.

(** ** [compile_latex]: the calls *)

Lemma bibliography_command_sat E (use_biblatex : bool) w :
  sat (if use_biblatex
       then let! biber_cmd := find_command E "biber" in
            ret [biber_cmd; "document"]
       else let! bibtex_cmd := find_command E "bibtex" in
            ret [bibtex_cmd; "document"]) w
    (λ o _ d, ∃ cmd f, o = Returns [cmd; "document"] ∧ d = [f] ∧
                       found_by (bibliography_tool use_biblatex) f cmd).
Proof. destruct use_biblatex; found_step; apply sat_ret; eauto. Qed.

Lemma loop_calls E tex_file use_biblatex indices w :
  sat (compile_latex_loop E tex_file use_biblatex indices) w (λ _ _ d,
    compile_calls tex_file use_biblatex d).
Proof.
  revert w. induction indices as [|i rest IH]; intros w.
  { apply sat_ret. constructor. }
  rewrite loop_unfold. cbn zeta.
  found_step. apply sat_bind, sat_run. intros out fs' _.
  destruct out as [rc so se| |msg]; simpl;
    [|by repeat constructor..].
  destruct (rc =? 0) eqn:Hrc; simpl.
  2: { apply sat_ret. by repeat constructor. }
  apply sat_bind.
  assert (∀ w0, sat (if (i =? 0)%nat
                     then path_exists (Path.parent tex_file // "references.bib")
                     else ret false) w0
            (λ o w1 d, ∃ bib : bool, o = Returns bib ∧ d = [])) as Hbib.
  { intros w0. destruct (i =? 0)%nat; by eexists. }
  eapply sat_mono; [apply Hbib|]. clear Hbib.
  intros ? w1 ? (bib & -> & ->). apply sat_bind. destruct bib.
  - apply sat_bind.
    eapply sat_mono; [apply bibliography_command_sat|].
    intros ? w2 ? (cmd & f & -> & -> & Hf).
    apply sat_bind, sat_run. intros out fs'' _.
    destruct out as [rc' so' se'| |msg]; simpl;
      [|by repeat constructor..].
    apply sat_ret. eapply sat_mono; [apply IH|].
    intros o w3 d Hcalls. simpl. by repeat constructor.
  - apply sat_ret. eapply sat_mono; [apply IH|].
    intros o w3 d Hcalls. simpl. by repeat constructor.
Qed.

Lemma compile_calls_lookup tex_file use_biblatex d :
  compile_calls tex_file use_biblatex d →
  ∀ k s inv out,
    d !! k = Some (Run s inv out) → is_probe (Run s inv out) = false →
    ∃ k' tool fout,
      k = S k' ∧
      d !! k' = Some (Run (find_which tool) (which_call tool) fout) ∧
      ((∃ i, s = compiler_pass i) ∧ tool = "pdflatex" ∧
         inv = compiler_call (resolved tool fout) tex_file ∨
       s = bibliography_run ∧ tool = bibliography_tool use_biblatex ∧
         inv = bibliography_call (resolved tool fout) tex_file).
Proof.
  induction 1 as [|i f cmd out d (fout & -> & ->) Hd IH
                  |f cmd out d (fout & -> & ->) Hd IH];
    intros k s inv0 out0 Hk Hp; [done| |].
  - destruct k as [|[|k]]; simpl in Hk; [by simplify_eq| |].
    + simplify_eq. exists 0%nat, "pdflatex", fout. split_and!; [done..|]. left. eauto.
    + destruct (IH _ _ _ _ Hk Hp) as (k' & tool & fout' & -> & Hk' & Hs).
      exists (S (S k')), tool, fout'. by split_and!.
  - destruct k as [|[|k]]; simpl in Hk; [by simplify_eq| |].
    + simplify_eq. exists 0%nat, (bibliography_tool use_biblatex), fout.
      split_and!; [done..|]. right. eauto.
    + destruct (IH _ _ _ _ Hk Hp) as (k' & tool & fout' & -> & Hk' & Hs).
      exists (S (S k')), tool, fout'. by split_and!.
Qed.

Lemma compile_calls_events tex_file use_biblatex d :
  compile_calls tex_file use_biblatex d →
  ∀ e, e ∈ d →
    ∃ s inv out, e = Run s inv out ∧
      match s with
      | find_which tool => tool = "pdflatex" ∨ tool = bibliography_tool use_biblatex
      | compiler_pass _ | bibliography_run => True
      | _ => False
      end.
Proof.
  induction 1 as [|i f cmd out d (fout & -> & ->) Hd IH
                  |f cmd out d (fout & -> & ->) Hd IH]; intros e He.
  - by apply elem_of_nil in He.
  - apply elem_of_cons in He as [->|He]; [eexists _, _, _; split; [done|]; by left|].
    apply elem_of_cons in He as [->|He]; [by eexists _, _, _|]. by apply IH.
  - apply elem_of_cons in He as [->|He]; [eexists _, _, _; split; [done|]; by right|].
    apply elem_of_cons in He as [->|He]; [by eexists _, _, _|]. by apply IH.
Qed.

(** X5. The calls of [compile_latex] are lookups by [find_command], compiler
    passes and bibliography runs, and nothing else.  Every compiler pass and
    every bibliography run comes right after a lookup and runs what that
    lookup gave (the stripped output of [which], or the bare name when
    [which] failed), in the directory of the document, with a timeout of 30
    seconds: the compiler comes from the lookup of "pdflatex" and gets
    [-interaction=nonstopmode] and the path of the document; the
    bibliography tool comes from the lookup of "biber" when [use_biblatex]
    is set and of "bibtex" otherwise, and gets the argument [document]. *)
Theorem compile_latex_calls E tex_file passes use_biblatex hide_warnings w :
  (∀ e, e ∈ events_of (compile_latex E tex_file passes use_biblatex hide_warnings w) →
     ∃ s inv out, e = Run s inv out ∧
       match s with
       | find_which tool => tool = "pdflatex" ∨ tool = bibliography_tool use_biblatex
       | compiler_pass _ | bibliography_run => True
       | _ => False
       end) ∧
  (∀ k s inv out,
     events_of (compile_latex E tex_file passes use_biblatex hide_warnings w) !! k
       = Some (Run s inv out) →
     is_probe (Run s inv out) = false →
     ∃ k' tool fout,
       k = S k' ∧
       events_of (compile_latex E tex_file passes use_biblatex hide_warnings w) !! k'
         = Some (Run (find_which tool) (which_call tool) fout) ∧
       ((∃ i, s = compiler_pass i) ∧ tool = "pdflatex" ∧
          inv = compiler_call (resolved tool fout) tex_file ∨
        s = bibliography_run ∧ tool = bibliography_tool use_biblatex ∧
          inv = bibliography_call (resolved tool fout) tex_file)).
Proof.
  rewrite compile_latex_events.
  pose proof (loop_calls E tex_file use_biblatex (range passes) w) as Hc.
  unfold sat in Hc. split.
  - exact (compile_calls_events tex_file use_biblatex _ Hc).
  - exact (compile_calls_lookup tex_file use_biblatex _ Hc).
Qed.

Lemma loop_without_bibliography E tex_file use_biblatex indices w :
  stable E (λ fs, fs !! (Path.parent tex_file // "references.bib") = None) →
  FS.exists_ (Path.parent tex_file // "references.bib") (fs w) = false →
  sat (compile_latex_loop E tex_file use_biblatex indices) w (λ _ _ d,
    ∀ inv out, Run bibliography_run inv out ∉ d).
Proof.
  intros Hst. revert w. induction indices as [|i rest IH]; intros w Hw.
  { apply sat_ret. by intros ? ? ?%elem_of_nil. }
  assert (fs w !! (Path.parent tex_file // "references.bib") = None) as Hnone.
  { unfold FS.exists_ in Hw. apply bool_decide_eq_false in Hw.
    by apply eq_None_not_Some. }
  rewrite loop_unfold. cbn zeta.
  find_step. apply sat_bind, sat_run. intros out fs' Hx.
  assert (fs' !! (Path.parent tex_file // "references.bib") = None) as Hnone'.
  { eapply (stable_exec E (λ fs, fs !! (Path.parent tex_file // "references.bib") = None) w');
      [done| |done].
    destruct H1 as [_ Hev]. by apply (Hev _ Hst). }
  destruct out as [rc so se| |msg]; simpl;
    [|intros ? ? ?; elem_cases..].
  destruct (rc =? 0) eqn:Hrc; simpl.
  2: { apply sat_ret. intros ? ? ?; elem_cases. }
  assert (FS.exists_ (Path.parent tex_file // "references.bib") fs' = false) as Hex.
  { unfold FS.exists_. apply bool_decide_eq_false. rewrite Hnone'. by intros [? ?]. }
  apply sat_bind.
  assert (∀ t, sat (if (i =? 0)%nat
                    then path_exists (Path.parent tex_file // "references.bib")
                    else ret false) (World fs' t)
            (λ o w1 d, o = Returns false ∧ d = [] ∧ w1 = World fs' t)) as Hbib.
  { intros t. destruct (i =? 0)%nat; [|done].
    unfold sat, path_exists. simpl. by rewrite Hex. }
  eapply sat_mono; [apply Hbib|]. clear Hbib.
  intros ? w1 ? (-> & -> & ->). apply sat_bind, sat_ret.
  eapply sat_mono; [by apply IH|].
  intros o w3 d Hd inv out Hin. simpl in Hin. elem_cases. by eapply Hd.
Qed.

(** X6. When the workspace of the document holds no [references.bib] and no
    external program creates one, [compile_latex] never runs the
    bibliography tool, whatever [use_biblatex] says and however many passes
    are asked for. *)
Theorem compile_latex_without_bibliography E tex_file passes use_biblatex hide_warnings w :
  stable E (λ fs, fs !! (Path.parent tex_file // "references.bib") = None) →
  FS.exists_ (Path.parent tex_file // "references.bib") (fs w) = false →
  bibliography_runs
    (events_of (compile_latex E tex_file passes use_biblatex hide_warnings w)) = 0%nat.
Proof.
  intros Hst Hw. rewrite compile_latex_events.
  apply bibliography_runs_none.
  by apply (loop_without_bibliography E tex_file use_biblatex (range passes) w).
Qed.

Lemma compile_latex_without_bibliography_witness :
  bibliography_runs
    (events_of (compile_latex second_pass_fails_env ws_tex 2 true false written_world))
  = 0%nat.
Proof.
  refine (compile_latex_without_bibliography second_pass_fails_env ws_tex 2 true false
            written_world _ _).
  - apply scripted_stable. by repeat constructor.
  - vm_compute. reflexivity.
Defined.

(** ** [pdf_to_png], call by call *)

Lemma sat_bind_assoc {A B C} (c : M A) (k : A → M B) (h : B → M C) w Q :
  sat (bind (bind c k) h) w Q → sat (bind c (λ x, bind (k x) h)) w Q.
Proof.
  unfold sat, bind, value_of, world_of, events_of.
  destruct (c w) as [[[a|e] w'] d]; simpl; [|done].
  destruct (k a w') as [[[b|e] w''] d']; simpl; [|done].
  destruct (h b w'') as [[o w3] d'']. by rewrite app_assoc.
Qed.

Lemma trim_trace_sat E (b : bool) png_file w :
  sat ((if b then _trim_png_inplace E png_file;; ret () else ret ());;
       ret ConvertSuccess) w (λ o _ d,
    o = Returns ConvertSuccess ∧ trim_trace png_file b d).
Proof.
  apply sat_bind. destruct b.
  - apply sat_bind. eapply sat_mono; [apply trim_png_inplace_exact|].
    intros ? ? ? (t & -> & Ht). apply sat_ret, sat_ret. rewrite !app_nil_r.
    split; [done|]. by econstructor.
  - apply sat_ret, sat_ret. split; [done|]. constructor.
Qed.

Lemma rasterize_exact E source png_file dpi crop w :
  sat (rasterize E source png_file dpi crop) w (λ o _ d,
    raster_trace source png_file dpi crop o d).
Proof.
  unfold rasterize.
  apply sat_bind. eapply sat_mono; [apply find_command_found|].
  intros ? w1 ? (f & cmd & -> & -> & Hf).
  apply sat_bind. unfold with_suffix_empty.
  destruct (Path.without_suffix png_file) as [stem_file|] eqn:Hstem;
    [apply sat_ret|apply sat_raise; simpl; by eapply raster_no_name].
  assert (∀ c, Invocation [c; "-png"; "-singlefile"; "-r"; pretty dpi; Path.str source;
                           Path.str stem_file] None 30
               = pdftoppm_call c dpi source png_file) as Hcall
    by (intros; unfold pdftoppm_call; by rewrite Hstem).
  apply sat_bind, sat_run. intros out fs' _. rewrite Hcall.
  destruct out as [rc so se| |msg]; simpl;
    [|eapply raster_primary_raised; [done|unfold pdftoppm_call; by rewrite Hstem]..].
  destruct (rc =? 0) eqn:Hrc.
  { apply Z.eqb_eq in Hrc as ->.
    eapply sat_mono; [apply trim_trace_sat|].
    intros o w3 d' [-> Hd']. simpl. by constructor. }
  apply Z.eqb_neq in Hrc.
  apply sat_bind. eapply sat_mono; [apply check_command_exact|].
  intros ? w2 dc (b & -> & Hb).
  apply sat_bind.
  assert (∀ w0, sat (if b then find_command E "convert" else find_command E "magick") w0
            (λ o _ d, ∃ f' cmd', o = Returns cmd' ∧ d = [f'] ∧
                                 found_by (fallback_tool b) f' cmd')) as Hfind.
  { intros w0. destruct b; apply find_command_found. }
  eapply sat_mono; [apply Hfind|]. clear Hfind.
  intros ? w3 ? (f' & cmd' & -> & -> & Hf').
  replace (if String.eqb (Str.basename cmd') "magick"
           then [cmd'; "-density"; pretty dpi; Path.str source; Path.str png_file]
           else [cmd'; "-density"; pretty dpi; Path.str source; Path.str png_file])
    with [cmd'; "-density"; pretty dpi; Path.str source; Path.str png_file]
    by (by destruct (String.eqb _ _)).
  apply sat_bind, sat_run. intros out fs'' _.
  change (Invocation [cmd'; "-density"; pretty dpi; Path.str source; Path.str png_file]
            None 30) with (imagemagick_call cmd' dpi source png_file).
  destruct out as [rc' so' se'| |msg]; simpl;
    [|by eapply raster_fallback_raised..].
  destruct (rc' =? 0) eqn:Hrc'.
  { apply Z.eqb_eq in Hrc' as ->.
    eapply sat_mono; [apply trim_trace_sat|].
    intros o w4 d' [-> Hd']. simpl. by eapply raster_fallback_done. }
  apply Z.eqb_neq in Hrc'. apply sat_ret. simpl. by eapply raster_fallback_failed.
Qed.

Lemma crop_trace_sat E pdf_file (crop : bool) w :
  sat (let! cropper := if crop then check_command E "pdfcrop" else ret false in
       if cropper then
         let cropped_pdf := Path.parent pdf_file // "document-cropped.pdf" in
         let! pdfcrop_cmd := find_command E "pdfcrop" in
         let cmd := [pdfcrop_cmd; "--margins"; "3"; Path.str pdf_file;
                     Path.str cropped_pdf] in
         subprocess_run E pdfcrop_run cmd None 30;;
         let! made := path_exists cropped_pdf in
         ret (if made then cropped_pdf else pdf_file)
       else ret pdf_file) w (λ o _ d, crop_trace pdf_file crop o d).
Proof.
  apply sat_bind.
  assert (sat (if crop then check_command E "pdfcrop" else ret false) w (λ o _ d,
    ∃ cropper, o = Returns cropper ∧
      (crop = false ∧ cropper = false ∧ d = [] ∨
       crop = true ∧ probed "pdfcrop" cropper d))) as Hc.
  { destruct crop; [|eexists; eauto].
    eapply sat_mono; [apply check_command_exact|].
    intros ? ? ? (b & -> & ?). eauto. }
  eapply sat_mono; [apply Hc|]. clear Hc.
  intros ? w1 d1 (cropper & -> & Hd1).
  destruct cropper.
  - destruct Hd1 as [(_ & ? & _)|[-> Hd1]]; [done|].
    apply sat_bind. eapply sat_mono; [apply find_command_found|].
    intros ? w2 ? (f & cmd & -> & -> & Hf).
    apply sat_bind, sat_run. intros out fs' _.
    change (Invocation _ None 30) with (pdfcrop_call cmd pdf_file).
    destruct out as [rc so se| |msg]; simpl;
      [|by eapply crop_trace_raised..].
    apply sat_bind. unfold sat at 1. simpl. apply sat_ret. rewrite ?app_nil_r.
    eapply crop_trace_ran; eauto.
    unfold cropped_of. destruct (FS.exists_ _ _); auto.
  - apply sat_ret. rewrite app_nil_r.
    destruct Hd1 as [(-> & _ & ->)|[-> Hd1]]; by constructor.
Qed.

Lemma pdf_to_png_exact E pdf_file png_file dpi crop w :
  sat (pdf_to_png E pdf_file png_file dpi crop) w (λ o _ d,
    ∃ r, o = Returns r ∧ convert_trace pdf_file png_file dpi crop r d).
Proof.
  unfold pdf_to_png. apply sat_try. cbn zeta.
  apply sat_bind_assoc, sat_bind. eapply sat_mono; [apply crop_trace_sat|].
  intros [source|e] w1 pre Hpre.
  - eapply sat_mono; [apply rasterize_exact|].
    intros [r|e] w2 d Hd.
    + exists r. split; [done|]. exact (convert_rasterized pdf_file png_file dpi crop pre source (Returns r) d Hpre Hd).
    + destruct e as [c t|msg]; apply sat_ret; rewrite app_nil_r;
        (eexists; split; [done|]).
      * exact (convert_rasterized pdf_file png_file dpi crop pre source
                 (Raises (TimeoutExpired c t)) d Hpre Hd).
      * exact (convert_rasterized pdf_file png_file dpi crop pre source
                 (Raises (Exception msg)) d Hpre Hd).
  - destruct e as [c t|msg]; apply sat_ret; rewrite app_nil_r;
      (eexists; split; [done|]).
    + exact (convert_crop_raised pdf_file png_file dpi crop pre (TimeoutExpired c t) Hpre).
    + exact (convert_crop_raised pdf_file png_file dpi crop pre (Exception msg) Hpre).
Qed.

(** ** [pdf_to_png]: what decides the result *)

Lemma conversion_success pdf_file png_file dpi crop r m :
  conversion pdf_file png_file dpi crop r m →
  (r = ConvertSuccess ↔
   ∃ s inv so se,
     (s = pdftoppm_run ∨ s = imagemagick_run) ∧ Run s inv (Completed 0 so se) ∈ m) ∧
  (∀ inv rc so se,
     Run imagemagick_run inv (Completed rc so se) ∈ m → rc ≠ 0 →
     r = ConvertFailure ("Failed to convert PDF to PNG. pdftoppm result: "
                         +:+ se +:+ ", convert not available.")).
Proof.
  intros Hc. split; [split|].
  - intros ->. conversion_cases Hc; eexists _, _, _, _;
      (split; [|rewrite ?elem_of_app, ?elem_of_cons; eauto 10]); eauto.
  - intros (s & inv & so & se & Hs & Hin).
    conversion_cases Hc; destruct Hs as [-> | ->]; elem_cases; done.
  - intros inv rc so se Hin Hrc.
    conversion_cases Hc; elem_cases; done.
Qed.

(** X7. The result of [pdf_to_png] is success exactly when [pdftoppm] or
    ImageMagick exited with status zero: nothing else is looked at, in
    particular not whether the image file exists.  When ImageMagick exits
    with another status, the failure reads "Failed to convert PDF to PNG.
    pdftoppm result: ..., convert not available." with, between the two, the
    standard error of the ImageMagick call (not that of [pdftoppm]). *)
Theorem pdf_to_png_success E pdf_file png_file dpi crop w :
  ∃ r,
    value_of (pdf_to_png E pdf_file png_file dpi crop w) = Returns r ∧
    (r = ConvertSuccess ↔
     ∃ s inv so se,
       (s = pdftoppm_run ∨ s = imagemagick_run) ∧
       Run s inv (Completed 0 so se)
         ∈ events_of (pdf_to_png E pdf_file png_file dpi crop w)) ∧
    (∀ inv rc so se,
       Run imagemagick_run inv (Completed rc so se)
         ∈ events_of (pdf_to_png E pdf_file png_file dpi crop w) →
       rc ≠ 0 →
       r = ConvertFailure ("Failed to convert PDF to PNG. pdftoppm result: "
                           +:+ se +:+ ", convert not available.")).
Proof.
  destruct (pdf_to_png_conversion E pdf_file png_file dpi crop w) as (r & Hr & Hc).
  exists r. split; [done|].
  apply conversion_success in Hc as [Hs Hf].
  set (d := events_of _) in *. clearbody d.
  split.
  - rewrite Hs. split; intros (s & inv & so & se & Hsite & Hin);
      exists s, inv, so, se; (split; [done|]).
    + by apply elem_of_main in Hin as [Hin _].
    + apply elem_of_main. split; [done|]. by destruct Hsite as [-> | ->].
  - intros inv rc so se Hin Hrc. apply (Hf inv rc so se); [|done].
    by apply elem_of_main.
Qed.

(** ** [pdf_to_png]: where each call can occur *)

Lemma not_in_trace (P : event → bool) d e :
  Forall (λ e, P e = true) d → P e = false → e ∉ d.
Proof.
  intros Hd He Hin. rewrite Forall_forall in Hd. apply Hd in Hin. congruence.
Qed.

Lemma unavailable_where (P : event → bool) command d :
  Forall (λ e, P e = true) d →
  (∀ inv out, P (Run (check_which command) inv out) = false) →
  (∀ inv out, P (Run (check_version command) inv out) = false) →
  ¬ available command d.
Proof.
  intros Hd H1 H2 (so & se & [Hin|Hin]); revert Hin; by eapply not_in_trace.
Qed.

Lemma probed_events (P : event → bool) command b d :
  probed command b d →
  (∀ inv out, P (Run (check_which command) inv out) = true) →
  (∀ inv out, P (Run (check_version command) inv out) = true) →
  Forall (λ e, P e = true) d.
Proof. intros Hp H1 H2. inversion Hp; subst; repeat constructor; auto. Qed.

Lemma found_by_event (P : event → bool) command f cmd :
  found_by command f cmd →
  (∀ inv out, P (Run (find_which command) inv out) = true) → P f = true.
Proof. intros (out & -> & _) H. apply H. Qed.

Lemma trimmed_events png_file b d :
  trimmed png_file b d → Forall (λ e, trim_event e = true) d.
Proof.
  intros Ht. inversion Ht; subst; constructor; try done;
    rewrite ?Forall_app; repeat split;
    try (by eapply probed_events); repeat constructor;
    by eapply found_by_event.
Qed.

Lemma trim_trace_events png_file b d :
  trim_trace png_file b d → Forall (λ e, trim_event e = true) d.
Proof. inversion 1; subst; [done|]. by eapply trimmed_events. Qed.

Lemma crop_trace_events pdf_file crop o d :
  crop_trace pdf_file crop o d → Forall (λ e, crop_event e = true) d.
Proof.
  inversion 1; subst; try done;
    rewrite ?Forall_app; repeat split;
    try (by eapply probed_events); repeat constructor;
    by eapply found_by_event.
Qed.

Lemma trim_not_crop e : trim_event e = true → crop_event e = false.
Proof.
  destruct e as [[c|c|c| | | | | |] inv out|]; simpl; try done;
    destruct (String.eqb_spec c "pdfcrop") as [->|]; done.
Qed.

Lemma trim_is_aux e : trim_event e = true → is_aux e = true ∨ ∃ p, e = TrimCalled p.
Proof. destruct e as [[c|c|c| | | | | |] inv out|]; simpl; eauto; done. Qed.

Lemma crop_trace_returns pdf_file crop source pre :
  crop_trace pdf_file crop (Returns source) pre →
  (source = pdf_file ∨ source = cropped_of pdf_file) ∧
  ∀ s inv out, Run s inv out ∈ pre → is_aux (Run s inv out) = false →
               completed out = true.
Proof.
  intros Hc. inversion Hc as [|dp ? Hp|dp f cmd rc so se src ? Hp (fout & -> & ->) Hs|];
    subst; (split; [by auto|]); intros s inv out Hin Haux.
  - by apply elem_of_nil in Hin.
  - pose proof (probed_probes _ _ _ Hp) as Hpp. rewrite Forall_forall in Hpp.
    apply Hpp in Hin. unfold is_aux in Haux. by destruct (is_probe _).
  - pose proof (probed_probes _ _ _ Hp) as Hpp. rewrite Forall_forall in Hpp.
    elem_cases; try done.
    all: match goal with H : Run _ _ _ ∈ _ |- _ => apply Hpp in H end.
    all: unfold is_aux in Haux; by destruct (is_probe _).
Qed.

Lemma conversion_result_raises inv out e :
  exception_of inv out = Some e →
  conversion_result (Raises e) = ConvertFailure (conversion_error out).
Proof. by destruct out; intros [= <-]. Qed.

Lemma trim_trace_settled png_file b dt s inv out :
  trim_trace png_file b dt → Run s inv out ∈ dt → is_aux (Run s inv out) = true.
Proof.
  intros Ht Hin. apply trim_trace_events in Ht. rewrite Forall_forall in Ht.
  apply Ht in Hin. by destruct (trim_is_aux _ Hin) as [?|[? ?]].
Qed.

Lemma probed_settled command b dc s inv out :
  probed command b dc → Run s inv out ∈ dc → is_aux (Run s inv out) = true.
Proof.
  intros Hp Hin. apply probed_probes in Hp. rewrite Forall_forall in Hp.
  apply Hp in Hin. unfold is_aux. by destruct (is_probe _).
Qed.

Lemma raster_trace_interrupted source png_file dpi crop o d s inv out :
  raster_trace source png_file dpi crop o d →
  Run s inv out ∈ d → is_aux (Run s inv out) = false → completed out = false →
  last d = Some (Run s inv out) ∧
  conversion_result o = ConvertFailure (conversion_error out).
Proof.
  intros Hr Hin Haux Hout.
  inversion Hr as
    [f cmd (fo & -> & ->) Hn
    |f cmd out0 e (fo & -> & ->) Hx
    |f cmd so se dt (fo & -> & ->) Ht
    |f cmd rc so se b dc f' cmd' out0 e (fo & -> & ->) Hrc Hb (fo' & -> & ->) Hx
    |f cmd rc so se b dc f' cmd' so' se' dt (fo & -> & ->) Hrc Hb (fo' & -> & ->) Ht
    |f cmd rc so se b dc f' cmd' rc' so' se' (fo & -> & ->) Hrc Hb (fo' & -> & ->) Hrc'];
    subst.
  - elem_cases; done.
  - elem_cases; try done. split; [done|]. by eapply conversion_result_raises.
  - apply elem_of_cons in Hin as [?|Hin]; [by simplify_eq|].
    apply elem_of_cons in Hin as [?|Hin]; [by simplify_eq|].
    by rewrite (trim_trace_settled _ _ _ _ _ _ Ht Hin) in Haux.
  - apply elem_of_cons in Hin as [?|Hin]; [by simplify_eq|].
    apply elem_of_cons in Hin as [?|Hin]; [by simplify_eq|].
    apply elem_of_app in Hin as [Hin|Hin];
      [by rewrite (probed_settled _ _ _ _ _ _ Hb Hin) in Haux|].
    elem_cases; try done. split; [|by eapply conversion_result_raises].
    apply (last_two (_ :: _ :: dc)).
  - apply elem_of_cons in Hin as [?|Hin]; [by simplify_eq|].
    apply elem_of_cons in Hin as [?|Hin]; [by simplify_eq|].
    apply elem_of_app in Hin as [Hin|Hin];
      [by rewrite (probed_settled _ _ _ _ _ _ Hb Hin) in Haux|].
    apply elem_of_cons in Hin as [?|Hin]; [by simplify_eq|].
    apply elem_of_cons in Hin as [?|Hin]; [by simplify_eq|].
    by rewrite (trim_trace_settled _ _ _ _ _ _ Ht Hin) in Haux.
  - apply elem_of_cons in Hin as [?|Hin]; [by simplify_eq|].
    apply elem_of_cons in Hin as [?|Hin]; [by simplify_eq|].
    apply elem_of_app in Hin as [Hin|Hin];
      [by rewrite (probed_settled _ _ _ _ _ _ Hb Hin) in Haux|].
    elem_cases; done.
Qed.

Lemma convert_trace_interrupted pdf_file png_file dpi crop r d s inv out :
  convert_trace pdf_file png_file dpi crop r d →
  Run s inv out ∈ d → is_aux (Run s inv out) = false → completed out = false →
  last d = Some (Run s inv out) ∧ r = ConvertFailure (conversion_error out).
Proof.
  intros Hc Hin Haux Hout.
  inversion Hc as [pre e Hpre|pre source o d' Hpre Hr]; subst.
  - inversion Hpre as [| | |dp f cmd out0 e0 ? Hp (fo & -> & ->) Hx]; subst.
    apply elem_of_app in Hin as [Hin|Hin];
      [by rewrite (probed_settled _ _ _ _ _ _ Hp Hin) in Haux|].
    elem_cases; try done. split; [apply last_two|by eapply conversion_result_raises].
  - apply elem_of_app in Hin as [Hin|Hin].
    { apply crop_trace_returns in Hpre as [_ Hpre].
      by rewrite (Hpre _ _ _ Hin Haux) in Hout. }
    destruct (raster_trace_interrupted _ _ _ _ _ _ _ _ _ Hr Hin Haux Hout) as [Hl Ho].
    split; [|done]. by rewrite last_app, Hl.
Qed.

Lemma pdf_to_png_trace E pdf_file png_file dpi crop w :
  ∃ r, value_of (pdf_to_png E pdf_file png_file dpi crop w) = Returns r ∧
       convert_trace pdf_file png_file dpi crop r
         (events_of (pdf_to_png E pdf_file png_file dpi crop w)).
Proof. apply pdf_to_png_exact. Qed.

(** X8. In [pdf_to_png], a call of [pdfcrop], [pdftoppm] or ImageMagick that
    does not run to its end is the last call made, and the result is a
    failure: "PDF conversion timed out" when the call timed out, and
    "Conversion error: " followed by the text of the exception when it could
    not be started.  So a [pdfcrop] that hangs fails the conversion, although
    its exit status is never looked at, and ImageMagick is not tried after a
    [pdftoppm] that timed out or is not installed. *)
Theorem pdf_to_png_interrupted E pdf_file png_file dpi crop w s inv out :
  Run s inv out ∈ events_of (pdf_to_png E pdf_file png_file dpi crop w) →
  is_aux (Run s inv out) = false →
  completed out = false →
  last (events_of (pdf_to_png E pdf_file png_file dpi crop w)) = Some (Run s inv out) ∧
  value_of (pdf_to_png E pdf_file png_file dpi crop w)
    = Returns (ConvertFailure (conversion_error out)).
Proof.
  intros Hin Haux Hout.
  destruct (pdf_to_png_trace E pdf_file png_file dpi crop w) as (r & Hr & Hc).
  destruct (convert_trace_interrupted _ _ _ _ _ _ _ _ _ Hc Hin Haux Hout) as [Hl ->].
  by split.
Qed.

Lemma pdf_to_png_interrupted_witness :
  value_of (pdf_to_png pdfcrop_hangs_env ws_pdf ws_png 150 true compiled_world)
  = Returns (ConvertFailure "PDF conversion timed out").
Proof.
  refine (proj2 (pdf_to_png_interrupted pdfcrop_hangs_env ws_pdf ws_png 150 true
                   compiled_world pdfcrop_run
                   (pdfcrop_call "/usr/bin/pdfcrop" ws_pdf) TimedOut _ _ _)).
  - apply (list_elem_of_lookup_2 _ 2). vm_compute. reflexivity.
  - reflexivity.
  - reflexivity.
Defined.

(** ** [pdf_to_png]: the ImageMagick fallback *)

Lemma fallback_choice b dc l :
  probed "convert" b dc → ¬ available "convert" l →
  fallback_tool b = "convert" ∧ available "convert" (l ++ dc) ∨
  fallback_tool b = "magick" ∧ ¬ available "convert" (l ++ dc).
Proof.
  intros Hp Hl. destruct b; [left|right]; (split; [done|]); rewrite available_app.
  - right. by apply (probed_available _ _ _ Hp).
  - intros [?|Ha]; [done|]. by apply (probed_available _ _ _ Hp) in Ha.
Qed.

Lemma raster_trace_fallback source png_file dpi crop o d pre inv out :
  raster_trace source png_file dpi crop o d →
  ¬ available "convert" pre →
  (∀ inv' out', Run imagemagick_run inv' out' ∉ pre) →
  Run imagemagick_run inv out ∈ d →
  ∃ before after tool fout cmd rc so se,
    pre ++ d = before ++ Run (find_which tool) (which_call tool) fout
                      :: Run imagemagick_run inv out :: after ∧
    inv = imagemagick_call (resolved tool fout) dpi source png_file ∧
    Run pdftoppm_run (pdftoppm_call cmd dpi source png_file) (Completed rc so se)
      ∈ before ∧
    rc ≠ 0 ∧
    (tool = "convert" ∧ available "convert" before ∨
     tool = "magick" ∧ ¬ available "convert" before) ∧
    (∀ inv' out', Run imagemagick_run inv' out' ∉ before ++ after).
Proof.
  intros Hr Hpre Hno Hin.
  assert (∀ b dc f cmd so se rc,
            probed "convert" b dc → found_by "pdftoppm" f cmd →
            ¬ available "convert"
                (pre ++ [f; Run pdftoppm_run (pdftoppm_call cmd dpi source png_file)
                                (Completed rc so se)])) as Hbefore.
  { intros b dc f cmd so se rc _ (fo & -> & ->) Ha.
    apply available_app in Ha as [Ha|Ha]; [done|].
    apply available_cons in Ha as [Ha|Ha]; revert Ha; by apply unavailable_other. }
  assert (∀ b dc f cmd so se rc dt inv' out',
            probed "convert" b dc → found_by "pdftoppm" f cmd →
            Forall (λ e, trim_event e = true) dt →
            Run imagemagick_run inv' out'
              ∉ ((pre ++ [f; Run pdftoppm_run (pdftoppm_call cmd dpi source png_file)
                               (Completed rc so se)]) ++ dc) ++ dt) as Hrest.
  { intros b dc f cmd so se rc dt inv' out' Hb (fo & -> & ->) Hdt Hin'.
    apply elem_of_app in Hin' as [Hin'|Hin'];
      [|revert Hin'; by eapply not_in_trace].
    apply elem_of_app in Hin' as [Hin'|Hin'];
      [|by pose proof (probed_settled _ _ _ _ _ _ Hb Hin')].
    apply elem_of_app in Hin' as [Hin'|Hin']; [by apply Hno in Hin'|].
    elem_cases. }
  inversion Hr as
    [f cmd Hf Hn
    |f cmd out0 e Hf Hx
    |f cmd so se dt Hf Ht
    |f cmd rc so se b dc f' cmd' out0 e Hf Hrc Hb (fo' & -> & ->) Hx
    |f cmd rc so se b dc f' cmd' so' se' dt Hf Hrc Hb (fo' & -> & ->) Ht
    |f cmd rc so se b dc f' cmd' rc' so' se' Hf Hrc Hb (fo' & -> & ->) Hrc'];
    subst.
  - destruct Hf as (? & -> & _). elem_cases.
  - destruct Hf as (? & -> & _). elem_cases.
  - destruct Hf as (? & -> & _).
    apply elem_of_cons in Hin as [?|Hin]; [by simplify_eq|].
    apply elem_of_cons in Hin as [?|Hin]; [by simplify_eq|].
    by pose proof (trim_trace_settled _ _ _ _ _ _ Ht Hin).
  - assert (inv = imagemagick_call (resolved (fallback_tool b) fo') dpi source png_file
            ∧ out = out0) as [-> ->].
    { destruct Hf as (? & -> & _).
      apply elem_of_cons in Hin as [?|Hin]; [by simplify_eq|].
      apply elem_of_cons in Hin as [?|Hin]; [by simplify_eq|].
      apply elem_of_app in Hin as [Hin|Hin];
        [by pose proof (probed_settled _ _ _ _ _ _ Hb Hin)|].
      elem_cases. done. }
    eexists ((pre ++ [f; _]) ++ dc), [], (fallback_tool b), fo', cmd, rc, so, se.
    split_and!; try done.
    + by rewrite <- !app_assoc.
    + apply elem_of_app. left. apply elem_of_app. right. right. by left.
    + by eapply fallback_choice, Hbefore.
    + intros inv' out'. by eapply Hrest.
  - assert (inv = imagemagick_call (resolved (fallback_tool b) fo') dpi source png_file
            ∧ out = Completed 0 so' se') as [-> ->].
    { destruct Hf as (? & -> & _).
      apply elem_of_cons in Hin as [?|Hin]; [by simplify_eq|].
      apply elem_of_cons in Hin as [?|Hin]; [by simplify_eq|].
      apply elem_of_app in Hin as [Hin|Hin];
        [by pose proof (probed_settled _ _ _ _ _ _ Hb Hin)|].
      apply elem_of_cons in Hin as [?|Hin]; [by simplify_eq|].
      apply elem_of_cons in Hin as [?|Hin]; [by simplify_eq|].
      by pose proof (trim_trace_settled _ _ _ _ _ _ Ht Hin). }
    eexists ((pre ++ [f; _]) ++ dc), dt, (fallback_tool b), fo', cmd, rc, so, se.
    split_and!; try done.
    + by rewrite <- !app_assoc.
    + apply elem_of_app. left. apply elem_of_app. right. right. by left.
    + by eapply fallback_choice, Hbefore.
    + intros inv' out'. eapply Hrest; try done. by eapply trim_trace_events.
  - assert (inv = imagemagick_call (resolved (fallback_tool b) fo') dpi source png_file
            ∧ out = Completed rc' so' se') as [-> ->].
    { destruct Hf as (? & -> & _).
      apply elem_of_cons in Hin as [?|Hin]; [by simplify_eq|].
      apply elem_of_cons in Hin as [?|Hin]; [by simplify_eq|].
      apply elem_of_app in Hin as [Hin|Hin];
        [by pose proof (probed_settled _ _ _ _ _ _ Hb Hin)|].
      elem_cases. done. }
    eexists ((pre ++ [f; _]) ++ dc), [], (fallback_tool b), fo', cmd, rc, so, se.
    split_and!; try done.
    + by rewrite <- !app_assoc.
    + apply elem_of_app. left. apply elem_of_app. right. right. by left.
    + by eapply fallback_choice, Hbefore.
    + intros inv' out'. by eapply Hrest.
Qed.

(** X9. In [pdf_to_png], ImageMagick is called at most once, and only after
    [pdftoppm] exited with a non-zero status.  The call comes right after a
    lookup by [find_command] and runs what that lookup gave, with
    [-density <dpi>], the source that [pdftoppm] was given and the output
    file, and a timeout of 30 seconds.  The tool looked up is "convert" when
    a probe of [convert] before that point exited with status zero, and
    "magick" otherwise, whether or not [magick] is installed. *)
Theorem pdf_to_png_fallback E pdf_file png_file dpi crop w inv out :
  Run imagemagick_run inv out ∈ events_of (pdf_to_png E pdf_file png_file dpi crop w) →
  ∃ before after tool fout cmd source rc so se,
    events_of (pdf_to_png E pdf_file png_file dpi crop w)
      = before ++ Run (find_which tool) (which_call tool) fout
               :: Run imagemagick_run inv out :: after ∧
    inv = imagemagick_call (resolved tool fout) dpi source png_file ∧
    (source = pdf_file ∨ source = cropped_of pdf_file) ∧
    Run pdftoppm_run (pdftoppm_call cmd dpi source png_file) (Completed rc so se)
      ∈ before ∧
    rc ≠ 0 ∧
    (tool = "convert" ∧ available "convert" before ∨
     tool = "magick" ∧ ¬ available "convert" before) ∧
    (∀ inv' out', Run imagemagick_run inv' out' ∉ before ++ after).
Proof.
  intros Hin.
  destruct (pdf_to_png_trace E pdf_file png_file dpi crop w) as (r & _ & Hc).
  set (d := events_of _) in *. clearbody d.
  inversion Hc as [pre e Hpre|pre source o d' Hpre Hr]; subst.
  { exfalso. revert Hin. eapply not_in_trace; [by eapply crop_trace_events|done]. }
  pose proof (crop_trace_events _ _ _ _ Hpre) as Hev.
  apply elem_of_app in Hin as [Hin|Hin].
  { exfalso. revert Hin. by eapply not_in_trace. }
  destruct (raster_trace_fallback _ _ _ _ _ _ pre inv out Hr)
    as (before & after & tool & fout & cmd & rc & so & se & Hd & Hinv & Hp & Hrc & Ht & Hone);
    [by eapply unavailable_where|intros ? ?; by eapply not_in_trace|done|].
  exists before, after, tool, fout, cmd, source, rc, so, se.
  split_and!; try done. by apply crop_trace_returns in Hpre as [? _].
Qed.

Lemma pdf_to_png_fallback_witness :
  ∃ before after tool fout cmd source rc so se,
    events_of (pdf_to_png fallback_env ws_pdf ws_png 300 true compiled_world)
      = before ++ Run (find_which tool) (which_call tool) fout
               :: Run imagemagick_run
                    (imagemagick_call "/usr/bin/convert" 300 (cropped_of ws_pdf) ws_png)
                    (Completed 0 "" "") :: after ∧
    imagemagick_call "/usr/bin/convert" 300 (cropped_of ws_pdf) ws_png
      = imagemagick_call (resolved tool fout) 300 source ws_png ∧
    (source = ws_pdf ∨ source = cropped_of ws_pdf) ∧
    Run pdftoppm_run (pdftoppm_call cmd 300 source ws_png) (Completed rc so se)
      ∈ before ∧
    rc ≠ 0 ∧
    (tool = "convert" ∧ available "convert" before ∨
     tool = "magick" ∧ ¬ available "convert" before) ∧
    (∀ inv' out', Run imagemagick_run inv' out' ∉ before ++ after).
Proof.
  apply (pdf_to_png_fallback fallback_env ws_pdf ws_png 300 true compiled_world).
  apply (list_elem_of_lookup_2 _ 7). vm_compute. reflexivity.
Defined.

(** ** [pdf_to_png]: the vector-crop step *)

Lemma raster_trace_events source png_file dpi crop o d :
  raster_trace source png_file dpi crop o d →
  Forall (λ e, negb (crop_event e) = true) d.
Proof.
  assert (∀ b dc, probed "convert" b dc → Forall (λ e, negb (crop_event e) = true) dc)
    as Hdc by (intros b dc Hb; by eapply (probed_events (λ e, negb (crop_event e)))).
  assert (∀ b f cmd, found_by (fallback_tool b) f cmd → negb (crop_event f) = true)
    as Hf' by (intros [] f cmd (? & -> & _); done).
  assert (∀ b dt, trim_trace png_file b dt → Forall (λ e, negb (crop_event e) = true) dt)
    as Hdt.
  { intros b dt Ht%trim_trace_events. eapply Forall_impl; [done|].
    intros e He. simpl. by rewrite (trim_not_crop e He). }
  intros Hr.
  inversion Hr as
    [f cmd (? & -> & _) Hn
    |f cmd out0 e (? & -> & _) Hx
    |f cmd so se dt (? & -> & _) Ht
    |f cmd rc so se b dc f' cmd' out0 e (? & -> & _) Hrc Hb Hfb Hx
    |f cmd rc so se b dc f' cmd' so' se' dt (? & -> & _) Hrc Hb Hfb Ht
    |f cmd rc so se b dc f' cmd' rc' so' se' (? & -> & _) Hrc Hb Hfb Hrc'];
    subst; repeat (apply Forall_cons; split; [done|]);
    rewrite ?Forall_app; repeat split; eauto;
    repeat (apply Forall_cons; split; eauto).
Qed.

Lemma raster_trace_primary source png_file dpi crop o d :
  raster_trace source png_file dpi crop o d →
  is_Some (Path.without_suffix png_file) →
  ∃ cmd out, Run pdftoppm_run (pdftoppm_call cmd dpi source png_file) out ∈ d.
Proof.
  intros Hr [stem Hn]. inversion Hr; subst; try (eexists _, _; right; by left).
  congruence.
Qed.

Lemma convert_trace_crop pdf_file png_file dpi crop r d :
  convert_trace pdf_file png_file dpi crop r d →
  ((∃ inv out, Run pdfcrop_run inv out ∈ d) ↔ crop = true ∧ available "pdfcrop" d) ∧
  (∀ inv out,
     Run pdfcrop_run inv out ∈ d →
     ∃ before after fout,
       d = before ++ Run (find_which "pdfcrop") (which_call "pdfcrop") fout
                  :: Run pdfcrop_run inv out :: after ∧
       inv = pdfcrop_call (resolved "pdfcrop" fout) pdf_file ∧
       Forall (λ e, is_probe e = true) before ∧
       (∀ inv' out', Run pdfcrop_run inv' out' ∉ before ++ after)) ∧
  (∀ inv rc so se,
     Run pdfcrop_run inv (Completed rc so se) ∈ d →
     is_Some (Path.without_suffix png_file) →
     ∃ cmd source out,
       Run pdftoppm_run (pdftoppm_call cmd dpi source png_file) out ∈ d ∧
       (source = pdf_file ∨ source = cropped_of pdf_file)).
Proof.
  intros Hc.
  assert (∃ pre o rest,
            d = pre ++ rest ∧ crop_trace pdf_file crop o pre ∧
            Forall (λ e, negb (crop_event e) = true) rest ∧
            (∀ source, o = Returns source → is_Some (Path.without_suffix png_file) →
               ∃ cmd out, Run pdftoppm_run (pdftoppm_call cmd dpi source png_file) out
                            ∈ rest))
    as (pre & o & rest & -> & Hpre & Hrest & Hprimary).
  { inversion Hc as [pre e Hpre|pre source o d' Hpre Hr]; subst.
    - exists d, (Raises e), []. rewrite app_nil_r. by split_and!.
    - exists pre, (Returns source), d'. split_and!; try done.
      + by eapply raster_trace_events.
      + intros ? [= <-]. by eapply raster_trace_primary. }
  clear Hc.
  assert (∀ inv out, Run pdfcrop_run inv out ∉ rest) as Hnone
    by (intros ? ?; by eapply (not_in_trace (λ e, negb (crop_event e)))).
  assert (¬ available "pdfcrop" rest) as Hunav
    by by eapply (unavailable_where (λ e, negb (crop_event e))).
  assert (∀ b dp, probed "pdfcrop" b dp →
            Forall (λ e, is_probe e = true) dp ∧
            ∀ inv out, Run pdfcrop_run inv out ∉ dp) as Hdp.
  { intros b dp Hp. pose proof (probed_events is_probe _ _ _ Hp) as Hpp.
    split; [by apply Hpp|]. intros ? ?. eapply not_in_trace; [by apply Hpp|done]. }
  inversion Hpre as
    [Hcrop
    |dp Hcrop Hp
    |dp f cmd rc so se source Hcrop Hp (fout & -> & ->) Hs
    |dp f cmd out0 e Hcrop Hp (fout & -> & ->) Hx]; subst.
  - split_and!.
    + split; [intros (inv & out & Hin); by apply Hnone in Hin|by intros [? _]].
    + intros inv out Hin. by apply Hnone in Hin.
    + intros inv rc so se Hin. by apply Hnone in Hin.
  - destruct (Hdp _ _ Hp) as [_ Hno].
    assert (∀ inv out, Run pdfcrop_run inv out ∉ pre ++ rest) as Hnone'.
    { intros inv out [Hin|Hin]%elem_of_app; [by apply Hno in Hin|by apply Hnone in Hin]. }
    split_and!.
    + split; [intros (inv & out & Hin); by apply Hnone' in Hin|].
      intros [_ [Ha|Ha]%available_app]; [|done].
      by apply (probed_available _ _ _ Hp) in Ha.
    + intros inv out Hin. by apply Hnone' in Hin.
    + intros inv rc so se Hin. by apply Hnone' in Hin.
  - destruct (Hdp _ _ Hp) as [Hpp Hno].
    assert (∀ inv out,
              Run pdfcrop_run inv out
                ∈ (dp ++ [Run (find_which "pdfcrop") (which_call "pdfcrop") fout;
                          Run pdfcrop_run
                            (pdfcrop_call (resolved "pdfcrop" fout) pdf_file)
                            (Completed rc so se)]) ++ rest →
              inv = pdfcrop_call (resolved "pdfcrop" fout) pdf_file ∧
              out = Completed rc so se) as Honly.
    { intros inv out [[Hin|Hin]%elem_of_app|Hin]%elem_of_app;
        [by apply Hno in Hin| |by apply Hnone in Hin].
      elem_cases; done. }
    split_and!.
    + split; [intros _|intros _; eexists _, _].
      * split; [done|]. apply available_app. left. apply available_app. left.
        by apply (probed_available _ _ _ Hp).
      * apply elem_of_app. left. apply elem_of_app. right. right. by left.
    + intros inv out [-> ->]%Honly. exists dp, rest, fout.
      split_and!; try done; [by rewrite <- app_assoc|].
      intros inv' out' [Hin|Hin]%elem_of_app; [by apply Hno in Hin|by apply Hnone in Hin].
    + intros inv rc' so' se' _ Hn.
      destruct (Hprimary source eq_refl Hn) as (c & out' & Hin).
      exists c, source, out'. split; [|done]. apply elem_of_app. by right.
  - destruct (Hdp _ _ Hp) as [Hpp Hno].
    assert (∀ inv out,
              Run pdfcrop_run inv out
                ∈ (dp ++ [Run (find_which "pdfcrop") (which_call "pdfcrop") fout;
                          Run pdfcrop_run
                            (pdfcrop_call (resolved "pdfcrop" fout) pdf_file) out0])
                  ++ rest →
              inv = pdfcrop_call (resolved "pdfcrop" fout) pdf_file ∧ out = out0)
      as Honly.
    { intros inv out [[Hin|Hin]%elem_of_app|Hin]%elem_of_app;
        [by apply Hno in Hin| |by apply Hnone in Hin].
      elem_cases; done. }
    split_and!.
    + split; [intros _|intros _; eexists _, _].
      * split; [done|]. apply available_app. left. apply available_app. left.
        by apply (probed_available _ _ _ Hp).
      * apply elem_of_app. left. apply elem_of_app. right. right. by left.
    + intros inv out [-> ->]%Honly. exists dp, rest, fout.
      split_and!; try done; [by rewrite <- app_assoc|].
      intros inv' out' [Hin|Hin]%elem_of_app; [by apply Hno in Hin|by apply Hnone in Hin].
    + intros inv rc' so' se' [_ <-]%Honly. done.
Qed.

(** X10. The vector-crop step of [pdf_to_png].  [pdfcrop] is run exactly
    when [crop] is set and a probe of [pdfcrop] exited with status zero, and
    then once, as the first call after the probes: what [find_command] gave
    for "pdfcrop", with [--margins 3], the document and
    [document-cropped.pdf] beside it, and a timeout of 30 seconds.  Its exit
    status is not looked at: whenever it runs to its end and the output path
    has a name, [pdftoppm] is run next, on the document or on the cropped
    file. *)
Theorem pdf_to_png_crop_step E pdf_file png_file dpi crop w :
  ((∃ inv out,
      Run pdfcrop_run inv out ∈ events_of (pdf_to_png E pdf_file png_file dpi crop w)) ↔
   crop = true ∧
   available "pdfcrop" (events_of (pdf_to_png E pdf_file png_file dpi crop w))) ∧
  (∀ inv out,
     Run pdfcrop_run inv out ∈ events_of (pdf_to_png E pdf_file png_file dpi crop w) →
     ∃ before after fout,
       events_of (pdf_to_png E pdf_file png_file dpi crop w)
         = before ++ Run (find_which "pdfcrop") (which_call "pdfcrop") fout
                  :: Run pdfcrop_run inv out :: after ∧
       inv = pdfcrop_call (resolved "pdfcrop" fout) pdf_file ∧
       Forall (λ e, is_probe e = true) before ∧
       (∀ inv' out', Run pdfcrop_run inv' out' ∉ before ++ after)) ∧
  (∀ inv rc so se,
     Run pdfcrop_run inv (Completed rc so se)
       ∈ events_of (pdf_to_png E pdf_file png_file dpi crop w) →
     is_Some (Path.without_suffix png_file) →
     ∃ cmd source out,
       Run pdftoppm_run (pdftoppm_call cmd dpi source png_file) out
         ∈ events_of (pdf_to_png E pdf_file png_file dpi crop w) ∧
       (source = pdf_file ∨ source = cropped_of pdf_file)).
Proof.
  destruct (pdf_to_png_trace E pdf_file png_file dpi crop w) as (r & _ & Hc).
  by eapply convert_trace_crop.
Qed.

(** ** [readiness_report] *)

Lemma probes_app l1 l2 d1 d2 : probes l1 d1 → probes l2 d2 → probes (l1 ++ l2) (d1 ++ d2).
Proof.
  induction 1 as [|c b l d d' Hp Hl IH]; intros H2; [done|].
  simpl. rewrite <- app_assoc. constructor; auto.
Qed.

Lemma probes_one command b d : probed command b d → probes [(command, b)] d.
Proof. intros Hp. rewrite <- (app_nil_r d). by repeat constructor. Qed.

Lemma probes_available l d command :
  probes l d → (available command d ↔ (command, true) ∈ l).
Proof.
  induction 1 as [|c b l d d' Hp Hl IH].
  - split; [|by intros ?%elem_of_nil].
    intros (so & se & [Hin|Hin]); by apply elem_of_nil in Hin.
  - rewrite available_app, elem_of_cons, IH.
    destruct (decide (command = c)) as [->|Hne].
    + rewrite <- (probed_available _ _ _ Hp). naive_solver.
    + pose proof (probed_unavailable command _ _ _ Hp Hne). naive_solver.
Qed.

Lemma probes_events l d e :
  probes l d → e ∈ d →
  ∃ command out,
    command ∈ l.*1 ∧
    (e = Run (check_which command) (which_call command) out ∨
     e = Run (check_version command) (version_call command) out).
Proof.
  induction 1 as [|c b l d d' Hp Hl IH]; [by intros ?%elem_of_nil|].
  intros [Hin|Hin]%elem_of_app.
  - inversion Hp; subst; elem_cases; eexists c, _; (split; [by left|]); eauto.
  - destruct (IH Hin) as (c' & out & Hc' & He). exists c', out. split; [by right|done].
Qed.

Lemma readiness_report_exact E w :
  sat (readiness_report E) w (λ o _ d,
    ∃ r pdflatex biber bibtex pdftoppm convert magick pdfcrop,
      o = Returns r ∧
      tools r = <["pdfcrop" := pdfcrop]> (<["convert" := convert || magick]>
                  (<["pdftoppm" := pdftoppm]> (<["bibtex" := bibtex]>
                  (<["biber" := biber]> (<["pdflatex" := pdflatex]> ∅))))) ∧
      probes ([("pdflatex", pdflatex); ("biber", biber); ("bibtex", bibtex);
               ("pdftoppm", pdftoppm); ("convert", convert)]
              ++ (if convert then [] else [("magick", magick)])
              ++ [("pdfcrop", pdfcrop)]) d).
Proof.
  unfold readiness_report.
  apply sat_bind. eapply sat_mono; [apply check_command_exact|].
  intros ? ? d1 (pdflatex & -> & H1).
  apply sat_bind. eapply sat_mono; [apply check_command_exact|].
  intros ? ? d2 (biber & -> & H2).
  apply sat_bind. eapply sat_mono; [apply check_command_exact|].
  intros ? ? d3 (bibtex & -> & H3).
  apply sat_bind. eapply sat_mono; [apply check_command_exact|].
  intros ? ? d4 (pdftoppm & -> & H4).
  apply sat_bind. eapply sat_mono; [apply check_command_exact|].
  intros ? ? d5 (convert & -> & H5).
  apply sat_bind.
  assert (∀ w0, sat (if convert then ret convert else check_command E "magick") w0
            (λ o _ d, ∃ magick, o = Returns (convert || magick) ∧
               probes (if convert then [] else [("magick", magick)]) d)) as Hc.
  { intros w0. destruct convert; [exists false; split; [done|constructor]|].
    eapply sat_mono; [apply check_command_exact|].
    intros ? ? ? (b & -> & Hb). exists b. split; [done|]. by apply probes_one. }
  eapply sat_mono; [apply Hc|]. clear Hc. intros ? ? d6 (magick & -> & H6).
  apply sat_bind. eapply sat_mono; [apply check_command_exact|].
  intros ? ? d7 (pdfcrop & -> & H7).
  set (t := <["pdfcrop" := pdfcrop]> _).
  assert (t !! "pdflatex" = Some pdflatex) as Ha by (subst t; by simplify_map_eq).
  assert (t !! "pdftoppm" = Some pdftoppm) as Hb by (subst t; by simplify_map_eq).
  assert (t !! "convert" = Some (convert || magick)) as Hc by (subst t; by simplify_map_eq).
  assert (probes ([("pdflatex", pdflatex); ("biber", biber); ("bibtex", bibtex);
                   ("pdftoppm", pdftoppm); ("convert", convert)]
                  ++ (if convert then [] else [("magick", magick)])
                  ++ [("pdfcrop", pdfcrop)])
            (d1 ++ d2 ++ d3 ++ d4 ++ d5 ++ d6 ++ d7)) as Hp.
  { change [("pdflatex", pdflatex); ("biber", biber); ("bibtex", bibtex);
            ("pdftoppm", pdftoppm); ("convert", convert)]
      with ([("pdflatex", pdflatex)] ++ [("biber", biber)] ++ [("bibtex", bibtex)]
            ++ [("pdftoppm", pdftoppm)] ++ [("convert", convert)]).
    rewrite <- !app_assoc.
    repeat (apply probes_app; [by apply probes_one|]).
    apply probes_app; [done|]. by apply probes_one. }
  assert (∀ v, ∃ r pdflatex0 biber0 bibtex0 pdftoppm0 convert0 magick0 pdfcrop0,
            Returns (Readiness v t) = Returns r ∧
            tools r = <["pdfcrop" := pdfcrop0]> (<["convert" := convert0 || magick0]>
                        (<["pdftoppm" := pdftoppm0]> (<["bibtex" := bibtex0]>
                        (<["biber" := biber0]> (<["pdflatex" := pdflatex0]> ∅))))) ∧
            probes ([("pdflatex", pdflatex0); ("biber", biber0); ("bibtex", bibtex0);
                     ("pdftoppm", pdftoppm0); ("convert", convert0)]
                    ++ (if convert0 then [] else [("magick", magick0)])
                    ++ [("pdfcrop", pdfcrop0)])
              (d1 ++ d2 ++ d3 ++ d4 ++ d5 ++ d6 ++ d7)) as Hdone.
  { intros v. by eexists _, pdflatex, biber, bibtex, pdftoppm, convert, magick, pdfcrop. }
  clearbody t. unfold getitem. rewrite Ha.
  apply sat_bind, sat_ret.
  destruct pdflatex.
  - apply sat_bind. rewrite Hb. apply sat_bind, sat_ret. destruct pdftoppm.
    + apply sat_ret, sat_ret. rewrite !app_nil_r. apply Hdone.
    + rewrite Hc. apply sat_ret, sat_ret. rewrite !app_nil_r. apply Hdone.
  - apply sat_bind, sat_ret, sat_ret. rewrite !app_nil_r. apply Hdone.
Qed.

(** X11. [readiness_report] only probes: each of its calls is [which <tool>]
    or [<tool> --version], with a timeout of 5 seconds.  The entries of
    pdflatex, biber, bibtex, pdftoppm and pdfcrop say whether a probe of
    that tool exited with status zero; the entry of convert says whether a
    probe of [convert] or of [magick] did; and [magick] is probed only when
    no probe of [convert] exited with status zero. *)
Theorem readiness_report_probes E w :
  ∃ r,
    value_of (readiness_report E w) = Returns r ∧
    (∀ e, e ∈ events_of (readiness_report E w) →
       ∃ command out,
         e = Run (check_which command) (which_call command) out ∨
         e = Run (check_version command) (version_call command) out) ∧
    (∀ command,
       command ∈ ["pdflatex"; "biber"; "bibtex"; "pdftoppm"; "pdfcrop"] →
       ∃ b, tools r !! command = Some b ∧
            (b = true ↔ available command (events_of (readiness_report E w)))) ∧
    (∃ b, tools r !! "convert" = Some b ∧
          (b = true ↔ available "convert" (events_of (readiness_report E w)) ∨
                      available "magick" (events_of (readiness_report E w)))) ∧
    (available "convert" (events_of (readiness_report E w)) →
     ∀ s inv out,
       Run s inv out ∈ events_of (readiness_report E w) →
       s ≠ check_which "magick" ∧ s ≠ check_version "magick").
Proof.
  destruct (readiness_report_exact E w)
    as (r & pdflatex & biber & bibtex & pdftoppm & convert & magick & pdfcrop
        & Hv & Ht & Hp).
  exists r. split; [done|].
  set (d := events_of _) in *. clearbody d. clear Hv.
  pose proof (λ c, probes_available _ _ c Hp) as Hav.
  split_and!.
  - intros e He. destruct (probes_events _ _ _ Hp He) as (c & out & _ & Hc). eauto.
  - intros c Hc. rewrite Ht.
    repeat (apply elem_of_cons in Hc as [->|Hc]); [..|by apply elem_of_nil in Hc];
      eexists; (split; [by simplify_map_eq|]); rewrite Hav;
      destruct convert; simpl; rewrite !elem_of_cons, elem_of_nil; naive_solver.
  - exists (convert || magick). rewrite Ht. split; [by simplify_map_eq|].
    rewrite !Hav.
    destruct convert; simpl; rewrite !elem_of_cons, !elem_of_nil;
      [naive_solver|destruct magick; naive_solver].
  - intros Hc%Hav s inv out Hin.
    assert (convert = true) as ->.
    { destruct convert; [done|]. simpl in Hc.
      rewrite !elem_of_cons, elem_of_nil in Hc. naive_solver. }
    destruct (probes_events _ _ _ Hp Hin) as (c & out' & Hc' & He).
    simpl in Hc'. rewrite !elem_of_cons, elem_of_nil in Hc'.
    split; intros ->; destruct He as [He|He]; simplify_eq; naive_solver.
Qed.

(** ** The set-up of [render_snippet] *)

Lemma sat_eq {A} (c : M A) w o w' d (Q : outcome A → world → list event → Prop) :
  c w = (o, w', d) → Q o w' d → sat c w Q.
Proof. unfold sat. by intros ->. Qed.

Lemma parent_div p name : name ≠ "" → Path.parent (p // name) = p.
Proof.
  intros Hn. unfold Path.parent, Path.div.
  rewrite removelast_last.
  destruct p as [|a p]; simpl; [by destruct name|].
  destruct a; [|done]. by destruct p.
Qed.

Lemma app_nonempty (a : string) c b : a +:+ String c b ≠ "".
Proof. by destruct a. Qed.

Lemma uuid_str_nonempty n : UUID.str n ≠ "".
Proof. unfold UUID.str. cbv zeta. apply (app_nonempty _ "-"%char). Qed.

Lemma mkdir_new p w :
  fs w !! p = None → fs w !! Path.parent p = Some Dir →
  mkdir_exist_ok p w = (Returns (), World (<[p := Dir]> (fs w)) (ticks w), []).
Proof. intros Hp Hd. unfold mkdir_exist_ok. by rewrite Hp, Hd. Qed.

Lemma write_text_new p content w :
  fs w !! p = None → fs w !! Path.parent p = Some Dir →
  write_text p content w
  = (Returns (), World (<[p := File content]> (fs w)) (ticks w), []).
Proof. intros Hp Hd. unfold write_text. by rewrite Hp, Hd. Qed.

Lemma prepare_workspace_fresh_sat E body preamble_extra bib_entries use_biblatex w :
  fs w !! TEMP_DIR E = Some Dir →
  (∀ q, FS.under (TEMP_DIR E // UUID.str (uuid4 E)) q → fs w !! q = None) →
  sat (prepare_workspace E body preamble_extra bib_entries use_biblatex) w (λ o w' d,
    o = Returns (Workspace (UUID.str (uuid4 E)) (TEMP_DIR E // UUID.str (uuid4 E))
                   (TEMP_DIR E // UUID.str (uuid4 E) // "document.tex")) ∧
    d = [] ∧ ticks w' = ticks w ∧
    fs w' !! (TEMP_DIR E // UUID.str (uuid4 E)) = Some Dir ∧
    (∃ head tail,
       fs w' !! (TEMP_DIR E // UUID.str (uuid4 E) // "document.tex")
         = Some (File (head +:+ body +:+ tail)) ∧
       Str.endswith head ("\begin{document}" +:+ Str.nl) = true ∧
       Str.endswith tail ("\end{document}" +:+ Str.nl) = true) ∧
    fs w' !! (TEMP_DIR E // UUID.str (uuid4 E) // "references.bib")
      = (if truthy bib_entries then File <$> bib_entries else None) ∧
    (∀ q, q ≠ TEMP_DIR E // UUID.str (uuid4 E) →
          q ≠ TEMP_DIR E // UUID.str (uuid4 E) // "document.tex" →
          q ≠ TEMP_DIR E // UUID.str (uuid4 E) // "references.bib" →
          fs w' !! q = fs w !! q)).
Proof.
  intros Hroot Hfresh. unfold prepare_workspace.
  set (tp := TEMP_DIR E // UUID.str (uuid4 E)).
  assert (fs w !! tp = None) as Htp by by apply Hfresh.
  assert (fs w !! (tp // "document.tex") = None) as Htex by apply Hfresh, under_div.
  assert (fs w !! (tp // "references.bib") = None) as Hbib by apply Hfresh, under_div.
  assert (Path.parent tp = TEMP_DIR E) as Hptp by apply parent_div, uuid_str_nonempty.
  assert (∀ name, name ≠ "" → Path.parent (tp // name) = tp) as Hpar
    by (intros; by apply parent_div).
  assert (tp // "document.tex" ≠ tp) as Hne1 by apply div_ne.
  assert (tp // "references.bib" ≠ tp) as Hne2 by apply div_ne.
  assert (tp // "references.bib" ≠ tp // "document.tex") as Hne3
    by (by intros [=]%div_inj).
  apply sat_bind. eapply sat_eq; [apply mkdir_new; [done|by rewrite Hptp]|].
  assert (∀ fp bc : string,
    ∃ head tail,
      "
" +:+ fp +:+ "

\begin{document}
" +:+ body +:+ "
" +:+ bc +:+ "
\end{document}
" = head +:+ body +:+ tail ∧
      Str.endswith head ("\begin{document}" +:+ Str.nl) = true ∧
      Str.endswith tail ("\end{document}" +:+ Str.nl) = true) as Hdoc.
  { intros fp bc.
    exists (("
" +:+ fp +:+ "

") +:+ ("\begin{document}" +:+ Str.nl)), ((Str.nl +:+ bc +:+ Str.nl) +:+ ("\end{document}" +:+ Str.nl)).
    split_and!; [|apply endswith_app..].
    rewrite !string_app_assoc. reflexivity. }
  destruct (truthy bib_entries) eqn:Htruthy.
  - apply truthy_spec in Htruthy as (s & -> & Hs).
    destruct use_biblatex.
    all: apply sat_bind; (eapply sat_eq;
      [apply write_text_new; simpl;
        [by rewrite lookup_insert_ne|rewrite Hpar by done; by rewrite lookup_insert_eq]|]).
    all: apply sat_bind; (eapply sat_eq;
      [apply write_text_new; simpl;
        [by rewrite !lookup_insert_ne
        |rewrite Hpar by done; rewrite lookup_insert_ne by done;
         by rewrite lookup_insert_eq]|]).
    all: apply sat_ret; simpl; split_and!; try done.
    all: try (rewrite !lookup_insert_ne by done; by rewrite lookup_insert_eq).
    all: try (by rewrite lookup_insert_eq).
    all: try (intros q ? ? ?; by rewrite !lookup_insert_ne).
    all: rewrite lookup_insert_ne by done; rewrite lookup_insert_eq.
    all: match goal with
         | |- ∃ head tail, Some (File (_ +:+ ?fp +:+ _ +:+ _ +:+ _ +:+ ?bc +:+ _)) = _ ∧ _ =>
             destruct (Hdoc fp bc) as (head & tail & Heq & Hh & Ht)
         end; exists head, tail; by rewrite <- Heq.
  - apply sat_bind; (eapply sat_eq;
      [apply write_text_new; simpl;
        [by rewrite lookup_insert_ne|rewrite Hpar by done; by rewrite lookup_insert_eq]|]).
    apply sat_bind, sat_ret, sat_ret. simpl. split_and!; try done.
    + rewrite lookup_insert_ne by done. by rewrite lookup_insert_eq.
    + rewrite lookup_insert_eq.
      match goal with
      | |- ∃ head tail, Some (File (_ +:+ ?fp +:+ _ +:+ _ +:+ _ +:+ ?bc +:+ _)) = _ ∧ _ =>
          destruct (Hdoc fp bc) as (head & tail & Heq & Hh & Ht)
      end; exists head, tail; by rewrite <- Heq.
    + by rewrite !lookup_insert_ne.
    + intros q ? ? ?. by rewrite !lookup_insert_ne.
Qed.

Lemma prepare_workspace_needs_root E body preamble_extra bib_entries use_biblatex w :
  fs w !! (TEMP_DIR E // UUID.str (uuid4 E)) = None →
  fs w !! TEMP_DIR E ≠ Some Dir →
  ∃ e, value_of (prepare_workspace E body preamble_extra bib_entries use_biblatex w)
       = Raises e.
Proof.
  intros Htp Hroot.
  assert (Path.parent (TEMP_DIR E // UUID.str (uuid4 E)) = TEMP_DIR E) as Hptp
    by apply parent_div, uuid_str_nonempty.
  unfold prepare_workspace, bind, value_of, mkdir_exist_ok.
  rewrite Htp, Hptp.
  destruct (fs w !! TEMP_DIR E) as [[|content]|]; [done|by eexists..].
Qed.

(** X12. The set-up of [render_snippet] for an identifier that is not in
    use.  It can raise (the scratch root is missing, or a text cannot be
    written).  When it returns, it has called no external program; it has
    created the directory of the request and written [document.tex], in
    which the body stands as it was given, right after the line
    [\begin{document}], and which ends with the line [\end{document}];
    [references.bib] holds the bibliography entries as they were given when
    there are some, and is not written otherwise; no other path of the file
    system has changed. *)
Theorem prepare_workspace_fresh E body preamble_extra bib_entries use_biblatex w ws :
  (∀ q, FS.under (TEMP_DIR E // UUID.str (uuid4 E)) q → fs w !! q = None) →
  value_of (prepare_workspace E body preamble_extra bib_entries use_biblatex w)
    = Returns ws →
  let temp_path := TEMP_DIR E // UUID.str (uuid4 E) in
  let run := prepare_workspace E body preamble_extra bib_entries use_biblatex w in
  ws = Workspace (UUID.str (uuid4 E)) temp_path (temp_path // "document.tex") ∧
  events_of run = [] ∧
  ticks (world_of run) = ticks w ∧
  fs (world_of run) !! temp_path = Some Dir ∧
  (∃ head tail,
     fs (world_of run) !! (temp_path // "document.tex")
       = Some (File (head +:+ body +:+ tail)) ∧
     Str.endswith head ("\begin{document}" +:+ Str.nl) = true ∧
     Str.endswith tail ("\end{document}" +:+ Str.nl) = true) ∧
  fs (world_of run) !! (temp_path // "references.bib")
    = (if truthy bib_entries then File <$> bib_entries else None) ∧
  (∀ q, q ≠ temp_path → q ≠ temp_path // "document.tex" →
        q ≠ temp_path // "references.bib" →
        fs (world_of run) !! q = fs w !! q).
Proof.
  intros Hfresh Hret. cbv zeta.
  assert (fs w !! TEMP_DIR E = Some Dir ∨ fs w !! TEMP_DIR E ≠ Some Dir) as [Hroot|Hroot]
    by (destruct (fs w !! TEMP_DIR E) as [[|content]|]; auto).
  - pose proof (prepare_workspace_fresh_sat E body preamble_extra bib_entries
                  use_biblatex w Hroot Hfresh) as H.
    unfold sat in H. destruct H as (Hv & H). rewrite Hv in Hret.
    injection Hret as <-. by split.
  - destruct (prepare_workspace_needs_root E body preamble_extra bib_entries
                use_biblatex w) as [e He]; [by apply Hfresh|done|].
    by rewrite He in Hret.
Qed.

Lemma prepare_workspace_fresh_witness :
  fs (world_of (prepare_workspace (scripted_env []) "$E=mc^2$" ""
                  (Some "@book{knuth84}") true empty_world)) !! ws_bib
  = Some (File "@book{knuth84}").
Proof.
  refine (proj1 (proj2 (proj2 (proj2 (proj2 (proj2
    (prepare_workspace_fresh (scripted_env []) "$E=mc^2$" ""
       (Some "@book{knuth84}") true empty_world
       (Workspace ws_id ws_dir ws_tex) _ _))))))).
  - intros q [k ->]. apply lookup_singleton_ne. intros H.
    apply (f_equal length) in H. simpl in H. lia.
  - vm_compute. reflexivity.
Defined.

(** ** [render_snippet]: from the set-up to the image *)

Lemma prepare_workspace_shape E body preamble_extra bib_entries use_biblatex w :
  sat (prepare_workspace E body preamble_extra bib_entries use_biblatex) w (λ o _ d,
    d = [] ∧
    ∀ ws, o = Returns ws →
      ws = Workspace (UUID.str (uuid4 E)) (TEMP_DIR E // UUID.str (uuid4 E))
             (TEMP_DIR E // UUID.str (uuid4 E) // "document.tex")).
Proof.
  unfold prepare_workspace.
  apply sat_bind, mkdir_sat; [intros _|intros _ _|done].
  all: destruct (truthy bib_entries); [destruct use_biblatex|].
  all: apply sat_bind, write_text_sat; [intros _ _|done].
  all: apply sat_bind.
  all: try (apply write_text_sat; [intros _ _|done]).
  all: first [apply sat_ret, sat_ret|apply sat_ret]; split; [done|]; by intros ws [= <-].
Qed.

Lemma bind_run {A B} (c : M A) (k : A → M B) w o w' d :
  c w = (o, w', d) →
  bind c k w = match o with
               | Returns a => let '(o', w'', d') := k a w' in (o', w'', d ++ d')
               | Raises e => (Raises e, w', d)
               end.
Proof. unfold bind. by intros ->. Qed.

Lemma render_snippet_stages E body preamble_extra sanitize_graphics passes bib_entries
    use_biblatex hide_warnings w :
  let temp_path := TEMP_DIR E // UUID.str (uuid4 E) in
  let run := render_snippet E body preamble_extra sanitize_graphics passes bib_entries
               use_biblatex hide_warnings w in
  let p := prepare_workspace E body preamble_extra bib_entries use_biblatex w in
  let c := compile_latex E (temp_path // "document.tex") passes use_biblatex hide_warnings
             (world_of p) in
  let v := pdf_to_png E (temp_path // "document.pdf") (temp_path // "document.png") 300
             true (world_of c) in
  match value_of p with
  | Raises e =>
      run = (Returns (RenderFailure ("Unexpected error: " +:+ exn_str e) None),
             world_of p, [])
  | Returns _ =>
      match value_of c with
      | Returns (CompileFailure error log) =>
          run = (Returns (RenderFailure error (Some (default "" log))),
                 world_of c, events_of c)
      | Returns CompileSuccess =>
          match value_of v with
          | Returns (ConvertFailure error) =>
              run = (Returns (RenderFailure error None), world_of v,
                     events_of c ++ events_of v)
          | Returns ConvertSuccess =>
              events_of run = events_of c ++ events_of v ∧
              match fs (world_of v) !! (temp_path // "document.png"),
                    fs (world_of v) !! temp_path with
              | Some (File content), Some Dir =>
                  value_of run
                    = Returns (RenderSuccess (b64encode E content) (UUID.str (uuid4 E))) ∧
                  world_of run
                    = World (FS.remove_tree temp_path (fs (world_of v)))
                        (ticks (world_of v))
              | _, _ =>
                  ∃ msg, value_of run
                         = Returns (RenderFailure ("Unexpected error: " +:+ msg) None) ∧
                         world_of run = world_of v
              end
          | Raises _ => False
          end
      | Raises _ => False
      end
  end.
Proof.
  cbv zeta.
  pose proof (prepare_workspace_shape E body preamble_extra bib_entries use_biblatex w)
    as Hp. unfold sat in Hp. destruct Hp as [Hd1 Hws].
  unfold render_snippet, try_except.
  unfold value_of, world_of, events_of in *.
  destruct (prepare_workspace E body preamble_extra bib_entries use_biblatex w)
    as [[[ws|e] w1] d1] eqn:Hp; simpl in *; subst d1;
    [|by rewrite (bind_run _ _ _ _ _ _ Hp)].
  rewrite (bind_run _ _ _ _ _ _ Hp).
  rewrite (Hws ws eq_refl). simpl. clear Hws Hp.
  set (tp := TEMP_DIR E // UUID.str (uuid4 E)).
  destruct (compile_latex_run E (tp // "document.tex") passes use_biblatex hide_warnings w1)
    as (o & _ & Hc).
  unfold value_of in Hc.
  destruct (compile_latex E (tp // "document.tex") passes use_biblatex hide_warnings w1)
    as [[[rc|e] wc] dc] eqn:Hc0; simpl in *; [|done].
  rewrite (bind_run _ _ _ _ _ _ Hc0). clear Hc0.
  destruct rc as [|error log]; [|unfold ret; simpl; by rewrite ?app_nil_r].
  destruct (pdf_to_png_trace E (tp // "document.pdf") (tp // "document.png") 300 true wc)
    as (r & Hv & _).
  unfold value_of in Hv.
  destruct (pdf_to_png E (tp // "document.pdf") (tp // "document.png") 300 true wc)
    as [[[rv|e] wv] dv] eqn:Hv0; simpl in *; [|done].
  rewrite (bind_run _ _ _ _ _ _ Hv0). clear Hv0.
  destruct rv as [|error]; [|unfold ret; simpl; by rewrite ?app_nil_r].
  unfold bind, read_bytes, rmtree, ret. simpl.
  destruct (fs wv !! (tp // "document.png")) as [[|content]|]; simpl;
    try (rewrite !app_nil_r; split; [done|]; by eexists).
  destruct (fs wv !! tp) as [[|c0]|]; simpl; rewrite !app_nil_r;
    (split; [done|]); try done; by eexists.
Qed.

Lemma convert_trace_events pdf_file png_file dpi crop r d :
  convert_trace pdf_file png_file dpi crop r d →
  Forall (λ e, convert_event e = true) d.
Proof.
  assert (∀ o pre, crop_trace pdf_file crop o pre →
            Forall (λ e, convert_event e = true) pre) as Hcrop.
  { intros o pre Hpre%crop_trace_events. eapply Forall_impl; [done|].
    intros e He. unfold convert_event. simpl in He. by rewrite He. }
  assert (∀ b dt, trim_trace png_file b dt →
            Forall (λ e, convert_event e = true) dt) as Htrim.
  { intros b dt Ht%trim_trace_events. eapply Forall_impl; [done|].
    intros e He. unfold convert_event. simpl in He. rewrite He.
    by destruct (crop_event e). }
  assert (∀ b dc, probed "convert" b dc → Forall (λ e, convert_event e = true) dc)
    as Hdc by (intros b dc Hb; by eapply (probed_events convert_event)).
  assert (∀ b f cmd, found_by (fallback_tool b) f cmd → convert_event f = true)
    as Hf' by (intros [] f cmd (? & -> & _); done).
  intros Hc. inversion Hc as [pre e Hpre|pre source o d' Hpre Hr]; subst; [by eauto|].
  apply Forall_app. split; [by eauto|].
  inversion Hr as
    [f cmd (? & -> & _) Hn
    |f cmd out0 e (? & -> & _) Hx
    |f cmd so se dt (? & -> & _) Ht
    |f cmd rc so se b dc f' cmd' out0 e (? & -> & _) Hrc Hb Hfb Hx
    |f cmd rc so se b dc f' cmd' so' se' dt (? & -> & _) Hrc Hb Hfb Ht
    |f cmd rc so se b dc f' cmd' rc' so' se' (? & -> & _) Hrc Hb Hfb Hrc'];
    subst; repeat (apply Forall_cons; split; [done|]);
    rewrite ?Forall_app; repeat split; eauto;
    repeat (apply Forall_cons; split; eauto).
Qed.

Lemma compile_calls_not_convert tex_file use_biblatex d e :
  compile_calls tex_file use_biblatex d → e ∈ d → convert_event e = false.
Proof.
  intros Hc He.
  destruct (compile_calls_events _ _ _ Hc e He) as (s & inv & out & -> & Hs).
  destruct s as [tool| | | | | | | |]; try done.
  by destruct Hs as [-> | ->]; [|destruct use_biblatex].
Qed.

Lemma convert_event_pass e : convert_event e = true → pass_of e = None.
Proof. by destruct e as [[] ? ?|]. Qed.

Lemma passes_run_convert d :
  Forall (λ e, convert_event e = true) d → passes_run d = [].
Proof.
  unfold passes_run. induction 1 as [|e d He _ IH]; [done|].
  simpl. by rewrite (convert_event_pass e He).
Qed.

Lemma ended_well_passes d i out :
  Forall (λ e, ended_well e = true) d → (i, out) ∈ passes_run d → exit_zero out = true.
Proof.
  intros Hd (e & He & Hp)%list_elem_of_omap.
  rewrite Forall_forall in Hd. apply Hd in He.
  by destruct e as [[] ? ?|]; simplify_eq/=.
Qed.

Lemma compile_latex_success E tex_file passes use_biblatex hide_warnings w :
  value_of (compile_latex E tex_file passes use_biblatex hide_warnings w)
    = Returns CompileSuccess ↔
  (passes_run (events_of (compile_latex E tex_file passes use_biblatex hide_warnings w))).*1
    = range passes ∧
  Forall (λ e, ended_well e = true)
    (events_of (compile_latex E tex_file passes use_biblatex hide_warnings w)).
Proof.
  destruct (compile_latex_run E tex_file passes use_biblatex hide_warnings w)
    as (o & Hrun & Hv).
  destruct (loop_run_passes _ _ _ Hrun) as (_ & _ & Hs).
  rewrite Hv, <- Hs. split; [by intros [= ->]|by intros ->].
Qed.

Lemma compile_latex_footprint E tex_file passes use_biblatex hide_warnings w e :
  e ∈ events_of (compile_latex E tex_file passes use_biblatex hide_warnings w) →
  convert_event e = false.
Proof.
  rewrite compile_latex_events.
  pose proof (loop_calls E tex_file use_biblatex (range passes) w) as Hc.
  unfold sat in Hc. by eapply compile_calls_not_convert.
Qed.

Lemma pdf_to_png_rasterized E pdf_file png_file dpi crop w :
  value_of (pdf_to_png E pdf_file png_file dpi crop w) = Returns ConvertSuccess →
  ∃ s inv so se,
    (s = pdftoppm_run ∨ s = imagemagick_run) ∧
    Run s inv (Completed 0 so se) ∈ events_of (pdf_to_png E pdf_file png_file dpi crop w).
Proof.
  intros Hv.
  destruct (pdf_to_png_conversion E pdf_file png_file dpi crop w) as (r & Hr & Hc).
  rewrite Hv in Hr. injection Hr as <-.
  apply conversion_success in Hc as [Hs _].
  destruct (proj1 Hs eq_refl) as (s & inv & so & se & Hsite & Hin).
  exists s, inv, so, se. split; [done|]. by apply elem_of_main in Hin as [? _].
Qed.

Lemma remove_tree_under (p : path) (m : filesystem) (q : path) :
  FS.under p q → FS.remove_tree p m !! q = None.
Proof.
  intros Hu. unfold FS.remove_tree. apply map_lookup_filter_None. right.
  intros x _ Hn. by apply Hn.
Qed.

(** X13. [render_snippet] never raises, and rasterizes only what compiled:
    when any call of the conversion is made (a probe or a run of [pdfcrop],
    [pdftoppm] or ImageMagick, or the trim pass), all the passes asked for
    have run and each exited with status zero.  A failure that carries a log
    is a failure of the compilation: then no call of the conversion was
    made, and a pass did not run or did not exit with status zero, or the
    bibliography tool did not run to its end. *)
Theorem render_snippet_compiles_first E body preamble_extra sanitize_graphics passes
    bib_entries use_biblatex hide_warnings w :
  ∃ r,
    value_of (render_snippet E body preamble_extra sanitize_graphics passes bib_entries
                use_biblatex hide_warnings w) = Returns r ∧
    ((∃ e, e ∈ events_of (render_snippet E body preamble_extra sanitize_graphics passes
                            bib_entries use_biblatex hide_warnings w) ∧
           convert_event e = true) →
     (passes_run (events_of (render_snippet E body preamble_extra sanitize_graphics passes
                               bib_entries use_biblatex hide_warnings w))).*1
       = range passes ∧
     ∀ i out,
       (i, out) ∈ passes_run (events_of (render_snippet E body preamble_extra
                                           sanitize_graphics passes bib_entries
                                           use_biblatex hide_warnings w)) →
       exit_zero out = true) ∧
    (∀ error log,
       r = RenderFailure error (Some log) →
       (∀ e, e ∈ events_of (render_snippet E body preamble_extra sanitize_graphics passes
                              bib_entries use_biblatex hide_warnings w) →
             convert_event e = false) ∧
       ¬ ((passes_run (events_of (render_snippet E body preamble_extra sanitize_graphics
                                    passes bib_entries use_biblatex hide_warnings w))).*1
            = range passes ∧
          Forall (λ e, ended_well e = true)
            (events_of (render_snippet E body preamble_extra sanitize_graphics passes
                          bib_entries use_biblatex hide_warnings w)))).
Proof.
  pose proof (render_snippet_stages E body preamble_extra sanitize_graphics passes
                bib_entries use_biblatex hide_warnings w) as Hst.
  cbv zeta in Hst.
  set (run := render_snippet _ _ _ _ _ _ _ _ _) in *.
  set (tp := TEMP_DIR E // UUID.str (uuid4 E)) in *.
  set (p := prepare_workspace _ _ _ _ _ _) in *.
  pose proof (compile_latex_success E (tp // "document.tex") passes use_biblatex
                hide_warnings (world_of p)) as Hcs.
  pose proof (λ e, compile_latex_footprint E (tp // "document.tex") passes use_biblatex
                     hide_warnings (world_of p) e) as Hcf.
  set (c := compile_latex _ _ _ _ _ _) in *.
  destruct (pdf_to_png_trace E (tp // "document.pdf") (tp // "document.png") 300 true
              (world_of c)) as (rv & _ & Hvt%convert_trace_events).
  set (v := pdf_to_png _ _ _ _ _ _) in *.
  assert (∀ dv, Forall (λ e, convert_event e = true) dv →
            value_of c = Returns CompileSuccess →
            (passes_run (events_of c ++ dv)).*1 = range passes ∧
            ∀ i out, (i, out) ∈ passes_run (events_of c ++ dv) → exit_zero out = true)
    as Hok.
  { intros dv Hdv [Hr Hw]%Hcs.
    rewrite passes_run_app, (passes_run_convert dv Hdv), app_nil_r.
    split; [done|]. intros i out. by apply ended_well_passes. }
  destruct (value_of p) as [ws|e] eqn:Hp.
  2: { rewrite Hst. eexists. split; [done|]. simpl. split.
       - by intros (e' & ?%elem_of_nil & _).
       - by intros ? ? [=]. }
  destruct (value_of c) as [[|error log]|e] eqn:Hc; [| |done].
  2: { rewrite Hst. eexists. split; [done|]. simpl. split.
       - intros (e & He & Hconv). by rewrite (Hcf e He) in Hconv.
       - intros ? ? [= -> <-]. split; [done|]. by intros ?%Hcs. }
  destruct (value_of v) as [[|error]|e] eqn:Hv; [| |done].
  2: { rewrite Hst. eexists. split; [done|]. simpl. split.
       - intros _. by apply Hok.
       - by intros ? ? [=]. }
  destruct Hst as [Hd Hst]. rewrite Hd.
  destruct (fs (world_of v) !! (tp // "document.png")) as [[|content]|];
    [destruct Hst as (msg & -> & _)
    |destruct (fs (world_of v) !! tp) as [[|c0]|];
      [destruct Hst as [-> _]|destruct Hst as (msg & -> & _)..]
    |destruct Hst as (msg & -> & _)].
  all: eexists; split; [done|]; split; [intros _; by apply Hok|by intros ? ? [=]].
Qed.

(** X14. When [render_snippet] succeeds, the identifier it returns is the
    one drawn for the request, nothing is left at the path of the scratch
    directory of the request or below it, all the passes asked for have run
    and each exited with status zero, and [pdftoppm] or ImageMagick exited
    with status zero. *)
Theorem render_snippet_success E body preamble_extra sanitize_graphics passes bib_entries
    use_biblatex hide_warnings w data id :
  value_of (render_snippet E body preamble_extra sanitize_graphics passes bib_entries
              use_biblatex hide_warnings w) = Returns (RenderSuccess data id) →
  id = UUID.str (uuid4 E) ∧
  (∀ q, FS.under (TEMP_DIR E // id) q →
        fs (world_of (render_snippet E body preamble_extra sanitize_graphics passes
                        bib_entries use_biblatex hide_warnings w)) !! q = None) ∧
  (passes_run (events_of (render_snippet E body preamble_extra sanitize_graphics passes
                            bib_entries use_biblatex hide_warnings w))).*1
    = range passes ∧
  (∀ i out,
     (i, out) ∈ passes_run (events_of (render_snippet E body preamble_extra
                                         sanitize_graphics passes bib_entries
                                         use_biblatex hide_warnings w)) →
     exit_zero out = true) ∧
  (∃ s inv so se,
     (s = pdftoppm_run ∨ s = imagemagick_run) ∧
     Run s inv (Completed 0 so se)
       ∈ events_of (render_snippet E body preamble_extra sanitize_graphics passes
                      bib_entries use_biblatex hide_warnings w)).
Proof.
  pose proof (render_snippet_stages E body preamble_extra sanitize_graphics passes
                bib_entries use_biblatex hide_warnings w) as Hst.
  cbv zeta in Hst.
  set (run := render_snippet _ _ _ _ _ _ _ _ _) in *.
  set (tp := TEMP_DIR E // UUID.str (uuid4 E)) in *.
  set (p := prepare_workspace _ _ _ _ _ _) in *.
  pose proof (compile_latex_success E (tp // "document.tex") passes use_biblatex
                hide_warnings (world_of p)) as Hcs.
  set (c := compile_latex _ _ _ _ _ _) in *.
  destruct (pdf_to_png_trace E (tp // "document.pdf") (tp // "document.png") 300 true
              (world_of c)) as (rv & _ & Hvt%convert_trace_events).
  pose proof (pdf_to_png_rasterized E (tp // "document.pdf") (tp // "document.png") 300
                true (world_of c)) as Hras.
  set (v := pdf_to_png _ _ _ _ _ _) in *.
  intros Hrun.
  destruct (value_of p) as [ws|e]; [|by rewrite Hst in Hrun].
  destruct (value_of c) as [[|error log]|e] eqn:Hc; [|by rewrite Hst in Hrun|done].
  destruct (value_of v) as [[|error]|e] eqn:Hv; [|by rewrite Hst in Hrun|done].
  destruct Hst as [Hd Hst]. rewrite Hd.
  destruct (proj1 Hcs eq_refl) as [Hr Hw].
  destruct (Hras eq_refl) as (s & inv & so & se & Hs & Hin).
  assert (id = UUID.str (uuid4 E) ∧
          ∀ q, FS.under (TEMP_DIR E // id) q → fs (world_of run) !! q = None)
    as [-> Hgone].
  { destruct (fs (world_of v) !! (tp // "document.png")) as [[|content]|];
      [destruct Hst as (msg & Hst & _); by rewrite Hst in Hrun| |
       destruct Hst as (msg & Hst & _); by rewrite Hst in Hrun].
    destruct (fs (world_of v) !! tp) as [[|c0]|];
      [|destruct Hst as (msg & Hst & _); by rewrite Hst in Hrun..].
    destruct Hst as [Hval Hworld]. rewrite Hval in Hrun. injection Hrun as _ <-.
    split; [done|]. intros q Hq. rewrite Hworld. simpl. by apply remove_tree_under. }
  split_and!; try done.
  - by rewrite passes_run_app, (passes_run_convert _ Hvt), app_nil_r.
  - intros i out. rewrite passes_run_app, (passes_run_convert _ Hvt), app_nil_r.
    by apply ended_well_passes.
  - exists s, inv, so, se. split; [done|]. apply elem_of_app. by right.
Qed.

Lemma render_snippet_success_witness :
  ws_id = UUID.str (uuid4 all_well_env) ∧
  (∀ q, FS.under (TEMP_DIR all_well_env // ws_id) q →
        fs (world_of (render_snippet all_well_env "$E=mc^2$" "" true 1 None false false
                        empty_world)) !! q = None) ∧
  (passes_run (events_of (render_snippet all_well_env "$E=mc^2$" "" true 1 None false
                            false empty_world))).*1
    = range 1 ∧
  (∀ i out,
     (i, out) ∈ passes_run (events_of (render_snippet all_well_env "$E=mc^2$" "" true 1
                                         None false false empty_world)) →
     exit_zero out = true) ∧
  (∃ s inv so se,
     (s = pdftoppm_run ∨ s = imagemagick_run) ∧
     Run s inv (Completed 0 so se)
       ∈ events_of (render_snippet all_well_env "$E=mc^2$" "" true 1 None false false
                      empty_world)).
Proof.
  apply (render_snippet_success all_well_env "$E=mc^2$" "" true 1 None false false
           empty_world "PNG" ws_id).
  vm_compute. reflexivity.
Defined.

(** ** [api_compile] *)

Lemma render_snippet_returns E body preamble_extra sanitize_graphics passes bib_entries
    use_biblatex hide_warnings w :
  ∃ r, value_of (render_snippet E body preamble_extra sanitize_graphics passes bib_entries
                   use_biblatex hide_warnings w) = Returns r.
Proof.
  unfold render_snippet, try_except, value_of.
  match goal with |- context [bind ?c ?k w] => destruct (bind c k w) as [[[r|e] w'] d] end;
    simpl; eauto.
Qed.

Lemma has_body_member items :
  existsb is_body_key items = true ↔ J_string "body" ∈ items.
Proof.
  rewrite existsb_exists. split.
  - intros (x & Hin & Hx). destruct x; try done.
    apply String.eqb_eq in Hx as ->. by apply list_elem_of_In.
  - intros Hin. exists (J_string "body"). split; [by apply list_elem_of_In|done].
Qed.

Lemma api_compile_payload_value E data w :
  (∀ d, data ≠ J_object d) →
  world_of (api_compile_payload E (Returns data) w) = w ∧
  events_of (api_compile_payload E (Returns data) w) = [] ∧
  (refused data ∧
   (∃ e, value_of (api_compile_payload E (Returns data) w) = Raises e) ∨
   ¬ refused data ∧
   value_of (api_compile_payload E (Returns data) w)
   = Returns (RenderFailure "Missing 'body' parameter" None, 400)).
Proof.
  intros Hobj. unfold refused.
  destruct data as [|[|]|n|[|]|s|items|d]; [..|by destruct (Hobj d)].
  - split_and!; [done..|]. right. split; [naive_solver|done].
  - split_and!; [done..|]. left. split; [by left|by eexists].
  - split_and!; [done..|]. right. split; [naive_solver|done].
  - unfold api_compile_payload, json_truthy.
    destruct (n =? 0) eqn:Hn; simpl.
    + apply Z.eqb_eq in Hn as ->. split_and!; [done..|].
      right. split; [naive_solver|done].
    + apply Z.eqb_neq in Hn. split_and!; [done..|].
      left. split; [right; left; by exists n|by eexists].
  - split_and!; [done..|]. right. split; [naive_solver|done].
  - split_and!; [done..|]. left. split; [by right; right; left|by eexists].
  - unfold api_compile_payload, json_truthy, has_body.
    destruct (String.eqb_spec s "") as [->|Hs]; simpl.
    { split_and!; [done..|]. right. split; [naive_solver|done]. }
    unfold bind, ret, raise, value_of, world_of, events_of. simpl.
    destruct (Str.contains "body" s) eqn:Hc; simpl.
    + split_and!; [done..|]. left. split; [|by eexists].
      right. right. right. left. by exists s.
    + split_and!; [done..|]. right. split; [|done].
      intros [?|[(?&?&?)|[?|[(s0 & Hs0 & [= <-])|(?&?&?)]]]]; try done. congruence.
  - unfold api_compile_payload, json_truthy, has_body.
    destruct items as [|x items]; simpl.
    { split_and!; [done..|]. right. split; [|done].
      intros [?|[(?&?&?)|[?|[(?&?&?)|(l & Hin & [= <-])]]]]; try done.
      by apply elem_of_nil in Hin. }
    unfold bind, ret, raise, value_of, world_of, events_of. simpl.
    destruct (is_body_key x || existsb is_body_key items) eqn:Hc; simpl.
    + split_and!; [done..|]. left. split; [|by eexists].
      right. right. right. right.
      exists (x :: items). split; [|done]. by apply has_body_member.
    + split_and!; [done..|]. right. split; [|done].
      intros [?|[(?&?&?)|[?|[(?&?&?)|(l & Hin & [= <-])]]]]; try done.
      apply has_body_member in Hin. simpl in Hin. congruence.
Qed.

(** X15. [api_compile], from what [request.get_json()] gives; an object is
    taken with fields of the types that [render_snippet] expects.  It
    raises exactly when [get_json] raises or the payload is [true], a number
    that is not zero, a string that contains "body" or an array with the
    member "body" (a [TypeError] of the test ['body' not in data] or of
    [data['body']]); it has then made no call and changed nothing.  It
    answers with status 400 and the error "Missing 'body' parameter", again
    without a call or a change, for every other payload that is not an
    object with a body.  For an object with a body it runs [render_snippet]
    once, with the defaults of the optional fields ([preamble_extra] empty,
    one pass, no bibliography, no biblatex), and answers with status 200 and
    what [render_snippet] returned, also when that is a failure. *)
Theorem api_compile_status E request w :
  ((∃ e, value_of (api_compile_payload E request w) = Raises e) ↔
   (∃ e, request = Raises e) ∨ (∃ data, request = Returns data ∧ refused data)) ∧
  (∀ e, request = Raises e → value_of (api_compile_payload E request w) = Raises e) ∧
  (∀ e,
     value_of (api_compile_payload E request w) = Raises e →
     world_of (api_compile_payload E request w) = w ∧
     events_of (api_compile_payload E request w) = []) ∧
  (∀ r status,
     value_of (api_compile_payload E request w) = Returns (r, status) →
     (status = 400 ∧
      r = RenderFailure "Missing 'body' parameter" None ∧
      world_of (api_compile_payload E request w) = w ∧
      events_of (api_compile_payload E request w) = [] ∧
      ∀ d, request = Returns (J_object d) → j_body d = None) ∨
     (status = 200 ∧
      ∃ d body,
        request = Returns (J_object d) ∧ j_body d = Some body ∧
        value_of (render_snippet E body (default "" (j_preamble_extra d))
                    (default true (j_sanitize_graphics d)) (default 1 (j_passes d))
                    (j_bib_entries d) (default false (j_use_biblatex d))
                    (default false (j_hide_warnings d)) w) = Returns r ∧
        world_of (api_compile_payload E request w)
          = world_of (render_snippet E body (default "" (j_preamble_extra d))
                        (default true (j_sanitize_graphics d)) (default 1 (j_passes d))
                        (j_bib_entries d) (default false (j_use_biblatex d))
                        (default false (j_hide_warnings d)) w) ∧
        events_of (api_compile_payload E request w)
          = events_of (render_snippet E body (default "" (j_preamble_extra d))
                         (default true (j_sanitize_graphics d)) (default 1 (j_passes d))
                         (j_bib_entries d) (default false (j_use_biblatex d))
                         (default false (j_hide_warnings d)) w))) ∧
  (∀ d body,
     request = Returns (J_object d) → j_body d = Some body →
     ∃ r, value_of (api_compile_payload E request w) = Returns (r, 200)).
Proof.
  assert (∀ d, ¬ refused (J_object d)) as Hobj.
  { intros d [?|[(?&?&?)|[?|[(?&?&?)|(?&?&?)]]]]; done. }
  destruct request as [data|e].
  2: { split_and!; try done.
       - split; [eauto|]. intros _. by eexists.
       - intros ? [= <-]. done. }
  assert ((∃ d, data = J_object d) ∨ ∀ d, data ≠ J_object d) as [[d ->]|Hd]
    by (destruct data; eauto).
  - change (api_compile_payload E (Returns (J_object d)) w)
      with (api_compile E (Some d) w).
    destruct d as [[body|] pe sg ps be ub hw]; simpl.
    + destruct (render_snippet_returns E body (default "" pe) (default true sg)
                  (default 1 ps) be (default false ub) (default false hw) w) as [r Hr].
      unfold bind, value_of, world_of, events_of in *.
      destruct (render_snippet E body (default "" pe) (default true sg) (default 1 ps) be
                  (default false ub) (default false hw) w) as [[o w'] ev] eqn:Hrun.
      simpl in *. subst o. simpl. rewrite app_nil_r. split_and!.
      * split; [by intros [? ?]|]. intros [[? ?]|(? & [= <-] & H)]; [done|].
        by apply Hobj in H.
      * done.
      * done.
      * intros ? ? [= <- <-]. right. split; [done|].
        eexists _, body. split_and!; try done; simpl; by rewrite Hrun.
      * intros ? ? _ _. by eexists.
    + split_and!; try done.
      * split; [by intros [? ?]|]. intros [[? ?]|(? & [= <-] & H)]; [done|].
        by apply Hobj in H.
      * intros ? ? [= <- <-]. left. split_and!; try done. by intros ? [= <-].
      * by intros ? ? [= <-].
  - destruct (api_compile_payload_value E data w Hd) as (Hw & He & Hcases).
    split_and!; try done.
    + split.
      * intros [e He']. right. exists data. split; [done|].
        destruct Hcases as [[? _]|[_ Hv]]; [done|]. by rewrite Hv in He'.
      * intros [[? ?]|(? & [= <-] & H)]; [done|].
        destruct Hcases as [[_ ?]|[? _]]; done.
    + intros r status Hv. left.
      destruct Hcases as [[_ [e He']]|[_ Hv']].
      * by rewrite He' in Hv.
      * rewrite Hv' in Hv. injection Hv as <- <-.
        split_and!; try done. intros d [= ->]. by destruct (Hd d).
    + intros d body [= ->]. by destruct (Hd d).
Qed.

(** Payloads that are no objects: the array [["body"]], a string that
    contains "body" and [true] make [api_compile] raise; [null] and a string
    without "body" are answered with status 400. *)
Example api_compile_payloads E w :
  value_of (api_compile_payload E (Returns (J_array [J_string "body"])) w)
    = Raises (Exception "list indices must be integers or slices, not str") ∧
  value_of (api_compile_payload E (Returns (J_string "no body here")) w)
    = Raises (Exception "string indices must be integers, not 'str'") ∧
  value_of (api_compile_payload E (Returns (J_bool true)) w)
    = Raises (Exception "argument of type 'bool' is not iterable") ∧
  value_of (api_compile_payload E (Returns J_null) w)
    = Returns (RenderFailure "Missing 'body' parameter" None, 400) ∧
  value_of (api_compile_payload E (Returns (J_string "$E=mc^2$")) w)
    = Returns (RenderFailure "Missing 'body' parameter" None, 400).
Proof. repeat split; reflexivity. Qed.

(** ** What the pipeline leaves alone *)

Section Passive.

Context (E : environment).

Lemma passive_ret {A} (a : A) : passive E (ret a).
Proof. intros w. apply evolves_refl. Qed.

Lemma passive_raise {A} (e : exn) : passive E (raise e : M A).
Proof. intros w. apply evolves_refl. Qed.

Lemma passive_note e : passive E (note e).
Proof. intros w. apply evolves_refl. Qed.

Lemma passive_path_exists p : passive E (path_exists p).
Proof. intros w. apply evolves_refl. Qed.

Lemma passive_bind {A B} (c : M A) (k : A → M B) :
  passive E c → (∀ a, passive E (k a)) → passive E (bind c k).
Proof.
  intros Hc Hk w. specialize (Hc w). unfold world_of, bind in *.
  destruct (c w) as [[[a|e] w'] d]; simpl in *; [|done].
  specialize (Hk a w'). unfold world_of in Hk.
  destruct (k a w') as [[o w''] d']. simpl in *. by eapply evolves_trans.
Qed.

Lemma passive_try {A} (c : M A) (h : exn → M A) :
  passive E c → (∀ e, passive E (h e)) → passive E (try_except c h).
Proof.
  intros Hc Hh w. specialize (Hc w). unfold world_of, try_except in *.
  destruct (c w) as [[[a|e] w'] d]; simpl in *; [done|].
  specialize (Hh e w'). unfold world_of in Hh.
  destruct (h e w') as [[o w''] d']. simpl in *. by eapply evolves_trans.
Qed.

Lemma passive_run s cmd cwd t : passive E (subprocess_run E s cmd cwd t).
Proof.
  intros w. rewrite subprocess_run_eq. simpl.
  eapply evolves_exec. apply surjective_pairing.
Qed.

Lemma passive_getitem d k : passive E (getitem d k).
Proof. unfold getitem. destruct (d !! k); [apply passive_ret|apply passive_raise]. Qed.

Lemma passive_with_suffix_empty p : passive E (with_suffix_empty p).
Proof.
  unfold with_suffix_empty.
  destruct (Path.without_suffix p); [apply passive_ret|apply passive_raise].
Qed.

Ltac passive_step :=
  first
    [ apply passive_ret | apply passive_raise | apply passive_note
    | apply passive_path_exists | apply passive_run | apply passive_getitem
    | apply passive_with_suffix_empty | assumption
    | match goal with H : context [passive] |- passive _ _ => apply H end
    | apply passive_bind | apply passive_try
    | match goal with
      | |- passive _ (if ?b then _ else _) => destruct b
      | |- passive _ (match ?x with _ => _ end) => destruct x
      | |- ∀ _, _ => intro
      end ].

Lemma passive_find_command command : passive E (find_command E command).
Proof. unfold find_command. repeat passive_step. Qed.

Lemma passive_check_command command : passive E (check_command E command).
Proof. unfold check_command. repeat passive_step. Qed.

Lemma passive_trim png_file : passive E (_trim_png_inplace E png_file).
Proof.
  pose proof passive_find_command. pose proof passive_check_command.
  unfold _trim_png_inplace. repeat passive_step.
Qed.

Lemma passive_rasterize source png_file dpi crop :
  passive E (rasterize E source png_file dpi crop).
Proof.
  pose proof passive_find_command. pose proof passive_check_command.
  pose proof passive_trim.
  unfold rasterize. repeat passive_step.
Qed.

Lemma passive_pdf_to_png pdf_file png_file dpi crop :
  passive E (pdf_to_png E pdf_file png_file dpi crop).
Proof.
  pose proof passive_find_command. pose proof passive_check_command.
  pose proof passive_rasterize.
  unfold pdf_to_png. repeat passive_step.
Qed.

Lemma passive_loop tex_file use_biblatex indices :
  passive E (compile_latex_loop E tex_file use_biblatex indices).
Proof.
  pose proof passive_find_command.
  induction indices as [|i rest IH]; [apply passive_ret|].
  rewrite loop_unfold. cbn zeta. repeat passive_step.
Qed.

Lemma passive_compile_latex tex_file passes use_biblatex hide_warnings :
  passive E (compile_latex E tex_file passes use_biblatex hide_warnings).
Proof.
  pose proof passive_loop.
  unfold compile_latex. repeat passive_step.
Qed.

Lemma passive_readiness_report : passive E (readiness_report E).
Proof.
  pose proof passive_check_command.
  unfold readiness_report. repeat passive_step.
Qed.

End Passive.

(** X16. [compile_latex], [pdf_to_png] and [readiness_report] write nothing
    to the file system themselves: whatever they change, an external program
    changed.  A property of the file system that every external program
    keeps still holds when they return. *)
Theorem external_programs_only (E : environment) (I : filesystem → Prop) (w : world) :
  stable E I → I (fs w) →
  (∀ tex_file passes use_biblatex hide_warnings,
     I (fs (world_of (compile_latex E tex_file passes use_biblatex hide_warnings w)))) ∧
  (∀ pdf_file png_file dpi crop,
     I (fs (world_of (pdf_to_png E pdf_file png_file dpi crop w)))) ∧
  I (fs (world_of (readiness_report E w))).
Proof.
  intros Hst Hw. split_and!; intros.
  - by apply (passive_compile_latex E _ _ _ _ w).
  - by apply (passive_pdf_to_png E _ _ _ _ w).
  - by apply (passive_readiness_report E w).
Qed.

Lemma external_programs_only_witness :
  (∀ tex_file passes use_biblatex hide_warnings,
     fs (world_of (compile_latex second_pass_fails_env tex_file passes use_biblatex
                     hide_warnings written_world)) !! ws_tex
     = Some (File "\documentclass{article}")) ∧
  (∀ pdf_file png_file dpi crop,
     fs (world_of (pdf_to_png second_pass_fails_env pdf_file png_file dpi crop
                     written_world)) !! ws_tex
     = Some (File "\documentclass{article}")) ∧
  fs (world_of (readiness_report second_pass_fails_env written_world)) !! ws_tex
  = Some (File "\documentclass{article}").
Proof.
  apply (external_programs_only second_pass_fails_env
           (λ m, m !! ws_tex = Some (File "\documentclass{article}")) written_world).
  - apply scripted_stable. by repeat constructor.
  - reflexivity.
Defined.

Lemma outside_insert (p q : path) (n : node) (I : filesystem → Prop) (m : filesystem) :
  outside p I → FS.under p q → I m → I (<[q := n]> m).
Proof.
  intros Ho Hq. apply Ho. intros q' Hq'.
  rewrite lookup_insert_ne; [done|]. by intros ->.
Qed.

Lemma outside_remove_tree (p : path) (I : filesystem → Prop) (m : filesystem) :
  outside p I → I m → I (FS.remove_tree p m).
Proof.
  intros Ho. apply Ho. intros q Hq. unfold FS.remove_tree.
  destruct (m !! q) as [n|] eqn:Hm; symmetry.
  - by apply map_lookup_filter_Some.
  - apply map_lookup_filter_None. by left.
Qed.

Lemma prepare_workspace_frame (E : environment) (I : filesystem → Prop)
    body preamble_extra bib_entries use_biblatex (w : world) :
  outside (TEMP_DIR E // UUID.str (uuid4 E)) I → I (fs w) →
  I (fs (world_of (prepare_workspace E body preamble_extra bib_entries use_biblatex w))).
Proof.
  intros Ho Hw.
  assert (sat (prepare_workspace E body preamble_extra bib_entries use_biblatex) w
            (λ _ w' _, I (fs w'))) as H; [|exact H].
  unfold prepare_workspace.
  set (tp := TEMP_DIR E // UUID.str (uuid4 E)) in *.
  assert (∀ (m : filesystem) n, I m → I (<[tp := n]> m)) as Htp
    by (intros; by apply (outside_insert tp)).
  assert (∀ (m : filesystem) name n, I m → I (<[tp // name := n]> m)) as Hin
    by (intros; apply (outside_insert tp); [done|apply under_div|done]).
  apply sat_bind, mkdir_sat; [intros _|intros _ _|done].
  all: destruct (truthy bib_entries); [destruct use_biblatex|].
  all: apply sat_bind, write_text_sat; [intros _ _|intros; simpl; by auto].
  all: apply sat_bind.
  all: try (apply write_text_sat; [intros _ _|intros; simpl; by auto]).
  all: first [apply sat_ret, sat_ret|apply sat_ret]; simpl; auto.
Qed.

(** X17. [render_snippet] itself writes only at the scratch directory of the
    request and below it.  A property of the file system that every external
    program keeps, and that does not depend on what is at or below that
    directory, still holds when [render_snippet] returns, whichever way the
    request ends. *)
Theorem render_snippet_frame (E : environment) (I : filesystem → Prop)
    body preamble_extra sanitize_graphics passes bib_entries use_biblatex hide_warnings
    (w : world) :
  stable E I →
  outside (TEMP_DIR E // UUID.str (uuid4 E)) I →
  I (fs w) →
  I (fs (world_of (render_snippet E body preamble_extra sanitize_graphics passes
                     bib_entries use_biblatex hide_warnings w))).
Proof.
  intros Hst Ho Hw.
  pose proof (render_snippet_stages E body preamble_extra sanitize_graphics passes
                bib_entries use_biblatex hide_warnings w) as Hrun.
  cbv zeta in Hrun.
  set (run := render_snippet _ _ _ _ _ _ _ _ _) in *.
  set (tp := TEMP_DIR E // UUID.str (uuid4 E)) in *.
  pose proof (prepare_workspace_frame E I body preamble_extra bib_entries use_biblatex w
                Ho Hw) as Hp.
  set (p := prepare_workspace _ _ _ _ _ _) in *.
  pose proof (proj2 (passive_compile_latex E (tp // "document.tex") passes use_biblatex
                       hide_warnings (world_of p)) I Hst Hp) as Hc.
  set (c := compile_latex _ _ _ _ _ _) in *.
  pose proof (proj2 (passive_pdf_to_png E (tp // "document.pdf") (tp // "document.png")
                       300 true (world_of c)) I Hst Hc) as Hv.
  set (v := pdf_to_png _ _ _ _ _ _) in *.
  destruct (value_of p) as [ws|e]; [|by rewrite Hrun].
  destruct (value_of c) as [[|error log]|e]; [|by rewrite Hrun|done].
  destruct (value_of v) as [[|error]|e]; [|by rewrite Hrun|done].
  destruct Hrun as [_ Hrun].
  destruct (fs (world_of v) !! (tp // "document.png")) as [[|content]|];
    [destruct Hrun as (msg & _ & ->); done| |destruct Hrun as (msg & _ & ->); done].
  destruct (fs (world_of v) !! tp) as [[|c0]|];
    [|destruct Hrun as (msg & _ & ->); done..].
  destruct Hrun as [_ ->]. simpl. by apply outside_remove_tree.
Qed.

Lemma render_snippet_frame_witness :
  fs (world_of (render_snippet all_well_env "$E=mc^2$" "" true 1 None false false
                  empty_world)) !! scratch_root = Some Dir.
Proof.
  apply (render_snippet_frame all_well_env (λ m, m !! scratch_root = Some Dir)).
  - apply scripted_stable. repeat constructor; simpl; try done.
    all: intros m Hm; by rewrite lookup_insert_ne.
  - intros m m' Hsame Hm. rewrite <- Hsame; [done|].
    intros [k Hk]. apply (f_equal length) in Hk.
    unfold Path.div in Hk. rewrite !length_app in Hk. simpl in Hk. lia.
  - reflexivity.
Defined.

(** ** [render_snippet]: the command lines *)

Lemma compile_calls_shapes tex_file use_biblatex d :
  compile_calls tex_file use_biblatex d →
  (∀ i inv out, Run (compiler_pass i) inv out ∈ d →
     ∃ cmd, inv = compiler_call cmd tex_file) ∧
  (∀ inv out, Run bibliography_run inv out ∈ d →
     ∃ cmd, inv = bibliography_call cmd tex_file).
Proof.
  induction 1 as [|i f cmd out d (fout & -> & ->) Hd [IHc IHb]
                  |f cmd out d (fout & -> & ->) Hd [IHc IHb]].
  - split; intros; by elem_cases.
  - split.
    + intros j inv o Hin. elem_cases; [by eexists|by eapply IHc].
    + intros inv o Hin. elem_cases. by eapply IHb.
  - split.
    + intros j inv o Hin. elem_cases. by eapply IHc.
    + intros inv o Hin. elem_cases; [by eexists|by eapply IHb].
Qed.

Lemma conversion_shapes pdf_file png_file dpi crop r m :
  conversion pdf_file png_file dpi crop r m →
  (∀ inv out, Run pdftoppm_run inv out ∈ m →
     ∃ cmd source, (source = pdf_file ∨ source = cropped_of pdf_file) ∧
                   inv = pdftoppm_call cmd dpi source png_file) ∧
  (∀ inv out, Run imagemagick_run inv out ∈ m →
     ∃ cmd source, (source = pdf_file ∨ source = cropped_of pdf_file) ∧
                   inv = imagemagick_call cmd dpi source png_file) ∧
  (∀ p, TrimCalled p ∈ m → p = png_file).
Proof.
  intros Hc. split_and!.
  - intros inv out Hin. conversion_cases Hc; elem_cases; eexists _, _; eauto.
  - intros inv out Hin. conversion_cases Hc; elem_cases; eexists _, _; eauto.
  - intros p Hin. conversion_cases Hc; elem_cases; done.
Qed.

Lemma pdf_to_png_shapes E pdf_file png_file dpi crop w :
  (∀ inv out,
     Run pdfcrop_run inv out ∈ events_of (pdf_to_png E pdf_file png_file dpi crop w) →
     ∃ cmd, inv = pdfcrop_call cmd pdf_file) ∧
  (∀ inv out,
     Run pdftoppm_run inv out ∈ events_of (pdf_to_png E pdf_file png_file dpi crop w) →
     ∃ cmd source, (source = pdf_file ∨ source = cropped_of pdf_file) ∧
                   inv = pdftoppm_call cmd dpi source png_file) ∧
  (∀ inv out,
     Run imagemagick_run inv out ∈ events_of (pdf_to_png E pdf_file png_file dpi crop w) →
     ∃ cmd source, (source = pdf_file ∨ source = cropped_of pdf_file) ∧
                   inv = imagemagick_call cmd dpi source png_file) ∧
  (∀ p, TrimCalled p ∈ events_of (pdf_to_png E pdf_file png_file dpi crop w) →
        p = png_file).
Proof.
  destruct (pdf_to_png_trace E pdf_file png_file dpi crop w) as (r & _ & Ht).
  destruct (pdf_to_png_conversion E pdf_file png_file dpi crop w) as (r' & _ & Hc).
  apply convert_trace_crop in Ht as (_ & Hcrop & _).
  apply conversion_shapes in Hc as (Hp & Hi & Htrim).
  set (d := events_of _) in *. clearbody d.
  split_and!.
  - intros inv out Hin.
    destruct (Hcrop inv out Hin) as (? & ? & fout & _ & -> & _). by eexists.
  - intros inv out Hin. apply (Hp inv out). by apply elem_of_main.
  - intros inv out Hin. apply (Hi inv out). by apply elem_of_main.
  - intros p Hin. apply Htrim. by apply elem_of_main.
Qed.

Lemma without_suffix_png (p : path) :
  Path.without_suffix (p // "document.png") = Some (p // "document").
Proof.
  unfold Path.without_suffix, Path.name, Path.div.
  rewrite last_snoc, removelast_last. reflexivity.
Qed.

Lemma render_snippet_events E body preamble_extra sanitize_graphics passes bib_entries
    use_biblatex hide_warnings w :
  let temp_path := TEMP_DIR E // UUID.str (uuid4 E) in
  let p := prepare_workspace E body preamble_extra bib_entries use_biblatex w in
  let c := compile_latex E (temp_path // "document.tex") passes use_biblatex hide_warnings
             (world_of p) in
  let v := pdf_to_png E (temp_path // "document.pdf") (temp_path // "document.png") 300
             true (world_of c) in
  ∃ dc dv,
    events_of (render_snippet E body preamble_extra sanitize_graphics passes bib_entries
                 use_biblatex hide_warnings w) = dc ++ dv ∧
    (dc = [] ∨ dc = events_of c) ∧ (dv = [] ∨ dv = events_of v).
Proof.
  cbv zeta.
  pose proof (render_snippet_stages E body preamble_extra sanitize_graphics passes
                bib_entries use_biblatex hide_warnings w) as Hst.
  cbv zeta in Hst.
  set (run := render_snippet _ _ _ _ _ _ _ _ _) in *.
  set (tp := TEMP_DIR E // UUID.str (uuid4 E)) in *.
  set (p := prepare_workspace _ _ _ _ _ _) in *.
  set (c := compile_latex _ _ _ _ _ _) in *.
  set (v := pdf_to_png _ _ _ _ _ _) in *.
  destruct (value_of p) as [ws|e].
  2: { exists [], []. rewrite Hst. by auto. }
  destruct (value_of c) as [[|error log]|e]; [| |done].
  2: { exists (events_of c), []. rewrite Hst, app_nil_r. by auto. }
  destruct (value_of v) as [[|error]|e]; [| |done].
  2: { exists (events_of c), (events_of v). rewrite Hst. by auto. }
  destruct Hst as [Hd _]. exists (events_of c), (events_of v). by auto.
Qed.

(** X18. The command lines of [render_snippet].  Whatever the request, the
    compiler runs in the scratch directory of the request on its
    [document.tex], and the bibliography tool runs there on [document];
    [pdfcrop] reads [document.pdf] and writes [document-cropped.pdf];
    [pdftoppm] rasterizes one of these two at 300 dots per inch to the prefix
    [document], and ImageMagick to [document.png], all in that directory;
    and the trim pass is applied to that [document.png] only.  Every one of
    these calls has a timeout of 30 seconds. *)
Theorem render_snippet_command_lines E body preamble_extra sanitize_graphics passes
    bib_entries use_biblatex hide_warnings w :
  let temp_path := TEMP_DIR E // UUID.str (uuid4 E) in
  let d := events_of (render_snippet E body preamble_extra sanitize_graphics passes
                        bib_entries use_biblatex hide_warnings w) in
  (∀ i inv out,
     Run (compiler_pass i) inv out ∈ d →
     ∃ cmd, inv = Invocation [cmd; "-interaction=nonstopmode";
                              Path.str (temp_path // "document.tex")]
                    (Some temp_path) 30) ∧
  (∀ inv out,
     Run bibliography_run inv out ∈ d →
     ∃ cmd, inv = Invocation [cmd; "document"] (Some temp_path) 30) ∧
  (∀ inv out,
     Run pdfcrop_run inv out ∈ d →
     ∃ cmd, inv = Invocation [cmd; "--margins"; "3";
                              Path.str (temp_path // "document.pdf");
                              Path.str (temp_path // "document-cropped.pdf")] None 30) ∧
  (∀ inv out,
     Run pdftoppm_run inv out ∈ d →
     ∃ cmd source,
       (source = temp_path // "document.pdf" ∨
        source = temp_path // "document-cropped.pdf") ∧
       inv = Invocation [cmd; "-png"; "-singlefile"; "-r"; "300"; Path.str source;
                         Path.str (temp_path // "document")] None 30) ∧
  (∀ inv out,
     Run imagemagick_run inv out ∈ d →
     ∃ cmd source,
       (source = temp_path // "document.pdf" ∨
        source = temp_path // "document-cropped.pdf") ∧
       inv = Invocation [cmd; "-density"; "300"; Path.str source;
                         Path.str (temp_path // "document.png")] None 30) ∧
  (∀ p, TrimCalled p ∈ d → p = temp_path // "document.png").
Proof.
  cbv zeta.
  destruct (render_snippet_events E body preamble_extra sanitize_graphics passes
              bib_entries use_biblatex hide_warnings w) as (dc & dv & -> & Hdc & Hdv).
  set (tp := TEMP_DIR E // UUID.str (uuid4 E)) in *.
  set (p := prepare_workspace _ _ _ _ _ _) in *.
  pose proof (loop_calls E (tp // "document.tex") use_biblatex (range passes) (world_of p))
    as Hcalls.
  unfold sat in Hcalls.
  rewrite <- (compile_latex_events E (tp // "document.tex") passes use_biblatex
                hide_warnings (world_of p)) in Hcalls.
  pose proof (λ e, compile_latex_footprint E (tp // "document.tex") passes use_biblatex
                     hide_warnings (world_of p) e) as Hcf.
  set (c := compile_latex _ _ _ _ _ _) in *.
  destruct (pdf_to_png_trace E (tp // "document.pdf") (tp // "document.png") 300 true
              (world_of c)) as (rv & _ & Hvt%convert_trace_events).
  pose proof (pdf_to_png_shapes E (tp // "document.pdf") (tp // "document.png") 300 true
                (world_of c)) as (Hcrop & Hppm & Hmagick & Htrim).
  set (v := pdf_to_png _ _ _ _ _ _) in *.
  assert (Path.parent (tp // "document.tex") = tp) as Hptex by by apply parent_div.
  assert (cropped_of (tp // "document.pdf") = tp // "document-cropped.pdf") as Hcropped
    by (unfold cropped_of; by rewrite parent_div).
  apply compile_calls_shapes in Hcalls as [Hpass Hbib].
  rewrite Forall_forall in Hvt.
  assert (∀ e, e ∈ dc → e ∈ events_of c) as Hc_in.
  { intros e He. destruct Hdc as [-> | ->]; [by apply elem_of_nil in He|done]. }
  assert (∀ e, e ∈ dv → e ∈ events_of v) as Hv_in.
  { intros e He. destruct Hdv as [-> | ->]; [by apply elem_of_nil in He|done]. }
  clear Hdc Hdv.
  assert (∀ e, e ∈ dc ++ dv → convert_event e = false → e ∈ events_of c) as Hfront.
  { intros e [He|He]%elem_of_app Hn; [by apply Hc_in|].
    apply Hv_in, Hvt in He. congruence. }
  assert (∀ e, e ∈ dc ++ dv → convert_event e = true → e ∈ events_of v) as Hback.
  { intros e [He|He]%elem_of_app Hy; [|by apply Hv_in].
    apply Hc_in, Hcf in He. congruence. }
  split_and!.
  - intros i inv out Hin%Hfront; [|done].
    destruct (Hpass _ _ _ Hin) as [cmd ->]. exists cmd.
    unfold compiler_call. by rewrite Hptex.
  - intros inv out Hin%Hfront; [|done].
    destruct (Hbib _ _ Hin) as [cmd ->]. exists cmd.
    unfold bibliography_call. by rewrite Hptex.
  - intros inv out Hin%Hback; [|done].
    destruct (Hcrop _ _ Hin) as [cmd ->]. exists cmd.
    unfold pdfcrop_call. by rewrite Hcropped.
  - intros inv out Hin%Hback; [|done].
    destruct (Hppm _ _ Hin) as (cmd & source & Hs & ->). exists cmd, source.
    rewrite Hcropped in Hs. split; [done|].
    unfold pdftoppm_call. by rewrite without_suffix_png.
  - intros inv out Hin%Hback; [|done].
    destruct (Hmagick _ _ Hin) as (cmd & source & Hs & ->). exists cmd, source.
    rewrite Hcropped in Hs. by split.
  - intros q Hin%Hback; [|done]. by apply Htrim.
Qed.
